(** * mado: event dispatch, IME editing callbacks and GLFW error classification

    A shallow embedding of

    - [app.callbacks] (the dispatcher that serialises event delivery to a
      window, its semantic-tree accessors and its IME editing operations), and
    - [glfw.acceptError] / [glfw.fetchError] (classification of the pending
      GLFW error),

    together with the properties of both that the specification relies on.

    Conventions.  A Go [int] is a 64-bit two's complement integer, modelled as
    a [Z] with the wrap-around written out ([Int.wrap]).  A Go [string] is a
    sequence of bytes, modelled as [String.string].  A nil-able interface or
    pointer is an [option].  A channel that this code receives from is its
    buffer of values that were sent and not yet received, plus its closed
    flag. *)

From Stdlib Require Import ZArith List String Ascii Bool Lia.
From Stdlib Require Import DecimalString DecimalZ.
Import ListNotations.

Local Open Scope Z_scope.

(* ================================================================= *)
(** ** Go machine integers *)

Module Int.

Definition min_int : Z := - 2 ^ 63.
Definition max_int : Z := 2 ^ 63 - 1.

(** The value of an [int] expression whose mathematical value is [z]. *)
Definition wrap (z : Z) : Z := (z + 2 ^ 63) mod 2 ^ 64 - 2 ^ 63.

Definition in_range (z : Z) : Prop := min_int <= z <= max_int.

Definition add (a b : Z) : Z := wrap (a + b).

Lemma wrap_small z : in_range z -> wrap z = z.
Proof.
  unfold in_range, min_int, max_int, wrap. intros H.
  rewrite Z.mod_small; lia.
Qed.

Lemma wrap_in_range z : in_range (wrap z).
Proof.
  unfold in_range, min_int, max_int, wrap.
  pose proof (Z.mod_pos_bound (z + 2 ^ 63) (2 ^ 64) ltac:(lia)). lia.
Qed.

End Int.

(* ================================================================= *)
(** ** [unicode/utf8.RuneCountInString]

    The library routine that [EditorInsert] uses to advance the caret.  It
    walks the bytes of the string; at each position it decodes the length of
    the encoded rune that starts there, and an ill-formed or truncated sequence
    counts as one rune of width one. *)

Module Utf8.

Definition RuneSelf : Z := 0x80.
Definition locb : Z := 0x80.
Definition hicb : Z := 0xBF.

(** Entries of the [first] table: the low three bits hold the size of the
    encoding, the high four bits index [acceptRanges]. *)
Definition xx : Z := 0xF1.
Definition as_ : Z := 0xF0.
Definition s1 : Z := 0x02.
Definition s2 : Z := 0x13.
Definition s3 : Z := 0x03.
Definition s4 : Z := 0x23.
Definition s5 : Z := 0x34.
Definition s6 : Z := 0x04.
Definition s7 : Z := 0x44.

Definition first (c : Z) : Z :=
  if c <? 0x80 then as_
  else if c <? 0xC2 then xx
  else if c <? 0xE0 then s1
  else if c =? 0xE0 then s2
  else if c <? 0xED then s3
  else if c =? 0xED then s4
  else if c <? 0xF0 then s3
  else if c =? 0xF0 then s5
  else if c <? 0xF4 then s6
  else if c =? 0xF4 then s7
  else xx.

Definition acceptRanges (i : Z) : Z * Z :=
  if i =? 1 then (0xA0, hicb)
  else if i =? 2 then (locb, 0x9F)
  else if i =? 3 then (0x90, hicb)
  else if i =? 4 then (locb, 0x8F)
  else (locb, hicb).

Definition byte_at (s : list Z) (i : nat) : Z := nth i s 0.

Definition is_cont (c : Z) : bool := (locb <=? c) && (c <=? hicb).

(** Width, in bytes, of the rune whose first byte is [c] and which is
    followed by the bytes [rest]: one pass through the loop body. *)
Definition rune_width (c : Z) (rest : list Z) : nat :=
  if c <? RuneSelf then 1%nat
  else
    let x := first c in
    if x =? xx then 1%nat
    else
      let size := Z.to_nat (Z.land x 7) in
      if (S (List.length rest) <? size)%nat then 1%nat
      else
        let '(lo, hi) := acceptRanges (Z.shiftr x 4) in
        let c1 := byte_at rest 0 in
        if (c1 <? lo) || (hi <? c1) then 1%nat
        else if (size =? 2)%nat then size
        else if negb (is_cont (byte_at rest 1)) then 1%nat
        else if (size =? 3)%nat then size
        else if negb (is_cont (byte_at rest 2)) then 1%nat
        else size.

(** [count skip s]: runes found in [s] once its first [skip] bytes, which
    belong to a rune already counted, have been passed over. *)
Fixpoint count (skip : nat) (s : list Z) : Z :=
  match s with
  | [] => 0
  | c :: rest =>
      match skip with
      | S k => count k rest
      | O => 1 + count (pred (rune_width c rest)) rest
      end
  end.

Definition bytes (s : string) : list Z :=
  map (fun a => Z.of_N (N_of_ascii a)) (list_ascii_of_string s).

Definition of_bytes (l : list Z) : string :=
  string_of_list_ascii (map (fun z => ascii_of_N (Z.to_N z)) l).

Definition RuneCountInString (s : string) : Z := count 0 (bytes s).

Lemma count_bounds : forall s skip, 0 <= count skip s <= Z.of_nat (List.length s).
Proof.
  induction s as [|c rest IH]; intros skip; cbn [List.length count]; rewrite ?Nat2Z.inj_succ.
  - lia.
  - destruct skip as [|k].
    + specialize (IH (pred (rune_width c rest))). lia.
    + specialize (IH k). lia.
Qed.

Lemma RuneCountInString_bounds s :
  0 <= RuneCountInString s <= Z.of_nat (String.length s).
Proof.
  unfold RuneCountInString, bytes.
  pose proof (count_bounds (map (fun a => Z.of_N (N_of_ascii a))
                                (list_ascii_of_string s)) 0) as H.
  rewrite length_map in H.
  assert (E : List.length (list_ascii_of_string s) = String.length s).
  { clear H. induction s; simpl; congruence. }
  rewrite E in H. exact H.
Qed.

(** The three two-byte runes U+00E4, U+00F6, U+00FC. *)
Definition a_o_u_umlaut : string :=
  of_bytes [0xC3; 0xA4; 0xC3; 0xB6; 0xC3; 0xBC].

Example count_ascii : RuneCountInString "abc" = 3.
Proof. reflexivity. Qed.

Example count_umlauts :
  String.length a_o_u_umlaut = 6%nat /\ RuneCountInString a_o_u_umlaut = 3.
Proof. split; reflexivity. Qed.

(** U+20AC (three bytes), U+1F600 (four bytes), and a lone continuation
    byte, which is counted as one rune. *)
Example count_mixed :
  RuneCountInString (of_bytes [0xE2; 0x82; 0xAC; 0xF0; 0x9F; 0x98; 0x80; 0x80]) = 3.
Proof. reflexivity. Qed.

Example count_truncated : RuneCountInString (of_bytes [0xE2; 0x82]) = 2.
Proof. reflexivity. Qed.

End Utf8.

(** Strings of ASCII characters: every byte is a rune. *)
Module Utf8Facts.

Definition is_ascii (s : string) : bool :=
  forallb (fun b => b <? Utf8.RuneSelf) (Utf8.bytes s).

Lemma count_ascii_bytes l :
  forallb (fun b => b <? Utf8.RuneSelf) l = true ->
  Utf8.count 0 l = Z.of_nat (List.length l).
Proof.
  induction l as [|b r IH]; [reflexivity|].
  cbn [forallb]. intros H. apply andb_prop in H as [Hb Hr].
  cbn [Utf8.count List.length]. unfold Utf8.rune_width. rewrite Hb.
  cbn [pred]. rewrite (IH Hr), Nat2Z.inj_succ. lia.
Qed.

Lemma RuneCountInString_ascii s :
  is_ascii s = true -> Utf8.RuneCountInString s = Z.of_nat (String.length s).
Proof.
  unfold is_ascii, Utf8.RuneCountInString. intros H.
  rewrite (count_ascii_bytes _ H). unfold Utf8.bytes. rewrite length_map.
  assert (E : List.length (list_ascii_of_string s) = String.length s).
  { clear H. induction s as [|a r IH]; simpl; [reflexivity | rewrite IH; reflexivity]. }
  rewrite E. reflexivity.
Qed.

End Utf8Facts.


(* ================================================================= *)
(** ** [glfw]: the pending error and its classification (error.go) *)

Module Glfw.

(** [type ErrorCode int] *)
Definition ErrorCode := Z.

Definition notInitialized : ErrorCode := 0x00010001.
Definition noCurrentContext : ErrorCode := 0x00010002.
Definition invalidEnum : ErrorCode := 0x00010003.
Definition invalidValue : ErrorCode := 0x00010004.
Definition outOfMemory : ErrorCode := 0x00010005.
Definition apiUnavailable : ErrorCode := 0x00010006.
Definition versionUnavailable : ErrorCode := 0x00010007.
Definition platformError : ErrorCode := 0x00010008.
Definition formatUnavailable : ErrorCode := 0x00010009.
Definition noWindowContext : ErrorCode := 0x0001000A.
Definition cursorUnavailable : ErrorCode := 0x0001000B.
Definition featureUnavailable : ErrorCode := 0x0001000C.
Definition featureUnimplemented : ErrorCode := 0x0001000D.
Definition platformUnavailable : ErrorCode := 0x0001000E.

Record Error := { Code : ErrorCode; Desc : string }.

(** A [*Error]: [None] is the nil pointer. *)
Definition ErrorPtr := option Error.

(** [lastError = make(chan *Error, 1)]: the values waiting in the channel,
    oldest first.  The channel is never closed. *)
Definition ErrorChan := list ErrorPtr.

(** What the routines write besides their result. *)
Inductive Output :=
| LogPrintln (err : Error)
| StderrPrintln (msg : string) (err : option Error).

(** How a call ends: it returns an [error] (nil or not) or it panics. *)
Inductive Result :=
| Return (err : option Error)
| Panics (err : Error).

(** [fetchError]: a [select] with a [default] branch, so it never waits. *)
Definition fetchError (ch : ErrorChan) : ErrorPtr * ErrorChan :=
  match ch with
  | err :: rest => (err, rest)
  | [] => (None, [])
  end.

(** The loop [for _, code := range codes { if err.Code == code { return err } }]:
    [true] when it returns from inside. *)
Fixpoint accepted (c : ErrorCode) (codes : list ErrorCode) : bool :=
  match codes with
  | [] => false
  | code :: rest => if c =? code then true else accepted c rest
  end.

Definition invalid_error_msg : string :=
  "go-gl/glfw: internal error: an invalid error was not accepted by the caller:".
Definition uncaught_error_msg : string :=
  "go-gl/glfw: internal error: an uncaught error has occurred:".
Definition report_msg : string :=
  "go-gl/glfw: Please report this in the Go package issue tracker.".

Definition acceptError (codes : list ErrorCode) (ch : ErrorChan)
  : Result * ErrorChan * list Output :=
  let '(err, ch') := fetchError ch in
  match err with
  | None => (Return None, ch', [])
  | Some e =>
      if accepted (Code e) codes then (Return (Some e), ch', [])
      else if Code e =? platformError then (Return None, ch', [LogPrintln e])
      else if (Code e =? notInitialized) || (Code e =? noCurrentContext)
              || (Code e =? invalidEnum) || (Code e =? invalidValue)
              || (Code e =? outOfMemory) || (Code e =? noWindowContext)
      then (Panics e, ch', [])
      else (Panics e, ch',
            [StderrPrintln invalid_error_msg (Some e);
             StderrPrintln report_msg None])
  end.

(** [panicError]: [acceptError()] with no accepted code. *)
Definition panicError (ch : ErrorChan) : Result * ErrorChan * list Output :=
  match acceptError [] ch with
  | (Return (Some e), ch', out) => (Panics e, ch', out)
  | r => r
  end.

Definition flushErrors (ch : ErrorChan) : ErrorChan * list Output :=
  match fetchError ch with
  | (Some e, ch') =>
      (ch', [StderrPrintln uncaught_error_msg (Some e);
             StderrPrintln report_msg None])
  | (None, ch') => (ch', [])
  end.

(** The codes the switch of [acceptError] turns into a silent panic. *)
Definition programmer_errors : list ErrorCode :=
  [notInitialized; noCurrentContext; invalidEnum; invalidValue; outOfMemory;
   noWindowContext].

Lemma accepted_In c codes : accepted c codes = true <-> In c codes.
Proof.
  induction codes as [|code rest IH]; simpl.
  - split; [discriminate | tauto].
  - destruct (Z.eqb_spec c code) as [->|Hne].
    + split; auto.
    + rewrite IH. split; [auto | intros [H|H]; congruence].
Qed.

Lemma accepted_not_In c codes : ~ In c codes -> accepted c codes = false.
Proof.
  intros H. destruct (accepted c codes) eqn:E; [|reflexivity].
  apply accepted_In in E. contradiction.
Qed.

(** C10.  [acceptError codes] always ends, and how it ends is decided by the
    error that [fetchError] yields: with none it returns nil; with one whose
    code is among [codes] it returns that error; with one whose code is not,
    it logs the error and returns nil when the code is [platformError], it
    panics with the error, printing nothing, when the code is one of
    [notInitialized], [noCurrentContext], [invalidEnum], [invalidValue],
    [outOfMemory], [noWindowContext], and it panics with the error after two
    lines on standard error for every other code.  [fetchError] yields nil on
    an empty channel, and otherwise takes the oldest error out of it. *)
Theorem acceptError_classifies codes ch :
  fetchError [] = (None, []) /\
  (forall p rest, fetchError (p :: rest) = (p, rest)) /\
  (fst (fetchError ch) = None ->
   acceptError codes ch = (Return None, snd (fetchError ch), [])) /\
  (forall err,
      fst (fetchError ch) = Some err ->
      exists res out,
        acceptError codes ch = (res, snd (fetchError ch), out) /\
        (In (Code err) codes -> res = Return (Some err) /\ out = []) /\
        (~ In (Code err) codes -> Code err = platformError ->
         res = Return None /\ out = [LogPrintln err]) /\
        (~ In (Code err) codes -> In (Code err) programmer_errors ->
         res = Panics err /\ out = []) /\
        (~ In (Code err) codes -> Code err <> platformError ->
         ~ In (Code err) programmer_errors ->
         res = Panics err /\
         out = [StderrPrintln invalid_error_msg (Some err);
                StderrPrintln report_msg None])).
Proof.
  split; [reflexivity|]. split; [reflexivity|].
  unfold acceptError. destruct (fetchError ch) as [p rest]. simpl fst. simpl snd.
  split.
  - intros ->. reflexivity.
  - intros err ->.
    destruct (accepted (Code err) codes) eqn:Hacc.
    + apply accepted_In in Hacc.
      eexists _, _. split; [reflexivity|].
      repeat split; try reflexivity; intros; contradiction.
    + assert (Hnin : ~ In (Code err) codes).
      { intros H. apply accepted_In in H. congruence. }
      destruct (Z.eqb_spec (Code err) platformError) as [Hp|Hp].
      * eexists _, _. split; [reflexivity|].
        split; [intros; contradiction|]. split; [auto|]. split.
        -- intros _ Hin. rewrite Hp in Hin. exfalso.
           unfold programmer_errors in Hin. simpl in Hin.
           repeat (destruct Hin as [Hin|Hin]; [discriminate Hin|]). exact Hin.
        -- intros _ Hne. contradiction.
      * destruct ((Code err =? notInitialized) || (Code err =? noCurrentContext)
                  || (Code err =? invalidEnum) || (Code err =? invalidValue)
                  || (Code err =? outOfMemory) || (Code err =? noWindowContext))
          eqn:Hprog.
        -- eexists _, _. split; [reflexivity|].
           split; [intros; contradiction|]. split; [intros; contradiction|].
           split; [auto|]. intros _ _ Hn. exfalso. apply Hn.
           unfold programmer_errors. simpl.
           repeat rewrite orb_true_iff in Hprog. rewrite !Z.eqb_eq in Hprog.
           intuition auto.
        -- eexists _, _. split; [reflexivity|].
           split; [intros; contradiction|]. split; [intros; contradiction|].
           split; [|auto]. intros _ Hin. exfalso.
           repeat rewrite orb_false_iff in Hprog. rewrite !Z.eqb_neq in Hprog.
           unfold programmer_errors in Hin. simpl in Hin. intuition auto.
Qed.

(** *** Error texts *)

(** [fmt.Sprintf("%d", z)]: the decimal digits of [z], with a minus sign
    when it is negative. *)
Definition format_d (z : Z) : string := NilZero.string_of_int (Z.to_int z).

(** [ErrorCode.String] *)
Definition ErrorCode_String (e : ErrorCode) : string :=
  if e =? notInitialized then "NotInitialized"%string
  else if e =? noCurrentContext then "NoCurrentContext"%string
  else if e =? invalidEnum then "InvalidEnum"%string
  else if e =? invalidValue then "InvalidValue"%string
  else if e =? outOfMemory then "OutOfMemory"%string
  else if e =? apiUnavailable then "APIUnavailable"%string
  else if e =? versionUnavailable then "VersionUnavailable"%string
  else if e =? platformError then "PlatformError"%string
  else if e =? formatUnavailable then "FormatUnavailable"%string
  else if e =? noWindowContext then "NoWindowContext"%string
  else if e =? cursorUnavailable then "CursorUnavailable"%string
  else if e =? featureUnavailable then "FeatureUnavailable"%string
  else if e =? featureUnimplemented then "FeatureUnimplemented"%string
  else if e =? platformUnavailable then "PlatformUnavailable"%string
  else ("ErrorCode(" ++ format_d e ++ ")")%string.

(** [Error.Error]: [fmt.Sprintf("%s: %s", e.Code.String(), e.Desc)] *)
Definition Error_Error (e : Error) : string :=
  (ErrorCode_String (Code e) ++ ": " ++ Desc e)%string.

(** The named codes and their names, in the order of the switch. *)
Definition names : list (ErrorCode * string) :=
  [(notInitialized, "NotInitialized"%string); (noCurrentContext, "NoCurrentContext"%string);
   (invalidEnum, "InvalidEnum"%string); (invalidValue, "InvalidValue"%string);
   (outOfMemory, "OutOfMemory"%string); (apiUnavailable, "APIUnavailable"%string);
   (versionUnavailable, "VersionUnavailable"%string); (platformError, "PlatformError"%string);
   (formatUnavailable, "FormatUnavailable"%string); (noWindowContext, "NoWindowContext"%string);
   (cursorUnavailable, "CursorUnavailable"%string);
   (featureUnavailable, "FeatureUnavailable"%string);
   (featureUnimplemented, "FeatureUnimplemented"%string);
   (platformUnavailable, "PlatformUnavailable"%string)].

(** Whether the character [a] occurs in [s]. *)
Fixpoint occurs (a : ascii) (s : string) : bool :=
  match s with
  | EmptyString => false
  | String b r => Ascii.eqb a b || occurs a r
  end.

Definition digit_or_minus (a : ascii) : bool :=
  let n := nat_of_ascii a in
  ((48 <=? n) && (n <=? 57))%nat || (n =? 45)%nat.

Fixpoint all_chars (p : ascii -> bool) (s : string) : bool :=
  match s with
  | EmptyString => true
  | String b r => p b && all_chars p r
  end.

Lemma all_chars_uint d : all_chars digit_or_minus (NilEmpty.string_of_uint d) = true.
Proof. induction d; simpl; auto. Qed.

Lemma all_chars_format_d z : all_chars digit_or_minus (format_d z) = true.
Proof.
  unfold format_d. destruct (Z.to_int z) as [u|u]; simpl.
  - destruct u; simpl; auto using all_chars_uint.
  - destruct u; simpl; auto using all_chars_uint.
Qed.

Lemma all_chars_occurs p a s :
  all_chars p s = true -> p a = false -> occurs a s = false.
Proof.
  induction s as [|b r IH]; simpl; [reflexivity|].
  intros H Ha. apply andb_prop in H as [Hb Hr].
  destruct (Ascii.eqb_spec a b) as [->|_]; [congruence|]. simpl. auto.
Qed.

Lemma occurs_app a s1 s2 :
  occurs a (s1 ++ s2)%string = occurs a s1 || occurs a s2.
Proof.
  induction s1 as [|b r IH]; simpl; [reflexivity|].
  rewrite IH, orb_assoc. reflexivity.
Qed.

(** Strings that lack [a] and are followed by [a]: the first [a] marks where
    they end. *)
Lemma app_sep_inj a s1 s2 r1 r2 :
  occurs a s1 = false -> occurs a s2 = false ->
  (s1 ++ String a r1 = s2 ++ String a r2)%string -> s1 = s2 /\ r1 = r2.
Proof.
  revert s2. induction s1 as [|b s1 IH]; intros [|c s2]; simpl; intros H1 H2 E.
  - injection E as <-. auto.
  - injection E as <- _. rewrite Ascii.eqb_refl in H2. discriminate.
  - injection E as -> _. rewrite Ascii.eqb_refl in H1. discriminate.
  - injection E as <- E. apply orb_false_elim in H1 as [_ H1].
    apply orb_false_elim in H2 as [_ H2].
    destruct (IH s2 H1 H2 E) as [-> ->]. auto.
Qed.

Lemma format_d_inj a b : format_d a = format_d b -> a = b.
Proof.
  unfold format_d. intros H. apply DecimalZ.to_int_inj.
  assert (N : forall z, Z.to_int z <> Decimal.Pos Decimal.Nil /\
                        Z.to_int z <> Decimal.Neg Decimal.Nil).
  { intros z. destruct z as [|p|p]; simpl; split; try discriminate;
      intros E; injection E as E;
      apply (DecimalPos.Unsigned.to_uint_nonnil p E). }
  pose proof (NilZero.isi (Z.to_int a) (proj1 (N a)) (proj2 (N a))) as Ha.
  pose proof (NilZero.isi (Z.to_int b) (proj1 (N b)) (proj2 (N b))) as Hb.
  rewrite H in Ha. congruence.
Qed.

(** [ErrorCode.String], by cases: a name of the table, or the default. *)
Lemma ErrorCode_String_cases e :
  In (e, ErrorCode_String e) names \/
  (ErrorCode_String e = ("ErrorCode(" ++ format_d e ++ ")")%string /\
   ~ In e (map fst names)).
Proof.
  unfold ErrorCode_String.
  repeat match goal with
         | |- context [if e =? ?c then _ else _] =>
             destruct (Z.eqb_spec e c) as [->|?];
             [left; unfold names; simpl; tauto|]
         end.
  right. split; [reflexivity|]. unfold names. simpl. intuition auto.
Qed.

Lemma names_NoDup : NoDup (map snd names).
Proof.
  unfold names. simpl.
  repeat (constructor; [simpl; intuition discriminate|]). constructor.
Qed.

Lemma In_names_inj a b s : In (a, s) names -> In (b, s) names -> a = b.
Proof.
  pose proof names_NoDup as N. revert N.
  induction names as [|[c n] l IH]; simpl; [tauto|].
  intros N Ha Hb. apply NoDup_cons_iff in N as [Nn Nl].
  destruct Ha as [Ha|Ha], Hb as [Hb|Hb].
  - congruence.
  - injection Ha as -> ->. exfalso. apply Nn.
    change s with (snd (b, s)). apply in_map, Hb.
  - injection Hb as -> ->. exfalso. apply Nn.
    change s with (snd (a, s)). apply in_map, Ha.
  - auto.
Qed.

Lemma In_names_no_default e z :
  ~ In (e, ("ErrorCode(" ++ format_d z ++ ")")%string) names.
Proof. unfold names. simpl. intuition discriminate. Qed.

Lemma In_names_no_colon e s : In (e, s) names -> occurs ":" s = false.
Proof.
  unfold names. simpl.
  intros H.
  repeat (destruct H as [H|H]; [injection H as _ <-; reflexivity|]).
  contradiction.
Qed.

Lemma ErrorCode_String_inj a b : ErrorCode_String a = ErrorCode_String b -> a = b.
Proof.
  intros E.
  destruct (ErrorCode_String_cases a) as [Ha|[Ha _]],
           (ErrorCode_String_cases b) as [Hb|[Hb _]].
  - rewrite E in Ha. exact (In_names_inj a b _ Ha Hb).
  - rewrite E, Hb in Ha. destruct (In_names_no_default _ _ Ha).
  - rewrite <- E, Ha in Hb. destruct (In_names_no_default _ _ Hb).
  - rewrite Ha, Hb in E. simpl in E. injection E as E.
    apply format_d_inj.
    apply (app_sep_inj ")" (format_d a) (format_d b) "" "");
      [exact (all_chars_occurs digit_or_minus ")" _ (all_chars_format_d a) eq_refl)
      |exact (all_chars_occurs digit_or_minus ")" _ (all_chars_format_d b) eq_refl)
      |exact E].
Qed.

Lemma ErrorCode_String_no_colon e : occurs ":" (ErrorCode_String e) = false.
Proof.
  destruct (ErrorCode_String_cases e) as [H|[H _]].
  - exact (In_names_no_colon _ _ H).
  - rewrite H. simpl. rewrite occurs_app. simpl.
    rewrite (all_chars_occurs digit_or_minus ":" (format_d e));
      [reflexivity | apply all_chars_format_d | reflexivity].
Qed.

(** X1.  [ErrorCode.String] tells codes apart: two codes have the same text
    only if they are the same code, whether they are among the fourteen
    named ones or printed as [ErrorCode(n)]; and a code has one of the
    fourteen names exactly when it is the code of that name. *)
Theorem ErrorCode_String_identifies_code a b :
  (ErrorCode_String a = ErrorCode_String b <-> a = b) /\
  (forall n, In n (map snd names) ->
             (ErrorCode_String a = n <-> In (a, n) names)).
Proof.
  split.
  - split; [apply ErrorCode_String_inj | intros ->; reflexivity].
  - intros n Hn. split.
    + intros E. destruct (ErrorCode_String_cases a) as [H|[H _]].
      * rewrite E in H. exact H.
      * exfalso. apply in_map_iff in Hn as ([c m] & Hm & Hin). simpl in Hm.
        subst m. rewrite <- E, H in Hin.
        exact (In_names_no_default _ _ Hin).
    + intros Hin. destruct (ErrorCode_String_cases a) as [H|[_ H]].
      * assert (Hd : NoDup (map fst names)).
        { unfold names. simpl.
          repeat (constructor; [simpl; intuition discriminate|]). constructor. }
        clear Hn. revert Hd H Hin. generalize (ErrorCode_String a).
        induction names as [|[c m] l IH]; simpl; [tauto|].
        intros s Hd H1 H2. apply NoDup_cons_iff in Hd as [Hc Hl].
        destruct H1 as [H1|H1], H2 as [H2|H2].
        -- congruence.
        -- injection H1 as -> ->. exfalso. apply Hc.
           change a with (fst (a, n)). apply in_map, H2.
        -- injection H2 as -> ->. exfalso. apply Hc.
           change a with (fst (a, s)). apply in_map, H1.
        -- eauto.
      * exfalso. apply H. change a with (fst (a, n)). apply in_map, Hin.
Qed.

(** X2.  The text of an error identifies the error: [Error.Error] yields the
    same string for two errors only if they have the same code and the same
    description.  (No code's text holds a colon, so the first colon of the
    message ends the code, whatever the description holds.) *)
Theorem Error_Error_identifies_error e1 e2 :
  Error_Error e1 = Error_Error e2 <-> e1 = e2.
Proof.
  split; [|intros ->; reflexivity].
  unfold Error_Error. intros E.
  destruct (app_sep_inj ":" _ _ _ _ (ErrorCode_String_no_colon (Code e1))
              (ErrorCode_String_no_colon (Code e2)) E) as [Hc Hd].
  apply ErrorCode_String_inj in Hc. injection Hd as Hd.
  destruct e1, e2. simpl in *. congruence.
Qed.

(** X3.  [acceptError] takes its codes as a set: two lists with the same
    members, in whatever order and however often repeated, give the same
    result, the same channel and the same output. *)
Theorem acceptError_codes_as_set codes1 codes2 ch :
  (forall c, In c codes1 <-> In c codes2) ->
  acceptError codes1 ch = acceptError codes2 ch.
Proof.
  intros H. unfold acceptError. destruct (fetchError ch) as [[e|] rest];
    [|reflexivity].
  assert (E : accepted (Code e) codes1 = accepted (Code e) codes2).
  { destruct (accepted (Code e) codes1) eqn:E1, (accepted (Code e) codes2) eqn:E2;
      try reflexivity.
    - apply accepted_In, H, accepted_In in E1. congruence.
    - apply accepted_In, H, accepted_In in E2. congruence. }
  rewrite E. reflexivity.
Qed.

(** X4.  [panicError] never ends with an error to handle: it returns (nil)
    when no error is pending and when the pending error is a platform error,
    which it logs, and it panics with the pending error in every other
    case; either way the error has left the channel. *)
Theorem panicError_returns_or_panics ch :
  match fetchError ch with
  | (None, rest) => panicError ch = (Return None, rest, [])
  | (Some e, rest) =>
      if Code e =? platformError
      then panicError ch = (Return None, rest, [LogPrintln e])
      else exists out, panicError ch = (Panics e, rest, out)
  end.
Proof.
  unfold panicError, acceptError.
  destruct (fetchError ch) as [[e|] rest]; [|reflexivity].
  simpl accepted. cbv iota.
  destruct (Code e =? platformError); [reflexivity|].
  destruct (_ || _); eexists; reflexivity.
Qed.

(** X5.  The channel [lastError] has room for one error.  While it holds at
    most one, every routine that fetches leaves it empty, so that an
    [acceptError] that follows returns nil, whatever codes it is given:
    errors do not pile up behind [acceptError], [panicError] or
    [flushErrors]. *)
Theorem lastError_is_emptied ch codes codes' :
  (List.length ch <= 1)%nat ->
  snd (fetchError ch) = [] /\
  snd (fst (acceptError codes ch)) = [] /\
  snd (fst (panicError ch)) = [] /\
  fst (flushErrors ch) = [] /\
  acceptError codes' (snd (fst (acceptError codes ch))) = (Return None, [], []) /\
  acceptError codes' (fst (flushErrors ch)) = (Return None, [], []).
Proof.
  intros H.
  assert (F : snd (fetchError ch) = []).
  { destruct ch as [|p [|q r]]; simpl in *; [reflexivity | reflexivity | lia]. }
  assert (A : forall cs, snd (fst (acceptError cs ch)) = []).
  { intros cs. unfold acceptError. destruct (fetchError ch) as [[e|] rest];
      simpl in F; subst rest; [|reflexivity].
    destruct (accepted _ _); [reflexivity|].
    destruct (_ =? _); [reflexivity|]. destruct (_ || _); reflexivity. }
  assert (P : snd (fst (panicError ch)) = []).
  { unfold panicError. specialize (A []).
    destruct (acceptError [] ch) as [[[[e|]|e] rest] out]; exact A. }
  assert (L : fst (flushErrors ch) = []).
  { unfold flushErrors. destruct (fetchError ch) as [[e|] rest]; exact F. }
  rewrite A, L. repeat split; auto.
Qed.

End Glfw.


(* ================================================================= *)
(** ** [app.callbacks]: the dispatcher, semantic accessors and IME operations *)

Module App.

Section Callbacks.

(** *** Collaborator types

    Types declared by other packages and used here only through the
    operations below: [mado.Driver], the platform driver; the events other
    than the four this file constructs or inspects; [unit.Metric];
    [system.Action]; [input.SemanticID] and [input.SemanticNode]; the type of
    [Decorations.Height]; and the fields of [mado.EditorState], [mado.Config]
    and [Window] that this file never names. *)
Context {Driver Payload Metric Action SemanticID SemanticNode Dp : Type}.
Context {ImeRest ConfigRest WindowRest : Type}.

(** *** Data *)

(** [key.Range] *)
Record Range := { Start : Z; End : Z }.

(** [sn == r] on two [key.Range] values. *)
Definition Range_eqb (a b : Range) : bool :=
  (Start a =? Start b) && (End a =? End b).

(** [event.Event], with the dynamic types this file distinguishes. *)
Inductive EventT :=
| WakeupEvent
| EditEvent (r : Range) (text : string)
| SnippetEvent (r : Range)
| SelectionEvent (r : Range)
| OtherEvent (p : Payload).

(** [_, ok := e.(mado.WakeupEvent)] *)
Definition is_WakeupEvent (e : EventT) : bool :=
  match e with WakeupEvent => true | _ => false end.

(** [mado.EditorState]: [Selection.Range], [Compose], [Snippet.Range]. *)
Record EditorStateT := {
  Selection_Range : Range;
  Compose : Range;
  Snippet_Range : Range;
  ime_rest : ImeRest
}.

(** [mado.Config] *)
Record Config := { Decorated : bool; config_rest : ConfigRest }.

(** [mado.Option], a [func(unit.Metric, *mado.Config)]: the configuration it
    leaves behind as a function of the one it is given. *)
Definition OptionT := Metric -> Config -> Config.

(** A [func()] handed to the window: nil, or the method value [d.Wakeup]. *)
Inductive WakeupFunc :=
| NilFunc
| WakeupOf (drv : Driver).

(** A channel: the values sent and not yet received, oldest first, and
    whether it has been closed. *)
Record chan (A : Type) := { buf : list A; closed : bool }.
Arguments buf {A} _.
Arguments closed {A} _.

(** A receive inside a [select] that has a [default] branch. *)
Definition try_recv {A : Type} (zero : A) (ch : chan A) : option (A * chan A) :=
  match buf ch with
  | x :: rest => Some (x, {| buf := rest; closed := closed ch |})
  | [] => if closed ch then Some (zero, ch) else None
  end.

Record DecorationsT := { Enabled : bool; Height : Dp }.

Record SemanticT := { Root : SemanticID; PrevTree : list SemanticNode }.

(** [*Window], as far as [callbacks] reaches into it.  [Options], [Actions]
    and [Destroy] are the channels it receives from; [WakeupFuncs] is the
    function the window holds at the far end of the channel of that name
    (see [hand_wakeup]). *)
Record Window := {
  ImeState : EditorStateT;
  Decorations : DecorationsT;
  Metric_ : Metric;
  Options : chan (list OptionT);
  Actions : chan Action;
  Destroy : chan unit;
  WakeupFuncs : WakeupFunc;
  Semantic : SemanticT;
  win_rest : WindowRest
}.

(** [callbacks]; the window pointer [w] is followed. *)
Record callbacks := {
  w : Window;
  d : option Driver;
  busy : bool;
  waitEvents : list EventT
}.

Definition set_w (x : Window) (c : callbacks) : callbacks :=
  {| w := x; d := d c; busy := busy c; waitEvents := waitEvents c |}.
Definition set_d (x : option Driver) (c : callbacks) : callbacks :=
  {| w := w c; d := x; busy := busy c; waitEvents := waitEvents c |}.
Definition set_busy (x : bool) (c : callbacks) : callbacks :=
  {| w := w c; d := d c; busy := x; waitEvents := waitEvents c |}.
Definition set_waitEvents (x : list EventT) (c : callbacks) : callbacks :=
  {| w := w c; d := d c; busy := busy c; waitEvents := x |}.

Definition set_ImeState (x : EditorStateT) (v : Window) : Window :=
  {| ImeState := x; Decorations := Decorations v; Metric_ := Metric_ v;
     Options := Options v; Actions := Actions v; Destroy := Destroy v;
     WakeupFuncs := WakeupFuncs v; Semantic := Semantic v;
     win_rest := win_rest v |}.
Definition set_Decorations (x : DecorationsT) (v : Window) : Window :=
  {| ImeState := ImeState v; Decorations := x; Metric_ := Metric_ v;
     Options := Options v; Actions := Actions v; Destroy := Destroy v;
     WakeupFuncs := WakeupFuncs v; Semantic := Semantic v;
     win_rest := win_rest v |}.
Definition set_Options (x : chan (list OptionT)) (v : Window) : Window :=
  {| ImeState := ImeState v; Decorations := Decorations v; Metric_ := Metric_ v;
     Options := x; Actions := Actions v; Destroy := Destroy v;
     WakeupFuncs := WakeupFuncs v; Semantic := Semantic v;
     win_rest := win_rest v |}.
Definition set_Actions (x : chan Action) (v : Window) : Window :=
  {| ImeState := ImeState v; Decorations := Decorations v; Metric_ := Metric_ v;
     Options := Options v; Actions := x; Destroy := Destroy v;
     WakeupFuncs := WakeupFuncs v; Semantic := Semantic v;
     win_rest := win_rest v |}.
Definition set_Destroy (x : chan unit) (v : Window) : Window :=
  {| ImeState := ImeState v; Decorations := Decorations v; Metric_ := Metric_ v;
     Options := Options v; Actions := Actions v; Destroy := x;
     WakeupFuncs := WakeupFuncs v; Semantic := Semantic v;
     win_rest := win_rest v |}.
Definition set_WakeupFuncs (x : WakeupFunc) (v : Window) : Window :=
  {| ImeState := ImeState v; Decorations := Decorations v; Metric_ := Metric_ v;
     Options := Options v; Actions := Actions v; Destroy := Destroy v;
     WakeupFuncs := x; Semantic := Semantic v; win_rest := win_rest v |}.

Definition set_Selection_Range (r : Range) (s : EditorStateT) : EditorStateT :=
  {| Selection_Range := r; Compose := Compose s;
     Snippet_Range := Snippet_Range s; ime_rest := ime_rest s |}.
Definition set_Compose (r : Range) (s : EditorStateT) : EditorStateT :=
  {| Selection_Range := Selection_Range s; Compose := r;
     Snippet_Range := Snippet_Range s; ime_rest := ime_rest s |}.

(** *** Observations

    What a run does that its final state does not record: the calls it makes
    to the window and to the driver, and the life of its drain loops.
    [ObsSubmit nested e] marks a call of [Event e]; [nested] is the value of
    the busy flag when the call was made. *)
Inductive Obs :=
| ObsSubmit (nested : bool) (e : EventT)
| ObsDrainBegin
| ObsDrainEnd
| ObsProcess (e : EventT)
| ObsUpdateState
| ObsConfigure (drv : Driver) (opts : list OptionT)
| ObsPerform (drv : Driver) (acts : Action).

Definition Trace := list Obs.

(** *** The monad of a method of [callbacks]

    A method runs on the receiver's state and ends by returning, by a panic,
    or (in this model only) by running out of fuel; in each case it leaves
    the state it reached and the observations it made. *)
Inductive Outcome (A : Type) :=
| Done (a : A)
| Panic (msg : string)
| Timeout.
Arguments Done {A} a.
Arguments Panic {A} msg.
Arguments Timeout {A}.

Definition M (A : Type) := callbacks -> Outcome A * callbacks * Trace.

Definition ret {A : Type} (a : A) : M A := fun c => (Done a, c, []).

Definition bind {A B : Type} (m : M A) (k : A -> M B) : M B :=
  fun c =>
    match m c with
    | (Done a, c1, t1) => let '(o, c2, t2) := k a c1 in (o, c2, t1 ++ t2)
    | (Panic msg, c1, t1) => (Panic msg, c1, t1)
    | (Timeout, c1, t1) => (Timeout, c1, t1)
    end.

Definition tell (o : Obs) : M unit := fun c => (Done tt, c, [o]).
Definition modify (f : callbacks -> callbacks) : M unit := fun c => (Done tt, f c, []).
Definition panic {A : Type} (msg : string) : M A := fun c => (Panic msg, c, []).
Definition timeout {A : Type} : M A := fun c => (Timeout, c, []).

Notation "x <- m ;; k" := (bind m (fun x => k))
  (at level 61, m at next level, right associativity).
Notation "m ;; k" := (bind m (fun _ => k))
  (at level 61, right associativity).

(** *** The window's routines

    [ProcessEvent] is code of the window, and it may call back into
    [callbacks.Event] while it runs.  It is a program over the window with
    calls to [Event]; which function answers these calls is decided where the
    program is run. *)
Inductive Proc (A : Type) :=
| Ret (a : A)
| Call (e : EventT) (k : bool -> Proc A)
| Get (k : Window -> Proc A)
| Modify (f : Window -> Window) (k : Proc A).
Arguments Ret {A} a.
Arguments Call {A} e k.
Arguments Get {A} k.
Arguments Modify {A} f k.

Fixpoint run {A : Type} (ev : EventT -> M bool) (p : Proc A) : M A :=
  match p with
  | Ret a => ret a
  | Call e k => b <- ev e ;; run ev (k b)
  | Get k => fun c => run ev (k (w c)) c
  | Modify f k => modify (fun c => set_w (f (w c)) c) ;; run ev k
  end.

(** What the window and the other packages provide. *)
Class Collaborators := {
  (** [w.ProcessEvent(d, e)] *)
  ProcessEvent : option Driver -> EventT -> Proc bool;
  (** [w.UpdateState(d)]: it reports to the driver and delivers no event. *)
  UpdateState : option Driver -> Window -> Window;
  (** [w.ImeState.Replace(r, text)] *)
  Replace : EditorStateT -> Range -> string -> EditorStateT;
  (** [mado.DecoHeightOpt(h)] *)
  DecoHeightOpt : Dp -> OptionT;
  (** [w.UpdateSemantics()] *)
  UpdateSemantics : Window -> Window;
  (** [w.CollectSemanticDiffs(&diffs, n)]: the window and [diffs] afterwards. *)
  CollectSemanticDiffs :
    Window -> list SemanticID -> SemanticNode -> Window * list SemanticID;
  (** The constant [0] of the type of [Decorations.Height]. *)
  Dp_zero : Dp;
  (** What a receive from the closed [Actions] channel yields. *)
  Action_zero : Action;
  (** The zero value of the fields of [mado.Config] other than [Decorated]. *)
  ConfigRest_zero : ConfigRest
}.

Context {env : Collaborators}.

(** *** [SetDriver] *)

Definition wakeup_of (x : option Driver) : WakeupFunc :=
  match x with
  | Some drv => WakeupOf drv
  | None => NilFunc
  end.

(** Modelled from the spec: the window's end of the channel [WakeupFuncs].
    The channel is made, and read, by window code that is not in this file.
    By the specification the handoff is a single slot, overwriting and not
    queued: once a value is sent, it is the one the window holds, in place of
    the one before.  The wait of the send for the window is not modelled. *)
Definition hand_wakeup (f : WakeupFunc) (v : Window) : Window :=
  set_WakeupFuncs f v.

(** Modelled from the spec: what follows when the window invokes the function
    it holds.  [Driver.Wakeup] is not in this file; by the specification it
    schedules a delivery of [WakeupEvent] by that driver, and the function of
    a cleared driver does nothing. *)
Definition invoke_wakeup (f : WakeupFunc) : list (Driver * EventT) :=
  match f with
  | WakeupOf drv => [(drv, WakeupEvent)]
  | NilFunc => []
  end.

Definition SetDriver (x : option Driver) : M unit :=
  modify (set_d x) ;;
  modify (fun c => set_w (hand_wakeup (wakeup_of x) (w c)) c).

(** *** [Event] *)

(** The loop [for len(c.waitEvents) > 0 { ... }]; [handled] is the variable
    of that name, and [ev] answers the calls of [Event] that the window makes
    while it processes an event. *)
Fixpoint drain (ev : EventT -> M bool) (fuel : nat) (handled : bool) : M bool :=
  fun c =>
    match waitEvents c with
    | [] => ret handled c
    | e :: rest =>
        match fuel with
        | O => timeout c
        | S n =>
            (modify (set_waitEvents rest) ;;
             tell (ObsProcess e) ;;
             h <- (fun c1 => run ev (ProcessEvent (d c1) e) c1) ;;
             drain ev n h) c
        end
    end.

(** The first [select] after the loop, on [c.w.Options]. *)
Definition configure : M unit :=
  fun c =>
    match try_recv [] (Options (w c)) with
    | None => ret tt c
    | Some (opts, ch) =>
        let w1 := set_Options ch (w c) in
        let cnf :=
          fold_left (fun cnf opt => opt (Metric_ w1) cnf) opts
            {| Decorated := Enabled (Decorations w1);
               config_rest := ConfigRest_zero |} in
        let w2 :=
          set_Decorations {| Enabled := Decorated cnf;
                             Height := Height (Decorations w1) |} w1 in
        let decoHeight :=
          if negb (Enabled (Decorations w2)) then Dp_zero
          else Height (Decorations w2) in
        let opts := opts ++ [DecoHeightOpt decoHeight] in
        match d c with
        | None => panic "nil pointer dereference" (set_w w2 c)
        | Some drv => (modify (set_w w2) ;; tell (ObsConfigure drv opts)) c
        end
    end.

(** The second [select], on [c.w.Actions]. *)
Definition perform : M unit :=
  fun c =>
    match try_recv Action_zero (Actions (w c)) with
    | None => ret tt c
    | Some (acts, ch) =>
        match d c with
        | None => panic "nil pointer dereference" (set_w (set_Actions ch (w c)) c)
        | Some drv =>
            (modify (set_w (set_Actions ch (w c))) ;; tell (ObsPerform drv acts)) c
        end
    end.

(** What [Event] does after the loop, with [e] the event it was called with. *)
Definition reconcile (e : EventT) (handled : bool) : M bool :=
  fun c =>
    match try_recv tt (Destroy (w c)) with
    | Some (_, ch) => (modify (set_w (set_Destroy ch (w c))) ;; ret handled) c
    | None =>
        (modify (fun c => set_w (UpdateState (d c) (w c)) c) ;;
         tell ObsUpdateState ;;
         if is_WakeupEvent e then configure ;; perform ;; ret handled
         else ret handled) c
    end.

Definition no_driver_msg : string := "event while no driver active".

(** [Event].  Fuel is spent where a loop is entered: [Event (S n)] gives its
    loop [n] turns, and a call of [Event] made from inside the loop is
    answered by [Event n]. *)
Fixpoint Event (fuel : nat) (e : EventT) : M bool :=
  fun c =>
    match d c with
    | None => panic no_driver_msg c
    | Some _ =>
        (modify (fun c => set_waitEvents (waitEvents c ++ [e]) c) ;;
         tell (ObsSubmit (busy c) e) ;;
         fun c1 =>
           if busy c1 then ret true c1
           else
             match fuel with
             | O => timeout c1
             | S n =>
                 (modify (set_busy true) ;;
                  tell ObsDrainBegin ;;
                  handled <- drain (Event n) n false ;;
                  modify (set_busy false) ;;
                  tell ObsDrainEnd ;;
                  reconcile e handled) c1
             end) c
    end.

(** *** Semantic tree *)

Definition AppendSemanticDiffs (diffs : list SemanticID) (c : callbacks)
  : list SemanticID * callbacks :=
  let w1 := UpdateSemantics (w c) in
  match PrevTree (Semantic w1) with
  | [] => (diffs, set_w w1 c)
  | n :: _ =>
      let '(w2, diffs') := CollectSemanticDiffs w1 diffs n in
      (diffs', set_w w2 c)
  end.

Definition SemanticRoot (c : callbacks) : SemanticID * callbacks :=
  let w1 := UpdateSemantics (w c) in (Root (Semantic w1), set_w w1 c).

(** *** IME operations *)

Definition EditorState (c : callbacks) : EditorStateT := ImeState (w c).

Definition SetComposingRegion (r : Range) : M unit :=
  modify (fun c => set_w (set_ImeState (set_Compose r (ImeState (w c))) (w c)) c).

Definition EditorReplace (fuel : nat) (r : Range) (text : string) : M unit :=
  modify (fun c => set_w (set_ImeState (Replace (ImeState (w c)) r text) (w c)) c) ;;
  Event fuel (EditEvent r text) ;;
  (fun c => Event fuel (SnippetEvent (Snippet_Range (ImeState (w c)))) c) ;;
  ret tt.

Definition SetEditorSelection (fuel : nat) (r : Range) : M unit :=
  modify (fun c =>
            set_w (set_ImeState (set_Selection_Range r (ImeState (w c))) (w c)) c) ;;
  Event fuel (SelectionEvent r) ;;
  ret tt.

Definition SetEditorSnippet (fuel : nat) (r : Range) : M unit :=
  fun c =>
    if Range_eqb (Snippet_Range (EditorState c)) r then ret tt c
    else (Event fuel (SnippetEvent r) ;; ret tt) c.

Definition EditorInsert (fuel : nat) (text : string) : M unit :=
  fun c =>
    let sel := Selection_Range (ImeState (w c)) in
    (EditorReplace fuel sel text ;;
     let start := if End sel <? Start sel then End sel else Start sel in
     let pos := Int.add start (Utf8.RuneCountInString text) in
     SetEditorSelection fuel {| Start := pos; End := pos |}) c.

(** *** Reading a trace *)

(** The events handed to [Event], in the order of the calls. *)
Fixpoint submitted (t : Trace) : list EventT :=
  match t with
  | [] => []
  | ObsSubmit _ e :: r => e :: submitted r
  | _ :: r => submitted r
  end.

(** Those handed to [Event] while the busy flag had the value [b]. *)
Fixpoint emitted (b : bool) (t : Trace) : list EventT :=
  match t with
  | [] => []
  | ObsSubmit nested e :: r =>
      if Bool.eqb nested b then e :: emitted b r else emitted b r
  | _ :: r => emitted b r
  end.

(** The events handed to [ProcessEvent], in the order of the calls. *)
Fixpoint processed (t : Trace) : list EventT :=
  match t with
  | [] => []
  | ObsProcess e :: r => e :: processed r
  | _ :: r => processed r
  end.

(** The largest number of drain loops that are active at one time in the
    course of [t], when [cur] of them are active at its start. *)
Fixpoint max_active (cur : nat) (t : Trace) : nat :=
  match t with
  | [] => cur
  | ObsDrainBegin :: r => Nat.max cur (max_active (S cur) r)
  | ObsDrainEnd :: r => Nat.max cur (max_active (pred cur) r)
  | _ :: r => max_active cur r
  end.

(** The drain loops that [t] enters. *)
Fixpoint drains_begun (t : Trace) : nat :=
  match t with
  | [] => O
  | ObsDrainBegin :: r => S (drains_begun r)
  | _ :: r => drains_begun r
  end.

(** What happens inside a drain loop: events are processed, and calls of
    [Event] made meanwhile are nested. *)
Definition inner_obs (o : Obs) : bool :=
  match o with
  | ObsSubmit true _ => true
  | ObsProcess _ => true
  | _ => false
  end.

Definition inner (t : Trace) : bool := forallb inner_obs t.

(** What follows a drain loop: the window's update and the driver calls. *)
Definition outer_obs (o : Obs) : bool :=
  match o with
  | ObsUpdateState => true
  | ObsConfigure _ _ => true
  | ObsPerform _ _ => true
  | _ => false
  end.

Definition outer (t : Trace) : bool := forallb outer_obs t.

(** *** Properties of the window's code *)

(** The program never assigns to the editor state. *)
Inductive ime_frame {A : Type} : Proc A -> Prop :=
| frame_Ret a : ime_frame (Ret a)
| frame_Call e k : (forall b, ime_frame (k b)) -> ime_frame (Call e k)
| frame_Get k : (forall v, ime_frame (k v)) -> ime_frame (Get k)
| frame_Modify f k :
    (forall v, ImeState (f v) = ImeState v) -> ime_frame k ->
    ime_frame (Modify f k).

(** The program never calls [Event]. *)
Inductive quiet {A : Type} : Proc A -> Prop :=
| quiet_Ret a : quiet (Ret a)
| quiet_Get k : (forall v, quiet (k v)) -> quiet (Get k)
| quiet_Modify f k : quiet k -> quiet (Modify f k).

(** The editor state is written by the IME operations only: neither
    [ProcessEvent] nor [UpdateState] assigns to it. *)
Definition window_keeps_ImeState : Prop :=
  (forall drv e, ime_frame (ProcessEvent drv e)) /\
  (forall drv v, ImeState (UpdateState drv v) = ImeState v).

(** Processing an event submits no further event. *)
Definition window_is_quiet : Prop :=
  forall drv e, quiet (ProcessEvent drv e).

(** Every run of the program calls [Event] at most [b] times, each time with
    an event whose rank is below [r]. *)
Inductive submits_below {A : Type} (rank : EventT -> nat) (r : nat)
  : nat -> Proc A -> Prop :=
| below_Ret b a : submits_below rank r b (Ret a)
| below_Call b e k :
    (rank e < r)%nat -> (forall x, submits_below rank r b (k x)) ->
    submits_below rank r (S b) (Call e k)
| below_Get b k :
    (forall v, submits_below rank r b (k v)) -> submits_below rank r b (Get k)
| below_Modify b f k :
    submits_below rank r b k -> submits_below rank r b (Modify f k).

(** Processing an event submits at most [B] events, each of a rank below
    that of the event processed: no chain of submissions goes on for ever. *)
Definition window_is_bounded (rank : EventT -> nat) (B : nat) : Prop :=
  forall drv e, submits_below rank (rank e) B (ProcessEvent drv e).

(** The turns of the loop that one event of rank [r] can cause, its own
    included, and those that the events of a queue can cause. *)
Fixpoint turns (B r : nat) : nat :=
  match r with
  | O => 1%nat
  | S r' => (1 + B * turns B r')%nat
  end.

Definition backlog (rank : EventT -> nat) (B : nat) (q : list EventT) : nat :=
  list_sum (map (fun e => turns B (rank e)) q).

(** *** Traces *)

(** Induction on a trace, by cases on its first observation. *)
Ltac trace_cases t :=
  let o := fresh "o" in
  let r := fresh "r" in
  let IH := fresh "IH" in
  induction t as [|o r IH]; simpl; [reflexivity|];
  destruct o; simpl; rewrite ?IH; try reflexivity.

(** The same for a trace known to satisfy [inner] or [outer]. *)
Ltac guarded_trace_cases t :=
  let o := fresh "o" in
  let r := fresh "r" in
  let IH := fresh "IH" in
  let H := fresh "H" in
  let Ho := fresh "Ho" in
  let Hr := fresh "Hr" in
  induction t as [|o r IH]; simpl; [reflexivity|];
  unfold inner, outer in *; simpl; intros H;
  apply andb_prop in H as [Ho Hr];
  destruct o; simpl in *; try discriminate; auto.

Lemma submitted_app t1 t2 : submitted (t1 ++ t2) = submitted t1 ++ submitted t2.
Proof. trace_cases t1. Qed.

Lemma processed_app t1 t2 : processed (t1 ++ t2) = processed t1 ++ processed t2.
Proof. trace_cases t1. Qed.

Lemma emitted_app b t1 t2 : emitted b (t1 ++ t2) = emitted b t1 ++ emitted b t2.
Proof.
  trace_cases t1. destruct (Bool.eqb nested b); simpl; rewrite ?IH; reflexivity.
Qed.

Lemma drains_begun_app t1 t2 :
  drains_begun (t1 ++ t2) = (drains_begun t1 + drains_begun t2)%nat.
Proof. trace_cases t1. Qed.

Lemma inner_app t1 t2 : inner (t1 ++ t2) = inner t1 && inner t2.
Proof. unfold inner. apply forallb_app. Qed.

Lemma outer_app t1 t2 : outer (t1 ++ t2) = outer t1 && outer t2.
Proof. unfold outer. apply forallb_app. Qed.

Lemma inner_map_submit l : inner (map (ObsSubmit true) l) = true.
Proof. induction l; simpl; auto. Qed.

Lemma submitted_map_submit b l : submitted (map (ObsSubmit b) l) = l.
Proof. induction l; simpl; congruence. Qed.

Lemma processed_map_submit b l : processed (map (ObsSubmit b) l) = [].
Proof. induction l; simpl; congruence. Qed.

(** Inside a loop, and after it, no loop begins or ends. *)
Lemma max_active_flat cur t1 t2 :
  inner t1 || outer t1 = true ->
  max_active cur (t1 ++ t2) = max_active cur t2.
Proof.
  revert cur. induction t1 as [|o r IH]; intros cur H; simpl; [reflexivity|].
  assert (Hr : inner r || outer r = true).
  { unfold inner, outer in *. simpl in H.
    destruct (forallb inner_obs r), (forallb outer_obs r); auto.
    rewrite !andb_false_r in H. discriminate. }
  destruct o; simpl; auto;
    unfold inner, outer in H; simpl in H; discriminate.
Qed.

Lemma max_active_inner cur t : inner t = true -> max_active cur t = cur.
Proof.
  intros H. rewrite <- (app_nil_r t). rewrite max_active_flat; [reflexivity|].
  rewrite H. reflexivity.
Qed.

Lemma max_active_outer cur t : outer t = true -> max_active cur t = cur.
Proof.
  intros H. rewrite <- (app_nil_r t). rewrite max_active_flat; [reflexivity|].
  rewrite H. apply orb_true_r.
Qed.

Lemma emitted_inner t : inner t = true -> emitted false t = [].
Proof. guarded_trace_cases t. destruct nested; simpl; [auto | discriminate]. Qed.

Lemma emitted_outer b t : outer t = true -> emitted b t = [].
Proof. guarded_trace_cases t. Qed.

Lemma submitted_outer t : outer t = true -> submitted t = [].
Proof. guarded_trace_cases t. Qed.

Lemma processed_outer t : outer t = true -> processed t = [].
Proof. guarded_trace_cases t. Qed.

Lemma drains_begun_inner t : inner t = true -> drains_begun t = O.
Proof. guarded_trace_cases t. Qed.

Lemma drains_begun_outer t : outer t = true -> drains_begun t = O.
Proof. guarded_trace_cases t. Qed.

(** *** The dispatcher, step by step *)

Ltac unfold_M := unfold bind, ret, tell, modify, panic, timeout.

(** [Event] with its three ways out spelled: the panic, the nested call, and
    the call that drains. *)
Lemma Event_eq fuel e c :
  Event fuel e c =
  match d c with
  | None => (Panic no_driver_msg, c, [])
  | Some _ =>
      let c1 := set_waitEvents (waitEvents c ++ [e]) c in
      if busy c then (Done true, c1, [ObsSubmit true e])
      else
        match fuel with
        | O => (Timeout, c1, [ObsSubmit false e])
        | S n =>
            match drain (Event n) n false (set_busy true c1) with
            | (Done h, c2, t) =>
                let '(o, c3, t3) := reconcile e h (set_busy false c2) in
                (o, c3, ObsSubmit false e :: ObsDrainBegin :: t ++ ObsDrainEnd :: t3)
            | (Panic msg, c2, t) =>
                (Panic msg, c2, ObsSubmit false e :: ObsDrainBegin :: t)
            | (Timeout, c2, t) =>
                (Timeout, c2, ObsSubmit false e :: ObsDrainBegin :: t)
            end
        end
  end.
Proof.
  destruct fuel as [|n]; simpl; unfold_M; destruct (d c); try reflexivity;
    simpl; destruct (busy c); try reflexivity.
  destruct (drain (Event n) n false _) as [[[h|msg|] c2] t]; simpl; try reflexivity.
  destruct (reconcile e h (set_busy false c2)) as [[o c3] t3]. reflexivity.
Qed.

Lemma drain_eq ev fuel handled c :
  drain ev fuel handled c =
  match waitEvents c with
  | [] => (Done handled, c, [])
  | e :: rest =>
      match fuel with
      | O => (Timeout, c, [])
      | S n =>
          let c1 := set_waitEvents rest c in
          match run ev (ProcessEvent (d c1) e) c1 with
          | (Done h, c2, t) =>
              let '(o, c3, t3) := drain ev n h c2 in
              (o, c3, ObsProcess e :: t ++ t3)
          | (Panic msg, c2, t) => (Panic msg, c2, ObsProcess e :: t)
          | (Timeout, c2, t) => (Timeout, c2, ObsProcess e :: t)
          end
      end
  end.
Proof.
  destruct fuel as [|n]; simpl; destruct (waitEvents c) as [|e rest];
    try reflexivity.
  unfold_M. simpl.
  destruct (run ev (ProcessEvent (d c) e) _) as [[[h|msg|] c2] t]; try reflexivity.
  destruct (drain ev n h c2) as [[o c3] t3]. reflexivity.
Qed.

(** A call of [Event] while the loop is running only queues the event. *)
Lemma Event_nested fuel e c drv :
  d c = Some drv -> busy c = true ->
  Event fuel e c =
  (Done true, set_waitEvents (waitEvents c ++ [e]) c, [ObsSubmit true e]).
Proof. intros Hd Hb. rewrite Event_eq, Hd, Hb. reflexivity. Qed.

(** The window's code, run inside the loop: it ends, and the events it
    submitted are at the back of the queue in the order of its calls. *)
Lemma run_inside_loop {A : Type} (p : Proc A) :
  forall n c drv,
    d c = Some drv -> busy c = true ->
    exists a c' calls,
      run (Event n) p c = (Done a, c', map (ObsSubmit true) calls) /\
      d c' = d c /\ busy c' = true /\
      waitEvents c' = waitEvents c ++ calls /\
      (ime_frame p -> ImeState (w c') = ImeState (w c)) /\
      (quiet p -> calls = []).
Proof.
  induction p as [a|e k IH|k IH|f k IH]; intros n c drv Hd Hb; simpl.
  - exists a, c, []. unfold ret. rewrite app_nil_r.
    repeat split; auto.
  - unfold bind. rewrite (Event_nested n e c drv Hd Hb).
    destruct (IH true n (set_waitEvents (waitEvents c ++ [e]) c) drv Hd Hb)
      as (a & c' & calls & Hrun & Hd' & Hb' & Hq & Hf & _).
    rewrite Hrun. exists a, c', (e :: calls). simpl in *.
    repeat split; auto.
    + rewrite Hq, <- app_assoc. reflexivity.
    + intros Hfr. inversion Hfr; subst. apply Hf.
      match goal with H : forall b, ime_frame _ |- _ => apply H end.
    + intros Hqu. inversion Hqu.
  - destruct (IH (w c) n c drv Hd Hb)
      as (a & c' & calls & Hrun & Hd' & Hb' & Hq & Hf & Hqu).
    exists a, c', calls. repeat split; auto.
    + intros Hfr. apply Hf.
      apply (fun H => match H in ime_frame q return
                              match q with Get k' => forall v, ime_frame (k' v) | _ => True end
                      with frame_Get _ H' => H' | _ => I end) in Hfr.
      apply Hfr.
    + intros Hq'. apply Hqu.
      apply (fun H => match H in quiet q return
                              match q with Get k' => forall v, quiet (k' v) | _ => True end
                      with quiet_Get _ H' => H' | _ => I end) in Hq'.
      apply Hq'.
  - unfold_M.
    destruct (IH n (set_w (f (w c)) c) drv Hd Hb)
      as (a & c' & calls & Hrun & Hd' & Hb' & Hq & Hf & Hqu).
    rewrite Hrun. exists a, c', calls. simpl in *. repeat split; auto.
    + intros Hfr.
      apply (fun H => match H in ime_frame q return
                              match q with
                              | Modify f' k' =>
                                  (forall v, ImeState (f' v) = ImeState v) /\ ime_frame k'
                              | _ => True end
                      with frame_Modify _ _ H1 H2 => conj H1 H2 | _ => I end) in Hfr.
      destruct Hfr as [H1 H2]. rewrite (Hf H2). apply H1.
    + intros Hq'. apply Hqu.
      apply (fun H => match H in quiet q return
                              match q with Modify _ k' => quiet k' | _ => True end
                      with quiet_Modify _ _ H' => H' | _ => I end) in Hq'.
      exact Hq'.
Qed.

(** The loop, entered with the busy flag set and a driver bound.  Whatever
    the fuel, the events processed so far followed by those still queued are
    the events that were queued at the start followed by those submitted
    since, and the loop does not panic. *)
Lemma drain_spec :
  forall fuel n handled c drv,
    d c = Some drv -> busy c = true ->
    exists o c' t,
      drain (Event n) fuel handled c = (o, c', t) /\
      d c' = d c /\ busy c' = true /\
      inner t = true /\
      processed t ++ waitEvents c' = waitEvents c ++ submitted t /\
      (forall msg, o <> Panic msg) /\
      (forall h, o = Done h -> waitEvents c' = []) /\
      (o = Timeout -> waitEvents c' <> []) /\
      ((forall dv e, ime_frame (ProcessEvent dv e)) ->
       ImeState (w c') = ImeState (w c)) /\
      (window_is_quiet -> (List.length (waitEvents c) <= fuel)%nat ->
       exists h, o = Done h /\ submitted t = []).
Proof.
  induction fuel as [|fuel IH]; intros n handled c drv Hd Hb;
    rewrite drain_eq; destruct (waitEvents c) as [|e rest] eqn:Hq.
  - exists (Done handled), c, []. rewrite Hq. simpl.
    repeat split; auto; try discriminate. intros _ _. eauto.
  - exists Timeout, c, []. rewrite Hq. simpl.
    repeat split; auto; try discriminate.
    + rewrite app_nil_r. reflexivity.
    + intros _ H. lia.
  - exists (Done handled), c, []. rewrite Hq. simpl.
    repeat split; auto; try discriminate. intros _ _. eauto.
  - cbv zeta.
    destruct (run_inside_loop (ProcessEvent (d (set_waitEvents rest c)) e) n
                (set_waitEvents rest c) drv Hd Hb)
      as (h & c2 & calls & Hrun & Hd2 & Hb2 & Hq2 & Hf2 & Hqu2).
    rewrite Hrun. simpl in Hd2, Hq2, Hf2.
    assert (Hd2' : d c2 = Some drv) by congruence.
    destruct (IH n h c2 drv Hd2' Hb2)
      as (o & c3 & t3 & Hdr & Hd3 & Hb3 & Hin & Hfifo & Hnp & Hdone & Hto & Hf3 & Hqu3).
    rewrite Hdr. exists o, c3, (ObsProcess e :: map (ObsSubmit true) calls ++ t3).
    repeat split; auto.
    + congruence.
    + change (inner (map (ObsSubmit true) calls ++ t3) = true).
      rewrite inner_app, inner_map_submit, Hin. reflexivity.
    + simpl. rewrite processed_app, submitted_app, processed_map_submit,
        submitted_map_submit. simpl. rewrite Hfifo, Hq2, <- app_assoc. reflexivity.
    + intros Hfr. rewrite (Hf3 Hfr). apply Hf2, Hfr.
    + intros Hqu Hlen. specialize (Hqu2 (Hqu _ _)). subst calls.
      rewrite app_nil_r in Hq2. simpl in Hlen.
      destruct (Hqu3 Hqu) as (h' & Ho & Hs); [rewrite Hq2; lia|].
      exists h'. split; [exact Ho|]. simpl. exact Hs.
Qed.

(** After the loop.  With a driver bound the step returns the loop's
    [handled]; it touches neither the queue nor the flag nor the driver. *)
Lemma configure_spec c drv :
  d c = Some drv ->
  exists c' t,
    configure c = (Done tt, c', t) /\ outer t = true /\
    d c' = d c /\ busy c' = busy c /\ waitEvents c' = waitEvents c /\
    ImeState (w c') = ImeState (w c).
Proof.
  intros Hd. unfold configure.
  destruct (try_recv [] (Options (w c))) as [[opts ch]|].
  - rewrite Hd. unfold_M. simpl. eexists _, _.
    repeat split; simpl; auto.
  - exists c, []. repeat split; reflexivity.
Qed.

Lemma perform_spec c drv :
  d c = Some drv ->
  exists c' t,
    perform c = (Done tt, c', t) /\ outer t = true /\
    d c' = d c /\ busy c' = busy c /\ waitEvents c' = waitEvents c /\
    ImeState (w c') = ImeState (w c).
Proof.
  intros Hd. unfold perform.
  destruct (try_recv Action_zero (Actions (w c))) as [[acts ch]|].
  - rewrite Hd. unfold_M. simpl. eexists _, _.
    repeat split; simpl; auto.
  - exists c, []. repeat split; reflexivity.
Qed.

Lemma reconcile_spec e handled c drv :
  d c = Some drv ->
  exists c' t,
    reconcile e handled c = (Done handled, c', t) /\ outer t = true /\
    d c' = d c /\ busy c' = busy c /\ waitEvents c' = waitEvents c /\
    ((forall dv v, ImeState (UpdateState dv v) = ImeState v) ->
     ImeState (w c') = ImeState (w c)).
Proof.
  intros Hd. unfold reconcile.
  destruct (try_recv tt (Destroy (w c))) as [[u ch]|].
  - unfold_M. simpl. eexists _, _. repeat split; reflexivity.
  - unfold bind at 1. unfold modify at 1. unfold bind at 1. unfold tell at 1.
    set (c1 := set_w (UpdateState (d c) (w c)) c).
    assert (Hd1 : d c1 = Some drv) by exact Hd.
    destruct (is_WakeupEvent e).
    + destruct (configure_spec c1 drv Hd1)
        as (c2 & t2 & Hc & Ho2 & Hd2 & Hb2 & Hq2 & Hi2).
      assert (Hd2' : d c2 = Some drv) by congruence.
      destruct (perform_spec c2 drv Hd2')
        as (c3 & t3 & Hp & Ho3 & Hd3 & Hb3 & Hq3 & Hi3).
      unfold bind. rewrite Hc, Hp. unfold ret. simpl.
      eexists _, _. split; [reflexivity|].
      repeat split; try congruence.
      * change (outer (t2 ++ t3 ++ []) = true).
        rewrite !outer_app, Ho2, Ho3. reflexivity.
      * rewrite Hb3, Hb2. reflexivity.
      * rewrite Hq3, Hq2. reflexivity.
      * intros Hu. rewrite Hi3, Hi2. apply Hu.
    + unfold ret. simpl. eexists _, _. split; [reflexivity|].
      repeat split; auto. intros Hu. apply Hu.
Qed.

(** A call of [Event] that finds the flag clear, with a driver bound. *)
Lemma Event_top_spec fuel e c drv :
  d c = Some drv -> busy c = false ->
  exists o c' t,
    Event fuel e c = (o, c', t) /\
    d c' = d c /\
    (forall msg, o <> Panic msg) /\
    (max_active 0 t <= 1)%nat /\
    (drains_begun t <= 1)%nat /\
    processed t ++ waitEvents c' = waitEvents c ++ submitted t /\
    emitted false t = [e] /\
    (forall h, o = Done h -> busy c' = false /\ waitEvents c' = []) /\
    (window_keeps_ImeState -> ImeState (w c') = ImeState (w c)) /\
    (window_is_quiet -> (List.length (waitEvents c) + 2 <= fuel)%nat ->
     exists h, o = Done h /\ submitted t = [e]).
Proof.
  intros Hd Hb. rewrite Event_eq, Hd, Hb. cbv zeta.
  set (c1 := set_waitEvents (waitEvents c ++ [e]) c).
  destruct fuel as [|n].
  - exists Timeout, c1, [ObsSubmit false e]. simpl.
    repeat split; auto; try discriminate. intros _ H. lia.
  - destruct (drain_spec n n false (set_busy true c1) drv Hd eq_refl)
      as (o & c2 & t & Hdr & Hd2 & Hb2 & Hin & Hfifo & Hnp & Hdone & Hto & Hfr & Hqu).
    rewrite Hdr. simpl in Hd2, Hfifo, Hfr, Hqu.
    assert (Hflat : forall t', max_active 1 (t ++ t') = max_active 1 t').
    { intros t'. apply max_active_flat. rewrite Hin. reflexivity. }
    destruct o as [h|msg|].
    + destruct (reconcile_spec e h (set_busy false c2) drv)
        as (c3 & t3 & Hrc & Hout & Hd3 & Hb3 & Hq3 & Hfr3); [simpl; congruence|].
      rewrite Hrc. simpl in Hd3, Hb3, Hq3, Hfr3.
      rewrite (Hdone h eq_refl) in Hq3, Hfifo.
      exists (Done h), c3, (ObsSubmit false e :: ObsDrainBegin :: t ++ ObsDrainEnd :: t3).
      split; [reflexivity|]. repeat split; try congruence.
      * simpl. rewrite Hflat. simpl. rewrite (max_active_outer 0 t3 Hout). lia.
      * simpl. rewrite drains_begun_app. simpl.
        rewrite (drains_begun_inner t Hin), (drains_begun_outer t3 Hout). lia.
      * simpl. rewrite processed_app, submitted_app. simpl.
        rewrite (processed_outer t3 Hout), (submitted_outer t3 Hout), Hq3.
        rewrite !app_nil_r in *. rewrite Hfifo, <- app_assoc. reflexivity.
      * simpl. rewrite emitted_app. simpl.
        rewrite (emitted_inner t Hin), (emitted_outer false t3 Hout). reflexivity.
      * intros [Hp Hu]. rewrite (Hfr3 Hu). apply Hfr, Hp.
      * intros Hquiet Hlen. destruct (Hqu Hquiet) as (h' & Ho & Hs).
        { unfold c1. simpl. rewrite length_app. simpl. lia. }
        exists h. split; [reflexivity|]. simpl. rewrite submitted_app. simpl.
        rewrite Hs, (submitted_outer t3 Hout). reflexivity.
    + exfalso. exact (Hnp msg eq_refl).
    + exists Timeout, c2, (ObsSubmit false e :: ObsDrainBegin :: t).
      split; [reflexivity|]. repeat split; try congruence.
      * simpl. rewrite (max_active_inner 1 t Hin). lia.
      * simpl. rewrite (drains_begun_inner t Hin). lia.
      * simpl. rewrite Hfifo, <- app_assoc. reflexivity.
      * simpl. rewrite (emitted_inner t Hin). reflexivity.
      * intros [Hp Hu]. apply Hfr, Hp.
      * intros Hquiet Hlen. destruct (Hqu Hquiet) as (h' & Ho & Hs).
        { unfold c1. simpl. rewrite length_app. simpl. lia. }
        discriminate.
Qed.

(** What the IME operations rely on, whether the flag is set or clear. *)
Lemma Event_call_spec fuel e c drv :
  d c = Some drv ->
  exists o c' t,
    Event fuel e c = (o, c', t) /\
    d c' = d c /\
    (forall msg, o <> Panic msg) /\
    emitted (busy c) t = [e] /\
    (forall h, o = Done h ->
               busy c' = busy c /\ (busy c = false -> waitEvents c' = [])) /\
    (busy c = true ->
     o = Done true /\ w c' = w c /\ waitEvents c' = waitEvents c ++ [e] /\
     t = [ObsSubmit true e]) /\
    (window_keeps_ImeState -> ImeState (w c') = ImeState (w c)) /\
    (window_is_quiet -> busy c = false ->
     (List.length (waitEvents c) + 2 <= fuel)%nat ->
     exists h, o = Done h /\ submitted t = [e] /\
               processed t = waitEvents c ++ [e]).
Proof.
  intros Hd. destruct (busy c) eqn:Hb.
  - rewrite (Event_nested fuel e c drv Hd Hb).
    eexists _, _, _. split; [reflexivity|]. simpl.
    repeat split; auto; try discriminate.
  - destruct (Event_top_spec fuel e c drv Hd Hb)
      as (o & c' & t & Hev & Hd' & Hnp & Hmax & _ & Hfifo & Hem & Hdone & Hfr & Hqu).
    exists o, c', t. split; [exact Hev|].
    repeat split; auto; try discriminate.
    + apply (Hdone h H).
    + intros _. apply (Hdone h H).
    + intros Hquiet _ Hlen.
      destruct (Hqu Hquiet Hlen) as (h & Ho & Hs). exists h.
      repeat split; auto.
      destruct (Hdone h Ho) as [_ Hq]. rewrite Hq, Hs, app_nil_r in Hfifo.
      exact Hfifo.
Qed.

(** *** The IME operations *)

Lemma Range_eqb_eq a b : Range_eqb a b = true <-> a = b.
Proof.
  unfold Range_eqb. destruct a as [s1 e1], b as [s2 e2]. simpl.
  rewrite andb_true_iff, !Z.eqb_eq. split.
  - intros [-> ->]. reflexivity.
  - intros H. injection H as -> ->. split; reflexivity.
Qed.

Lemma Range_eqb_neq a b : a <> b -> Range_eqb a b = false.
Proof.
  intros H. destruct (Range_eqb a b) eqn:E; [|reflexivity].
  apply Range_eqb_eq in E. contradiction.
Qed.

(** [m ;; ret tt] after a call of [Event]. *)
Lemma Event_then_ret fuel e c :
  (Event fuel e ;; ret tt) c =
  match Event fuel e c with
  | (Done _, c', t) => (Done tt, c', t)
  | (Panic msg, c', t) => (Panic msg, c', t)
  | (Timeout, c', t) => (Timeout, c', t)
  end.
Proof.
  unfold bind, ret.
  destruct (Event fuel e c) as [[[h|msg|] c'] t]; rewrite ?app_nil_r; reflexivity.
Qed.

Definition with_ImeState (s : EditorStateT) (c : callbacks) : callbacks :=
  set_w (set_ImeState s (w c)) c.

(** The editor state is out of the window's reach for the length of a call:
    the call is made while a drain is running, so that the events it submits
    are processed after it, or the window's code never assigns the editor
    state. *)
Definition ime_owned (c : callbacks) : Prop :=
  busy c = true \/ window_keeps_ImeState.

Lemma ime_owned_same c c' : busy c' = busy c -> ime_owned c -> ime_owned c'.
Proof. intros Hb [H|H]; [left; congruence | right; exact H]. Qed.

(** What an operation that delivers events guarantees: [evs] are the events
    it hands to [Event] itself, in this order, and [s] is the editor state it
    leaves when it returns. *)
Definition done {A : Type} (o : Outcome A) : Prop :=
  match o with Done _ => True | _ => False end.

Definition delivers {A : Type} (fuel : nat) (c : callbacks) (s : EditorStateT)
    (evs : list EventT) (r : Outcome A * callbacks * Trace) : Prop :=
  let '(o, c', t) := r in
  d c' = d c /\
  (forall msg, o <> Panic msg) /\
  (done o ->
   ImeState (w c') = s /\ busy c' = busy c /\
   (busy c = false -> waitEvents c' = []) /\
   emitted (busy c) t = evs) /\
  (busy c = true ->
   done o /\ waitEvents c' = waitEvents c ++ evs /\
   t = map (ObsSubmit true) evs) /\
  (window_is_quiet -> busy c = false ->
   (List.length (waitEvents c) + 2 <= fuel)%nat ->
   done o /\ submitted t = evs /\ processed t = waitEvents c ++ evs).

Lemma done_unit (o : Outcome unit) : done o <-> o = Done tt.
Proof.
  destruct o as [[]|msg|]; simpl; split; intros H;
    solve [reflexivity | exact I | contradiction | discriminate].
Qed.

Lemma delivers_ret {A : Type} fuel (a : A) c :
  (busy c = false -> waitEvents c = []) ->
  delivers fuel c (ImeState (w c)) [] (ret a c).
Proof.
  intros Hq. unfold delivers, ret. simpl. rewrite app_nil_r.
  repeat split; auto; try discriminate.
  rewrite Hq; auto.
Qed.

Lemma delivers_Event fuel e c drv :
  d c = Some drv -> ime_owned c ->
  delivers fuel c (ImeState (w c)) [e] (Event fuel e c).
Proof.
  intros Hd Hk.
  destruct (Event_call_spec fuel e c drv Hd)
    as (o & c2 & t & Hev & Hd2 & Hnp & Hem & Hdone & Hbusy & Hfr & Hqu).
  rewrite Hev. unfold delivers.
  split; [exact Hd2|]. split; [exact Hnp|]. split; [|split].
  - intros Ho. destruct o as [h| |]; try contradiction.
    destruct (Hdone h eq_refl) as [Hb Hq].
    assert (Hs : ImeState (w c2) = ImeState (w c)).
    { destruct Hk as [Hbc|Hk]; [|exact (Hfr Hk)].
      destruct (Hbusy Hbc) as (_ & Hw & _). rewrite Hw. reflexivity. }
    auto.
  - intros Hb. destruct (Hbusy Hb) as (Ho & _ & Hq & Ht). subst o t. simpl. auto.
  - intros Hquiet Hb Hlen. destruct (Hqu Hquiet Hb Hlen) as (h & Ho & Hs & Hp).
    subst o. simpl. auto.
Qed.

(** One delivering step after another. *)
Lemma delivers_seq {A B : Type} fuel c s1 evs1 (m : M A) s2 evs2 (k : A -> M B) :
  delivers fuel c s1 evs1 (m c) ->
  (forall a c1,
      d c1 = d c -> busy c1 = busy c -> ImeState (w c1) = s1 ->
      (busy c = false -> waitEvents c1 = []) ->
      delivers fuel c1 s2 evs2 (k a c1)) ->
  delivers fuel c s2 (evs1 ++ evs2) (bind m k c).
Proof.
  unfold bind. destruct (m c) as [[o1 c1] t1]. intros H1 H2.
  destruct H1 as (Hd1 & Hnp1 & Hdone1 & Hbusy1 & Hqu1).
  destruct o1 as [a|msg|]; [|exfalso; exact (Hnp1 msg eq_refl)|].
  - destruct (Hdone1 I) as (Hs1 & Hb1 & Hq1 & Hem1).
    specialize (H2 a c1 Hd1 Hb1 Hs1 Hq1).
    destruct (k a c1) as [[o2 c2] t2].
    destruct H2 as (Hd2 & Hnp2 & Hdone2 & Hbusy2 & Hqu2).
    rewrite Hb1 in *. unfold delivers.
    split; [congruence|]. split; [exact Hnp2|]. split; [|split].
    + intros Ho. destruct (Hdone2 Ho) as (Hs2 & Hb2 & Hq2 & Hem2).
      rewrite emitted_app, Hem1, Hem2. auto.
    + intros Hb. destruct (Hbusy1 Hb) as (_ & Hw1 & Ht1).
      destruct (Hbusy2 Hb) as (Ho2 & Hw2 & Ht2).
      rewrite Hw2, Hw1, Ht1, Ht2, map_app, <- app_assoc. auto.
    + intros Hquiet Hb Hlen.
      destruct (Hqu1 Hquiet Hb Hlen) as (_ & Hsub1 & Hp1).
      destruct (Hqu2 Hquiet Hb) as (Ho2 & Hsub2 & Hp2).
      { rewrite (Hq1 Hb). simpl. lia. }
      rewrite (Hq1 Hb) in Hp2. simpl in Hp2.
      rewrite submitted_app, processed_app, Hsub1, Hsub2, Hp1, Hp2, <- app_assoc.
      auto.
  - unfold delivers. split; [exact Hd1|]. split; [discriminate|].
    split; [intros []|]. split.
    + intros Hb. destruct (Hbusy1 Hb) as ([] & _).
    + intros Hquiet Hb Hlen. destruct (Hqu1 Hquiet Hb Hlen) as ([] & _).
Qed.

(** A store into the editor state before a delivering step. *)
Lemma delivers_store {A : Type} fuel c (f : callbacks -> EditorStateT) s evs
      (m : M A) :
  delivers fuel (with_ImeState (f c) c) s evs (m (with_ImeState (f c) c)) ->
  delivers fuel c s evs
    (bind (modify (fun c0 => with_ImeState (f c0) c0)) (fun _ => m) c).
Proof.
  unfold bind, modify. destruct (m _) as [[o c'] t]. simpl. auto.
Qed.

Lemma EditorReplace_spec fuel r text c drv :
  d c = Some drv -> ime_owned c ->
  let s := Replace (ImeState (w c)) r text in
  delivers fuel c s [EditEvent r text; SnippetEvent (Snippet_Range s)]
    (EditorReplace fuel r text c).
Proof.
  intros Hd Hk s. unfold EditorReplace.
  apply (delivers_store fuel c (fun c0 => Replace (ImeState (w c0)) r text)).
  fold s. set (c1 := with_ImeState s c).
  apply (delivers_seq fuel c1 s [EditEvent r text] _ s [SnippetEvent (Snippet_Range s)]).
  - apply (delivers_Event fuel _ c1 drv Hd Hk).
  - intros _ c2 Hd2 Hb2 Hs2 Hq2.
    rewrite <- (app_nil_r [SnippetEvent (Snippet_Range s)]).
    apply (delivers_seq fuel c2 s [SnippetEvent (Snippet_Range s)] _ s []).
    + rewrite <- Hs2 at 1. rewrite <- Hs2 at 1. 
      apply (delivers_Event fuel _ c2 drv);
        [rewrite Hd2; exact Hd | exact (ime_owned_same c c2 Hb2 Hk)].
    + intros _ c3 _ Hb3 Hs3 Hq3. rewrite <- Hs3. apply delivers_ret.
      rewrite Hb3. exact Hq3.
Qed.

Lemma SetEditorSelection_spec fuel r c drv :
  d c = Some drv -> ime_owned c ->
  delivers fuel c (set_Selection_Range r (ImeState (w c))) [SelectionEvent r]
    (SetEditorSelection fuel r c).
Proof.
  intros Hd Hk. unfold SetEditorSelection.
  apply (delivers_store fuel c
           (fun c0 => set_Selection_Range r (ImeState (w c0)))).
  set (s := set_Selection_Range r (ImeState (w c))).
  set (c1 := with_ImeState s c).
  rewrite <- (app_nil_r [SelectionEvent r]).
  apply (delivers_seq fuel c1 s [SelectionEvent r] _ s []).
  - apply (delivers_Event fuel _ c1 drv Hd Hk).
  - intros _ c3 _ Hb3 Hs3 Hq3. rewrite <- Hs3. apply delivers_ret.
    rewrite Hb3. exact Hq3.
Qed.

(** The caret position that [EditorInsert] computes. *)
Definition insert_pos (sel : Range) (text : string) : Z :=
  Int.add (if End sel <? Start sel then End sel else Start sel)
          (Utf8.RuneCountInString text).

Lemma insert_pos_min sel text :
  Int.in_range (Z.min (Start sel) (End sel) + Utf8.RuneCountInString text) ->
  insert_pos sel text = Z.min (Start sel) (End sel) + Utf8.RuneCountInString text.
Proof.
  intros H. unfold insert_pos, Int.add.
  assert (E : (if End sel <? Start sel then End sel else Start sel)
              = Z.min (Start sel) (End sel)).
  { destruct (Z.ltb_spec (End sel) (Start sel)); lia. }
  rewrite E. apply Int.wrap_small, H.
Qed.

Lemma EditorInsert_spec fuel text c drv :
  d c = Some drv -> ime_owned c ->
  let sel := Selection_Range (ImeState (w c)) in
  let s := Replace (ImeState (w c)) sel text in
  let pos := insert_pos sel text in
  let caret := {| Start := pos; End := pos |} in
  delivers fuel c (set_Selection_Range caret s)
    [EditEvent sel text; SnippetEvent (Snippet_Range s); SelectionEvent caret]
    (EditorInsert fuel text c).
Proof.
  intros Hd Hk sel s pos caret. unfold EditorInsert. fold sel.
  change [EditEvent sel text; SnippetEvent (Snippet_Range s); SelectionEvent caret]
    with ([EditEvent sel text; SnippetEvent (Snippet_Range s)] ++ [SelectionEvent caret]).
  apply (delivers_seq fuel c s _ _ (set_Selection_Range caret s)).
  - apply (EditorReplace_spec fuel sel text c drv Hd Hk).
  - intros _ c1 Hd1 Hb1 Hs1 Hq1. fold (insert_pos sel text). fold pos. fold caret.
    rewrite <- Hs1.
    apply (SetEditorSelection_spec fuel caret c1 drv);
      [congruence | exact (ime_owned_same c c1 Hb1 Hk)].
Qed.

Lemma SetEditorSnippet_same fuel r c :
  Snippet_Range (EditorState c) = r ->
  SetEditorSnippet fuel r c = (Done tt, c, []).
Proof.
  intros H. unfold SetEditorSnippet.
  rewrite (proj2 (Range_eqb_eq _ _) H). reflexivity.
Qed.

Lemma SetEditorSnippet_other fuel r c drv :
  d c = Some drv -> ime_owned c ->
  Snippet_Range (EditorState c) <> r ->
  exists o c' t,
    SetEditorSnippet fuel r c = (o, c', t) /\
    d c' = d c /\
    (forall msg, o <> Panic msg) /\
    EditorState c' = EditorState c /\
    emitted (busy c) t = [SnippetEvent r] /\
    (o = Done tt -> busy c' = busy c) /\
    (busy c = true ->
     o = Done tt /\ w c' = w c /\
     waitEvents c' = waitEvents c ++ [SnippetEvent r]) /\
    (window_is_quiet -> busy c = false ->
     (List.length (waitEvents c) + 2 <= fuel)%nat ->
     o = Done tt /\ processed t = waitEvents c ++ [SnippetEvent r]).
Proof.
  intros Hd Hk Hne. unfold SetEditorSnippet.
  rewrite (Range_eqb_neq _ _ Hne), Event_then_ret.
  destruct (Event_call_spec fuel (SnippetEvent r) c drv Hd)
    as (o & c' & t & Hev & Hd' & Hnp & Hem & Hdone & Hbusy & Hfr & Hqu).
  rewrite Hev. unfold EditorState.
  assert (Hs : ImeState (w c') = ImeState (w c)).
  { destruct Hk as [Hbc|Hk]; [|exact (Hfr Hk)].
    destruct (Hbusy Hbc) as (_ & Hw & _). rewrite Hw. reflexivity. }
  destruct o as [h|msg|]; [|exfalso; exact (Hnp msg eq_refl)|].
  - exists (Done tt), c', t. split; [reflexivity|].
    split; [exact Hd'|]. split; [discriminate|]. split; [exact Hs|].
    split; [exact Hem|]. split; [intros _; apply (Hdone h eq_refl)|]. split.
    + intros Hb. destruct (Hbusy Hb) as (_ & Hw & Hq & _). auto.
    + intros Hq Hb Hlen. destruct (Hqu Hq Hb Hlen) as (h' & _ & _ & Hp). auto.
  - exists Timeout, c', t. split; [reflexivity|].
    split; [exact Hd'|]. split; [discriminate|]. split; [exact Hs|].
    split; [exact Hem|]. split; [discriminate|]. split.
    + intros Hb. destruct (Hbusy Hb) as (Ho & _). discriminate.
    + intros Hq Hb Hlen. destruct (Hqu Hq Hb Hlen) as (h' & Ho & _). discriminate.
Qed.

(** The first [select] when a batch is waiting. *)
Lemma configure_pending c drv opts ch :
  d c = Some drv ->
  try_recv [] (Options (w c)) = Some (opts, ch) ->
  let seed := {| Decorated := Enabled (Decorations (w c));
                 config_rest := ConfigRest_zero |} in
  let cnf := fold_left (fun cnf opt => opt (Metric_ (w c)) cnf) opts seed in
  let h := if Decorated cnf then Height (Decorations (w c)) else Dp_zero in
  let w' := set_Decorations {| Enabled := Decorated cnf;
                               Height := Height (Decorations (w c)) |}
                            (set_Options ch (w c)) in
  configure c = (Done tt, set_w w' c, [ObsConfigure drv (opts ++ [DecoHeightOpt h])])
  /\ Enabled (Decorations w') = Decorated cnf.
Proof.
  intros Hd Hopts seed cnf h w'. split; [|reflexivity].
  unfold configure. rewrite Hopts, Hd. cbv zeta.
  unfold bind, modify, tell. simpl.
  fold seed. fold cnf. unfold h. destruct (Decorated cnf); reflexivity.
Qed.

(** *** Windows that submit while they process *)

Lemma turns_pos B r : (1 <= turns B r)%nat.
Proof. destruct r; simpl; lia. Qed.

Lemma turns_step B r : (turns B r <= turns B (S r))%nat.
Proof.
  induction r as [|r IH].
  - simpl. lia.
  - change (turns B (S (S r))) with (1 + B * turns B (S r))%nat.
    change (turns B (S r)) with (1 + B * turns B r)%nat at 1.
    apply (Nat.mul_le_mono_l _ _ B) in IH. lia.
Qed.

Lemma turns_mono B r1 r2 : (r1 <= r2)%nat -> (turns B r1 <= turns B r2)%nat.
Proof.
  intros H. induction H as [|r2 H IH]; [lia|].
  pose proof (turns_step B r2). lia.
Qed.

Lemma backlog_app rank B q1 q2 :
  backlog rank B (q1 ++ q2) = (backlog rank B q1 + backlog rank B q2)%nat.
Proof. unfold backlog. rewrite map_app. apply list_sum_app. Qed.

Lemma backlog_cons rank B e q :
  backlog rank B (e :: q) = (turns B (rank e) + backlog rank B q)%nat.
Proof. reflexivity. Qed.

(** The events submitted while one event of rank [r] is processed cause
    fewer turns than that event is allowed. *)
Lemma backlog_calls rank B r calls :
  (List.length calls <= B)%nat ->
  Forall (fun e => (rank e < r)%nat) calls ->
  (backlog rank B calls + 1 <= turns B r)%nat.
Proof.
  intros Hlen Hall. destruct r as [|r].
  - destruct calls as [|e q]; [unfold backlog; simpl; lia|].
    apply Forall_inv in Hall. lia.
  - assert (H : (backlog rank B calls <= List.length calls * turns B r)%nat).
    { clear Hlen. induction calls as [|e q IH]; [unfold backlog; simpl; lia|].
      rewrite backlog_cons.
      pose proof (turns_mono B (rank e) r) as Hm.
      pose proof (Forall_inv Hall) as He. simpl in He.
      specialize (IH (Forall_inv_tail Hall)).
      change (List.length (e :: q) * turns B r)%nat
        with (turns B r + List.length q * turns B r)%nat.
      specialize (Hm ltac:(lia)). lia. }
    apply (Nat.mul_le_mono_r _ _ (turns B r)) in Hlen.
    change (turns B (S r)) with (1 + B * turns B r)%nat. lia.
Qed.

(** The window's code, run inside the loop, when its submissions are
    bounded. *)
Lemma run_inside_loop_bounded {A : Type} rank r b (p : Proc A) :
  submits_below rank r b p ->
  forall n c drv,
    d c = Some drv -> busy c = true ->
    exists a c' calls,
      run (Event n) p c = (Done a, c', map (ObsSubmit true) calls) /\
      d c' = d c /\ busy c' = true /\
      waitEvents c' = waitEvents c ++ calls /\
      (List.length calls <= b)%nat /\
      Forall (fun e => (rank e < r)%nat) calls.
Proof.
  induction 1 as [b a|b e k Hr Hk IH|b k Hk IH|b f k Hk IH];
    intros n c drv Hd Hb; simpl.
  - exists a, c, []. unfold ret. rewrite app_nil_r. simpl.
    split; [reflexivity|]. split; [reflexivity|]. split; [exact Hb|].
    split; [reflexivity|]. split; [lia | constructor].
  - unfold bind. rewrite (Event_nested n e c drv Hd Hb).
    destruct (IH true n (set_waitEvents (waitEvents c ++ [e]) c) drv Hd Hb)
      as (a & c' & calls & Hrun & Hd' & Hb' & Hq & Hlen & Hall).
    rewrite Hrun. exists a, c', (e :: calls). simpl in *.
    split; [reflexivity|]. split; [exact Hd'|]. split; [exact Hb'|].
    split; [rewrite Hq, <- app_assoc; reflexivity|].
    split; [lia | constructor; assumption].
  - destruct (IH (w c) n c drv Hd Hb)
      as (a & c' & calls & Hrun & Hd' & Hb' & Hq & Hlen & Hall).
    exists a, c', calls. auto 10.
  - unfold_M.
    destruct (IH n (set_w (f (w c)) c) drv Hd Hb)
      as (a & c' & calls & Hrun & Hd' & Hb' & Hq & Hlen & Hall).
    rewrite Hrun. exists a, c', calls. simpl in *. auto 10.
Qed.

(** With bounded submissions the loop returns, given the turns that its
    queue can cause. *)
Lemma drain_bounded rank B :
  window_is_bounded rank B ->
  forall fuel n handled c drv,
    d c = Some drv -> busy c = true ->
    (backlog rank B (waitEvents c) <= fuel)%nat ->
    exists h c' t, drain (Event n) fuel handled c = (Done h, c', t).
Proof.
  intros HB. induction fuel as [|fuel IH]; intros n handled c drv Hd Hb Hlen;
    rewrite drain_eq; destruct (waitEvents c) as [|e rest] eqn:Hq.
  - eauto.
  - exfalso. rewrite backlog_cons in Hlen.
    pose proof (turns_pos B (rank e)). lia.
  - eauto.
  - cbv zeta.
    destruct (run_inside_loop_bounded rank (rank e) B _
                (HB (d (set_waitEvents rest c)) e) n
                (set_waitEvents rest c) drv Hd Hb)
      as (h & c2 & calls & Hrun & Hd2 & Hb2 & Hq2 & Hl & Ha).
    rewrite Hrun. simpl in Hd2, Hq2.
    assert (Hd2' : d c2 = Some drv) by congruence.
    assert (Hfuel : (backlog rank B (waitEvents c2) <= fuel)%nat).
    { rewrite Hq2, backlog_app. rewrite backlog_cons in Hlen.
      pose proof (backlog_calls rank B (rank e) calls Hl Ha). lia. }
    destruct (IH n h c2 drv Hd2' Hb2 Hfuel) as (h' & c3 & t3 & Hdr).
    rewrite Hdr. eauto.
Qed.

Lemma Event_top_bounded rank B fuel e c drv :
  window_is_bounded rank B ->
  d c = Some drv -> busy c = false ->
  (backlog rank B (waitEvents c ++ [e]) < fuel)%nat ->
  exists h c' t, Event fuel e c = (Done h, c', t).
Proof.
  intros HB Hd Hb Hlen. rewrite Event_eq, Hd, Hb. cbv zeta.
  destruct fuel as [|n]; [lia|].
  set (c1 := set_busy true (set_waitEvents (waitEvents c ++ [e]) c)).
  destruct (drain_bounded rank B HB n n false c1 drv Hd eq_refl)
    as (h & c2 & t & Hdr); [simpl; lia|].
  destruct (drain_spec n n false c1 drv Hd eq_refl)
    as (o & c2' & t' & Hdr' & Hd2 & _).
  rewrite Hdr in Hdr'. injection Hdr' as <- <- <-.
  rewrite Hdr.
  destruct (reconcile_spec e h (set_busy false c2) drv)
    as (c3 & t3 & Hrc & _); [simpl in *; congruence|].
  rewrite Hrc. eauto.
Qed.

(** Inside a loop every call of [Event] is a nested one. *)
Lemma submitted_inner t : inner t = true -> submitted t = emitted true t.
Proof.
  guarded_trace_cases t. destruct nested; simpl; [f_equal; auto | discriminate].
Qed.

(** The calls of [Event] in a top-level call: the call itself, then the
    nested ones. *)
Lemma Event_top_submitted fuel e c drv :
  d c = Some drv -> busy c = false ->
  submitted (snd (Event fuel e c)) = e :: emitted true (snd (Event fuel e c)).
Proof.
  intros Hd Hb. rewrite Event_eq, Hd, Hb. cbv zeta.
  destruct fuel as [|n]; [reflexivity|].
  destruct (drain_spec n n false
              (set_busy true (set_waitEvents (waitEvents c ++ [e]) c)) drv Hd eq_refl)
    as (o & c2 & t & Hdr & Hd2 & _ & Hin & _).
  rewrite Hdr. destruct o as [h|msg|].
  - destruct (reconcile_spec e h (set_busy false c2) drv)
      as (c3 & t3 & Hrc & Hout & _); [simpl in *; congruence|].
    rewrite Hrc. simpl. rewrite submitted_app, emitted_app. simpl.
    rewrite (submitted_outer t3 Hout), (emitted_outer true t3 Hout),
      (submitted_inner t Hin). reflexivity.
  - simpl. rewrite (submitted_inner t Hin). reflexivity.
  - simpl. rewrite (submitted_inner t Hin). reflexivity.
Qed.

(** *** The properties *)

(** C1.  With a driver bound: a call of [Event] that finds the busy flag set
    appends its event to the queue and returns [true], and enters no loop.
    A call that finds the flag clear never has more than one drain loop
    active.  Its own event is the one call of [Event] made with the flag
    clear; the calls of [Event] in it are that one and then the calls made
    from inside [ProcessEvent].  At every point of it the events handed to
    [ProcessEvent] so far, followed by those still queued, are the events
    that were queued followed by those submitted, in the order of
    submission; and when it returns the queue is empty: what was queued,
    the event of the call and every event submitted from inside
    [ProcessEvent] have been processed, in that order, within the call.
    It returns, given fuel: when processing submits no event, and when the
    events that processing submits are bounded in number and each of a rank
    below that of the event being processed. *)
Theorem Event_serialises_delivery fuel e c drv :
  d c = Some drv ->
  (busy c = true ->
   Event fuel e c =
   (Done true, set_waitEvents (waitEvents c ++ [e]) c, [ObsSubmit true e]) /\
   drains_begun [ObsSubmit true e] = O) /\
  (busy c = false ->
   exists o c' t,
     Event fuel e c = (o, c', t) /\
     (forall msg, o <> Panic msg) /\
     (max_active 0 t <= 1)%nat /\
     (drains_begun t <= 1)%nat /\
     emitted false t = [e] /\
     submitted t = e :: emitted true t /\
     processed t ++ waitEvents c' = waitEvents c ++ submitted t /\
     (forall h, o = Done h ->
                busy c' = false /\ waitEvents c' = [] /\
                processed t = waitEvents c ++ e :: emitted true t) /\
     (window_is_quiet -> (List.length (waitEvents c) + 2 <= fuel)%nat ->
      exists h, o = Done h /\ processed t = waitEvents c ++ [e]) /\
     (forall rank B,
         window_is_bounded rank B ->
         (backlog rank B (waitEvents c ++ [e]) < fuel)%nat ->
         exists h, o = Done h)).
Proof.
  intros Hd. split; intros Hb.
  - split; [apply (Event_nested fuel e c drv Hd Hb) | reflexivity].
  - destruct (Event_top_spec fuel e c drv Hd Hb)
      as (o & c' & t & Hev & _ & Hnp & Hmax & Hbeg & Hfifo & Hem & Hdone & _ & Hqu).
    pose proof (Event_top_submitted fuel e c drv Hd Hb) as Hsub.
    rewrite Hev in Hsub. simpl in Hsub.
    exists o, c', t.
    split; [exact Hev|]. split; [exact Hnp|]. split; [exact Hmax|].
    split; [exact Hbeg|]. split; [exact Hem|]. split; [exact Hsub|].
    split; [exact Hfifo|]. split; [|split].
    + intros h Ho. destruct (Hdone h Ho) as [Hb' Hq].
      rewrite Hq, app_nil_r, Hsub in Hfifo. auto.
    + intros Hquiet Hlen. destruct (Hqu Hquiet Hlen) as (h & Ho & Hs).
      exists h. split; [exact Ho|].
      destruct (Hdone h Ho) as [_ Hq]. rewrite Hq, app_nil_r, Hs in Hfifo.
      exact Hfifo.
    + intros rank B HB Hlen.
      destruct (Event_top_bounded rank B fuel e c drv HB Hd Hb Hlen)
        as (h & c2 & t2 & Hev2).
      rewrite Hev in Hev2. injection Hev2 as -> _ _. exists h. reflexivity.
Qed.

(** C5.  [Event] called while no driver is bound panics with the message
    "event while no driver active"; the event is neither queued nor
    processed, and nothing else happens. *)
Theorem Event_without_driver_panics fuel e c :
  d c = None ->
  Event fuel e c = (Panic "event while no driver active", c, []) /\
  waitEvents (snd (fst (Event fuel e c))) = waitEvents c /\
  processed (snd (Event fuel e c)) = [].
Proof.
  intros Hd.
  assert (E : Event fuel e c = (Panic no_driver_msg, c, [])).
  { rewrite Event_eq, Hd. reflexivity. }
  rewrite E. repeat split.
Qed.

(** C2, as the code has it.  [SetEditorSnippet r] is a no-op that emits
    nothing when [r] is the current snippet range.  Otherwise it hands
    [SnippetEvent r] to [Event] and does not store [r]: the snippet range is
    what it was.  So, as long as the window has not changed the snippet range
    in between, a second call with the same [r] emits the event again. *)
Theorem SetEditorSnippet_emits_without_storing fuel r c drv :
  d c = Some drv -> ime_owned c ->
  (Snippet_Range (EditorState c) = r ->
   SetEditorSnippet fuel r c = (Done tt, c, [])) /\
  (Snippet_Range (EditorState c) <> r ->
   exists o c' t,
     SetEditorSnippet fuel r c = (o, c', t) /\
     (forall msg, o <> Panic msg) /\
     emitted (busy c) t = [SnippetEvent r] /\
     Snippet_Range (EditorState c') = Snippet_Range (EditorState c) /\
     (busy c = true -> o = Done tt) /\
     (window_is_quiet -> busy c = false ->
      (List.length (waitEvents c) + 2 <= fuel)%nat -> o = Done tt) /\
     (o = Done tt ->
      exists o2 c2 t2,
        SetEditorSnippet fuel r c' = (o2, c2, t2) /\
        emitted (busy c) (t ++ t2) = [SnippetEvent r; SnippetEvent r])).
Proof.
  intros Hd Hk. split; [apply SetEditorSnippet_same|]. intros Hne.
  destruct (SetEditorSnippet_other fuel r c drv Hd Hk Hne)
    as (o & c' & t & Hrun & Hd' & Hnp & Hst & Hem & Hb' & Hbusy & Hqu).
  exists o, c', t. split; [exact Hrun|]. split; [exact Hnp|].
  split; [exact Hem|]. split; [rewrite Hst; reflexivity|].
  split; [intros Hb; apply (Hbusy Hb)|].
  split; [intros Hq Hb Hlen; apply (Hqu Hq Hb Hlen)|].
  intros Ho.
  assert (Hd2 : d c' = Some drv) by congruence.
  assert (Hne2 : Snippet_Range (EditorState c') <> r) by (rewrite Hst; exact Hne).
  destruct (SetEditorSnippet_other fuel r c' drv Hd2
              (ime_owned_same c c' (Hb' Ho) Hk) Hne2)
    as (o2 & c2 & t2 & Hrun2 & _ & _ & _ & Hem2 & _).
  exists o2, c2, t2. split; [exact Hrun2|].
  rewrite emitted_app, Hem, <- (Hb' Ho), Hem2. reflexivity.
Qed.

(** C9.  [SetEditorSnippet r] assigns nothing: for every [r], whether it
    emits or not and however the call ends, the editor state (selection,
    composition and snippet ranges) is afterwards what it was, the window's
    own code apart: the call is made during a drain, or that code does not
    assign the editor state.  Called during a drain it leaves the whole
    window as it was. *)
Theorem SetEditorSnippet_keeps_EditorState fuel r c :
  ime_owned c ->
  exists o c' t,
    SetEditorSnippet fuel r c = (o, c', t) /\
    EditorState c' = EditorState c /\
    Selection_Range (EditorState c') = Selection_Range (EditorState c) /\
    Compose (EditorState c') = Compose (EditorState c) /\
    Snippet_Range (EditorState c') = Snippet_Range (EditorState c) /\
    (busy c = true -> w c' = w c).
Proof.
  intros Hk.
  assert (G : exists o c' t,
             SetEditorSnippet fuel r c = (o, c', t) /\
             EditorState c' = EditorState c /\ (busy c = true -> w c' = w c)).
  { destruct (Range_eqb (Snippet_Range (EditorState c)) r) eqn:E.
    - apply Range_eqb_eq in E. rewrite (SetEditorSnippet_same fuel r c E).
      exists (Done tt), c, []. auto.
    - assert (Hne : Snippet_Range (EditorState c) <> r).
      { intros H. apply Range_eqb_eq in H. congruence. }
      destruct (d c) as [drv|] eqn:Hd.
      + destruct (SetEditorSnippet_other fuel r c drv Hd Hk Hne)
          as (o & c' & t & Hrun & _ & _ & Hst & _ & _ & Hbusy & _).
        exists o, c', t. repeat split; auto. intros Hb. apply (Hbusy Hb).
      + unfold SetEditorSnippet. rewrite E, Event_then_ret, Event_eq, Hd.
        exists (Panic no_driver_msg), c, []. auto. }
  destruct G as (o & c' & t & Hrun & Hst & Hw).
  exists o, c', t. rewrite Hst. auto 10.
Qed.

(** C3.  [EditorInsert text] on a selection [(s, e)], reversed or not,
    returns with the selection collapsed at
    [min s e + RuneCountInString text], the count being of runes and not of
    bytes.  This is so when a driver is bound, the new offset is an [int],
    and the editor state is out of the window's reach (the call is made
    during a drain, or the window's code does not assign the editor state).
    The call returns whenever it is made during a drain, and from the top
    level whenever processing submits no events. *)
Theorem EditorInsert_collapses_selection fuel text c drv :
  d c = Some drv -> ime_owned c ->
  let sel := Selection_Range (EditorState c) in
  let pos := Z.min (Start sel) (End sel) + Utf8.RuneCountInString text in
  Int.in_range pos ->
  exists o c' t,
    EditorInsert fuel text c = (o, c', t) /\
    (forall msg, o <> Panic msg) /\
    (o = Done tt ->
     Selection_Range (EditorState c') = {| Start := pos; End := pos |}) /\
    (busy c = true -> o = Done tt) /\
    (window_is_quiet -> busy c = false ->
     (List.length (waitEvents c) + 2 <= fuel)%nat -> o = Done tt).
Proof.
  intros Hd Hk sel pos Hpos.
  pose proof (EditorInsert_spec fuel text c drv Hd Hk) as H. cbv zeta in H.
  fold (EditorState c) in H. fold sel in H.
  rewrite (insert_pos_min sel text Hpos) in H. fold pos in H.
  destruct (EditorInsert fuel text c) as [[o c'] t].
  destruct H as (_ & Hnp & Hdone & Hbusy & Hqu).
  exists o, c', t. split; [reflexivity|]. split; [exact Hnp|]. split; [|split].
  - intros Ho. apply done_unit in Ho. destruct (Hdone Ho) as (Hs & _).
    unfold EditorState. rewrite Hs. reflexivity.
  - intros Hb. apply done_unit, (Hbusy Hb).
  - intros Hq Hb Hlen. apply done_unit, (Hqu Hq Hb Hlen).
Qed.

(** C4.  With a driver bound and the editor state out of the window's reach,
    [EditorReplace r text] hands to [Event] first [EditEvent r text] and
    then a [SnippetEvent] with the snippet range that [Replace] left; and
    [EditorInsert "hi"] on the selection [(0,0)] hands over, in this order,
    [EditEvent (0,0) "hi"], that [SnippetEvent], and [SelectionEvent (2,2)],
    and leaves the selection at [(2,2)].  Called from the top level of a
    window whose processing submits nothing, both return and the window has
    processed exactly these events in this order. *)
Theorem EditorInsert_emission_order fuel c drv :
  d c = Some drv -> ime_owned c ->
  (forall r text,
      let sn := Snippet_Range (Replace (EditorState c) r text) in
      let evs := [EditEvent r text; SnippetEvent sn] in
      exists o c' t,
        EditorReplace fuel r text c = (o, c', t) /\
        (o = Done tt -> emitted (busy c) t = evs) /\
        (busy c = true ->
         o = Done tt /\ waitEvents c' = waitEvents c ++ evs) /\
        (window_is_quiet -> busy c = false ->
         (List.length (waitEvents c) + 2 <= fuel)%nat ->
         o = Done tt /\ processed t = waitEvents c ++ evs)) /\
  (Selection_Range (EditorState c) = {| Start := 0; End := 0 |} ->
   let zero := {| Start := 0; End := 0 |} in
   let two := {| Start := 2; End := 2 |} in
   let sn := Snippet_Range (Replace (EditorState c) zero "hi") in
   let evs := [EditEvent zero "hi"; SnippetEvent sn; SelectionEvent two] in
   exists o c' t,
     EditorInsert fuel "hi" c = (o, c', t) /\
     (o = Done tt ->
      emitted (busy c) t = evs /\ Selection_Range (EditorState c') = two) /\
     (busy c = true ->
      o = Done tt /\ waitEvents c' = waitEvents c ++ evs) /\
     (window_is_quiet -> busy c = false ->
      (List.length (waitEvents c) + 2 <= fuel)%nat ->
      o = Done tt /\ processed t = waitEvents c ++ evs)).
Proof.
  intros Hd Hk. split.
  - intros r text sn evs.
    pose proof (EditorReplace_spec fuel r text c drv Hd Hk) as H. cbv zeta in H.
    fold (EditorState c) in H. fold sn in H. fold evs in H.
    destruct (EditorReplace fuel r text c) as [[o c'] t].
    destruct H as (_ & _ & Hdone & Hbusy & Hqu).
    exists o, c', t. split; [reflexivity|]. split; [|split].
    + intros Ho. apply done_unit in Ho. apply (Hdone Ho).
    + intros Hb. destruct (Hbusy Hb) as (Ho & Hq & _). apply done_unit in Ho. auto.
    + intros Hq Hb Hlen. destruct (Hqu Hq Hb Hlen) as (Ho & _ & Hp).
      apply done_unit in Ho. auto.
  - intros Hsel zero two sn evs.
    pose proof (EditorInsert_spec fuel "hi" c drv Hd Hk) as H. cbv zeta in H.
    fold (EditorState c) in H. rewrite Hsel in H.
    change (insert_pos {| Start := 0; End := 0 |} "hi") with 2 in H.
    fold zero in H. fold two in H. fold sn in H. fold evs in H.
    destruct (EditorInsert fuel "hi" c) as [[o c'] t].
    destruct H as (_ & _ & Hdone & Hbusy & Hqu).
    exists o, c', t. split; [reflexivity|]. split; [|split].
    + intros Ho. apply done_unit in Ho.
      destruct (Hdone Ho) as (Hs & _ & _ & Hem).
      split; [exact Hem|]. unfold EditorState. rewrite Hs. reflexivity.
    + intros Hb. destruct (Hbusy Hb) as (Ho & Hq & _). apply done_unit in Ho. auto.
    + intros Hq Hb Hlen. destruct (Hqu Hq Hb Hlen) as (Ho & _ & Hp).
      apply done_unit in Ho. auto.
Qed.

(** C6.  A call of [Event WakeupEvent] that finds the flag clear, whose loop
    returns, and which then finds the window not destroyed and, after
    [UpdateState], a batch [opts] waiting on [Options]: it applies the
    options from left to right to a [Config] whose [Decorated] is the
    window's [Decorations.Enabled] (for [[A; B]] the result is [B] applied to
    the result of [A]), stores the resulting flag, and hands the driver
    [opts] followed by [DecoHeightOpt h], where [h] is zero when that flag is
    false and the window's decoration height otherwise. *)
Theorem Event_wakeup_folds_options fuel c drv handled c1 t1 opts ch :
  d c = Some drv -> busy c = false ->
  drain (Event fuel) fuel false
        (set_busy true (set_waitEvents (waitEvents c ++ [WakeupEvent]) c))
  = (Done handled, c1, t1) ->
  try_recv tt (Destroy (w c1)) = None ->
  let w2 := UpdateState (d c1) (w c1) in
  try_recv [] (Options w2) = Some (opts, ch) ->
  let seed := {| Decorated := Enabled (Decorations w2);
                 config_rest := ConfigRest_zero |} in
  let cnf := fold_left (fun cnf opt => opt (Metric_ w2) cnf) opts seed in
  let h := if Decorated cnf then Height (Decorations w2) else Dp_zero in
  exists c' t2,
    Event (S fuel) WakeupEvent c =
    (Done handled, c',
     ObsSubmit false WakeupEvent :: ObsDrainBegin :: t1 ++
     ObsDrainEnd :: ObsUpdateState ::
     ObsConfigure drv (opts ++ [DecoHeightOpt h]) :: t2) /\
    outer t2 = true /\
    Enabled (Decorations (w c')) = Decorated cnf /\
    (Decorated cnf = false -> h = Dp_zero) /\
    (forall A B, opts = [A; B] ->
                 cnf = B (Metric_ w2) (A (Metric_ w2) seed)).
Proof.
  intros Hd Hb Hdrain Hdestroy w2 Hopts seed cnf h.
  destruct (drain_spec fuel fuel false
              (set_busy true (set_waitEvents (waitEvents c ++ [WakeupEvent]) c))
              drv Hd eq_refl)
    as (o & c1' & t1' & Hdr & Hd1 & _).
  rewrite Hdrain in Hdr. injection Hdr as <- <- <-. simpl in Hd1.
  assert (Hd1' : d c1 = Some drv) by congruence.
  set (c2 := set_w w2 (set_busy false c1)).
  assert (Hd2 : d c2 = Some drv) by exact Hd1'.
  destruct (configure_pending c2 drv opts ch Hd2 Hopts) as (Hcfg & Hen).
  fold seed cnf h in Hcfg, Hen.
  set (c3 := set_w _ c2) in Hcfg.
  destruct (perform_spec c3 drv Hd2) as (c4 & t4 & Hp & Ho4 & _ & _ & _ & _).
  assert (Hdec : Decorations (w c4) = Decorations (w c3)).
  { unfold perform in Hp.
    destruct (try_recv Action_zero (Actions (w c3))) as [[acts ch']|].
    - change (d c3) with (d c2) in Hp. rewrite Hd2 in Hp.
      unfold bind, modify, tell in Hp. injection Hp as <- _. reflexivity.
    - injection Hp as <- _. reflexivity. }
  assert (R : reconcile WakeupEvent handled (set_busy false c1)
              = (Done handled, c4,
                 ObsUpdateState :: ObsConfigure drv (opts ++ [DecoHeightOpt h]) :: t4)).
  { unfold reconcile. change (w (set_busy false c1)) with (w c1).
    rewrite Hdestroy. unfold bind at 1. unfold modify at 1.
    unfold bind at 1. unfold tell at 1.
    change (is_WakeupEvent WakeupEvent) with true. cbv iota.
    change (set_w (UpdateState (d (set_busy false c1)) (w (set_busy false c1)))
                  (set_busy false c1)) with c2.
    unfold bind at 1. rewrite Hcfg.
    unfold bind at 1. rewrite Hp. unfold ret. simpl. rewrite app_nil_r.
    reflexivity. }
  exists c4, t4. split; [|split; [|split; [|split]]].
  - rewrite Event_eq, Hd, Hb. cbv zeta. rewrite Hdrain, R. reflexivity.
  - exact Ho4.
  - rewrite Hdec. exact Hen.
  - intros Hf. unfold h. rewrite Hf. reflexivity.
  - intros A B ->. reflexivity.
Qed.

(** C7.  When the window has no previous tree once its semantics are up to
    date, [AppendSemanticDiffs] returns the slice it was given, for every
    such slice; it returns a slice and nothing else, and the window is the
    one [UpdateSemantics] left. *)
Theorem AppendSemanticDiffs_first_frame diffs c :
  PrevTree (Semantic (UpdateSemantics (w c))) = [] ->
  AppendSemanticDiffs diffs c = (diffs, set_w (UpdateSemantics (w c)) c).
Proof.
  intros H. unfold AppendSemanticDiffs. cbv zeta.
  destruct (PrevTree (Semantic (UpdateSemantics (w c)))) as [|n tree] eqn:E.
  - reflexivity.
  - discriminate H.
Qed.

(** C8.  [SetDriver x] returns; it replaces the driver with [x], whatever
    the driver was, and hands the window [x]'s [Wakeup] method when [x] is a
    driver and the nil function when [x] is nil; invoking what the window
    then holds leads to a delivery of [WakeupEvent] by [x] in the first case
    and to nothing in the second.  It leaves the flag and the queue alone.
    After a second call the driver and the function the window holds are
    those of the second call alone. *)
Theorem SetDriver_rebinds_and_hands_wakeup x c :
  exists c',
    SetDriver x c = (Done tt, c', []) /\
    d c' = x /\
    WakeupFuncs (w c') = wakeup_of x /\
    invoke_wakeup (WakeupFuncs (w c')) =
    match x with
    | Some drv => [(drv, WakeupEvent)]
    | None => []
    end /\
    busy c' = busy c /\ waitEvents c' = waitEvents c /\
    ImeState (w c') = ImeState (w c) /\
    (forall y, exists c'',
        SetDriver y c' = (Done tt, c'', []) /\
        d c'' = y /\ WakeupFuncs (w c'') = wakeup_of y /\
        c'' = snd (fst (SetDriver y c))).
Proof.
  assert (Step : forall z c0,
            SetDriver z c0 =
            (Done tt, set_w (hand_wakeup (wakeup_of z) (w c0)) (set_d z c0), [])).
  { intros z c0. reflexivity. }
  eexists. split; [apply Step|]. simpl.
  split; [reflexivity|]. split; [reflexivity|].
  split; [destruct x; reflexivity|].
  split; [reflexivity|]. split; [reflexivity|]. split; [reflexivity|].
  intros y. eexists. split; [apply Step|]. simpl.
  split; [reflexivity|]. split; reflexivity.
Qed.

(** *** Further properties of the dispatcher *)

(** The calls made to the driver, in the order of the calls. *)
Definition is_driver_call (o : Obs) : bool :=
  match o with
  | ObsConfigure _ _ => true
  | ObsPerform _ _ => true
  | _ => false
  end.

Definition driver_calls (t : Trace) : Trace := filter is_driver_call t.

Definition is_Configure (o : Obs) : bool :=
  match o with ObsConfigure _ _ => true | _ => false end.

Definition is_Perform (o : Obs) : bool :=
  match o with ObsPerform _ _ => true | _ => false end.

Lemma driver_calls_app t1 t2 :
  driver_calls (t1 ++ t2) = driver_calls t1 ++ driver_calls t2.
Proof. apply filter_app. Qed.

Lemma driver_calls_inner t : inner t = true -> driver_calls t = [].
Proof.
  induction t as [|o r IH]; [reflexivity|].
  unfold inner. simpl. intros H. apply andb_prop in H as [Ho Hr].
  destruct o; simpl in *; try discriminate; auto.
Qed.

(** The two [select]s, each with its one or no call. *)
Lemma configure_calls c drv :
  d c = Some drv ->
  exists c' t,
    configure c = (Done tt, c', t) /\ d c' = d c /\
    (t = [] \/ exists opts, t = [ObsConfigure drv opts]).
Proof.
  intros Hd. unfold configure.
  destruct (try_recv [] (Options (w c))) as [[opts ch]|].
  - rewrite Hd. unfold_M. simpl. eexists _, _.
    split; [reflexivity|]. split; [exact Hd|]. right. eexists. reflexivity.
  - exists c, []. auto.
Qed.

Lemma perform_calls c drv :
  d c = Some drv ->
  exists c' t,
    perform c = (Done tt, c', t) /\
    (t = [] \/ exists acts, t = [ObsPerform drv acts]).
Proof.
  intros Hd. unfold perform.
  destruct (try_recv Action_zero (Actions (w c))) as [[acts ch]|].
  - rewrite Hd. unfold_M. simpl. eexists _, _.
    split; [reflexivity|]. right. eexists. reflexivity.
  - exists c, []. auto.
Qed.

Lemma reconcile_calls e handled c drv :
  d c = Some drv ->
  exists c' t,
    reconcile e handled c = (Done handled, c', t) /\
    (is_WakeupEvent e = false -> driver_calls t = []) /\
    exists cfg prf,
      driver_calls t = cfg ++ prf /\
      (List.length cfg <= 1)%nat /\ (List.length prf <= 1)%nat /\
      forallb is_Configure cfg = true /\ forallb is_Perform prf = true.
Proof.
  intros Hd. unfold reconcile.
  destruct (try_recv tt (Destroy (w c))) as [[u ch]|].
  - unfold_M. simpl. eexists _, _. split; [reflexivity|].
    split; [reflexivity|]. exists [], []. simpl. auto.
  - unfold bind at 1. unfold modify at 1. unfold bind at 1. unfold tell at 1.
    set (c1 := set_w (UpdateState (d c) (w c)) c).
    assert (Hd1 : d c1 = Some drv) by exact Hd.
    destruct (is_WakeupEvent e).
    + destruct (configure_calls c1 drv Hd1) as (c2 & t2 & Hc & Hd2 & Ht2).
      assert (Hd2' : d c2 = Some drv) by congruence.
      destruct (perform_calls c2 drv Hd2') as (c3 & t3 & Hp & Ht3).
      unfold bind. rewrite Hc, Hp. unfold ret. simpl. rewrite app_nil_r.
      eexists _, _. split; [reflexivity|]. split; [discriminate|].
      exists t2, t3. simpl.
      destruct Ht2 as [->|[opts ->]], Ht3 as [->|[acts ->]]; simpl;
        repeat split; auto.
    + unfold ret. simpl. eexists _, _. split; [reflexivity|].
      split; [reflexivity|]. exists [], []. simpl. auto.
Qed.

(** X6.  What [Event] asks of the driver.  With a driver bound, a call never
    configures or performs for an event other than [WakeupEvent], and never
    from inside a drain; for a [WakeupEvent] it makes at most one call of
    [Configure] and at most one of [Perform], the first before the second,
    however many batches are waiting. *)
Theorem Event_driver_calls fuel e c drv :
  d c = Some drv ->
  exists o c' t,
    Event fuel e c = (o, c', t) /\
    (is_WakeupEvent e = false -> driver_calls t = []) /\
    (busy c = true -> driver_calls t = []) /\
    exists cfg prf,
      driver_calls t = cfg ++ prf /\
      (List.length cfg <= 1)%nat /\ (List.length prf <= 1)%nat /\
      forallb is_Configure cfg = true /\ forallb is_Perform prf = true.
Proof.
  intros Hd. destruct (busy c) eqn:Hb.
  - rewrite (Event_nested fuel e c drv Hd Hb). eexists _, _, _.
    split; [reflexivity|]. simpl.
    split; [reflexivity|]. split; [reflexivity|].
    exists [], []. simpl. auto.
  - rewrite Event_eq, Hd, Hb. cbv zeta.
    set (c1 := set_waitEvents (waitEvents c ++ [e]) c).
    destruct fuel as [|n].
    + eexists _, _, _. split; [reflexivity|]. simpl.
      split; [reflexivity|]. split; [discriminate|].
      exists [], []. simpl. auto.
    + destruct (drain_spec n n false (set_busy true c1) drv Hd eq_refl)
        as (o & c2 & t & Hdr & Hd2 & _ & Hin & _ & Hnp & _).
      rewrite Hdr. simpl in Hd2.
      pose proof (driver_calls_inner t Hin) as Ht.
      destruct o as [h|msg|]; [|exfalso; exact (Hnp msg eq_refl)|].
      * destruct (reconcile_calls e h (set_busy false c2) drv)
          as (c3 & t3 & Hrc & Hnw & cfg & prf & Hcalls & Hrest);
          [simpl; congruence|].
        rewrite Hrc. eexists _, _, _. split; [reflexivity|].
        assert (E : driver_calls
                      (ObsSubmit false e :: ObsDrainBegin :: t ++ ObsDrainEnd :: t3)
                    = driver_calls t3).
        { change (driver_calls ([ObsSubmit false e; ObsDrainBegin] ++ t ++
                                [ObsDrainEnd] ++ t3) = driver_calls t3).
          rewrite !driver_calls_app, Ht. reflexivity. }
        rewrite E. split; [exact Hnw|]. split; [discriminate|].
        exists cfg, prf. split; [exact Hcalls | exact Hrest].
      * eexists _, _, _. split; [reflexivity|].
        assert (E : driver_calls (ObsSubmit false e :: ObsDrainBegin :: t) = []).
        { change (driver_calls ([ObsSubmit false e; ObsDrainBegin] ++ t) = []).
          rewrite driver_calls_app, Ht. reflexivity. }
        rewrite E. split; [reflexivity|]. split; [discriminate|].
        exists [], []. simpl. auto.
Qed.

(** X7.  Teardown.  When the loop of a top-level [Event] has returned and a
    receive from the window's [Destroy] channel succeeds, the call returns
    the loop's [handled] at once: no [UpdateState], no [Configure], no
    [Perform], for a [WakeupEvent] as for any other event, and the batches
    waiting on [Options] and [Actions] wait on. *)
Theorem Event_skips_reconcile_on_destroy fuel e c drv handled c1 t1 u ch :
  d c = Some drv -> busy c = false ->
  drain (Event fuel) fuel false
        (set_busy true (set_waitEvents (waitEvents c ++ [e]) c))
  = (Done handled, c1, t1) ->
  try_recv tt (Destroy (w c1)) = Some (u, ch) ->
  exists c',
    Event (S fuel) e c =
    (Done handled, c',
     ObsSubmit false e :: ObsDrainBegin :: t1 ++ [ObsDrainEnd]) /\
    c' = set_w (set_Destroy ch (w c1)) (set_busy false c1) /\
    Options (w c') = Options (w c1) /\
    Actions (w c') = Actions (w c1) /\
    Decorations (w c') = Decorations (w c1) /\
    ImeState (w c') = ImeState (w c1) /\
    busy c' = false.
Proof.
  intros Hd Hb Hdrain Hdestroy.
  eexists. split.
  - rewrite Event_eq, Hd, Hb. cbv zeta. rewrite Hdrain.
    unfold reconcile. change (w (set_busy false c1)) with (w c1).
    rewrite Hdestroy. unfold_M. simpl. reflexivity.
  - repeat split.
Qed.

(** The second [select] when a batch is waiting. *)
Lemma perform_pending c drv acts ch :
  d c = Some drv ->
  try_recv Action_zero (Actions (w c)) = Some (acts, ch) ->
  perform c = (Done tt, set_w (set_Actions ch (w c)) c, [ObsPerform drv acts]).
Proof.
  intros Hd Hacts. unfold perform. rewrite Hacts, Hd. reflexivity.
Qed.

Lemma configure_idle c :
  try_recv [] (Options (w c)) = None -> configure c = (Done tt, c, []).
Proof. intros H. unfold configure. rewrite H. reflexivity. Qed.

(** X8.  Actions.  A top-level [Event WakeupEvent] whose loop returns, and
    which then finds the window not destroyed, no batch on [Options] and a
    batch [acts] on [Actions]: it hands [acts] to the driver after the
    window's [UpdateState], takes the batch off the channel, and changes
    nothing else of the window that [UpdateState] left. *)
Theorem Event_wakeup_performs_actions fuel c drv handled c1 t1 acts ch :
  d c = Some drv -> busy c = false ->
  drain (Event fuel) fuel false
        (set_busy true (set_waitEvents (waitEvents c ++ [WakeupEvent]) c))
  = (Done handled, c1, t1) ->
  try_recv tt (Destroy (w c1)) = None ->
  let w2 := UpdateState (d c1) (w c1) in
  try_recv [] (Options w2) = None ->
  try_recv Action_zero (Actions w2) = Some (acts, ch) ->
  Event (S fuel) WakeupEvent c =
  (Done handled, set_w (set_Actions ch w2) (set_busy false c1),
   ObsSubmit false WakeupEvent :: ObsDrainBegin :: t1 ++
   [ObsDrainEnd; ObsUpdateState; ObsPerform drv acts]).
Proof.
  intros Hd Hb Hdrain Hdestroy w2 Hopts Hacts.
  destruct (drain_spec fuel fuel false
              (set_busy true (set_waitEvents (waitEvents c ++ [WakeupEvent]) c))
              drv Hd eq_refl)
    as (o & c1' & t1' & Hdr & Hd1 & _).
  rewrite Hdrain in Hdr. injection Hdr as <- <- <-. simpl in Hd1.
  assert (Hd1' : d c1 = Some drv) by congruence.
  set (c2 := set_w w2 (set_busy false c1)).
  assert (Hd2 : d c2 = Some drv) by exact Hd1'.
  rewrite Event_eq, Hd, Hb. cbv zeta. rewrite Hdrain.
  unfold reconcile. change (w (set_busy false c1)) with (w c1).
  rewrite Hdestroy. unfold bind at 1. unfold modify at 1.
  unfold bind at 1. unfold tell at 1.
  change (is_WakeupEvent WakeupEvent) with true. cbv iota.
  change (set_w (UpdateState (d (set_busy false c1)) (w (set_busy false c1)))
                (set_busy false c1)) with c2.
  unfold bind at 1. rewrite (configure_idle c2 Hopts).
  unfold bind at 1. rewrite (perform_pending c2 drv acts ch Hd2 Hacts).
  unfold ret. simpl. reflexivity.
Qed.

Lemma last_cons {A : Type} (l : list A) :
  forall x dflt, last (x :: l) dflt = last l x.
Proof.
  induction l as [|z l IH]; intros x dflt; [reflexivity|].
  change (last (x :: z :: l) dflt) with (last (z :: l) dflt).
  rewrite (IH z dflt), (IH z x). reflexivity.
Qed.

Lemma last_app_cons {A : Type} (l1 l2 : list A) x dflt :
  last (l1 ++ x :: l2) dflt = last l2 x.
Proof.
  induction l1 as [|y l1 IH]; [apply last_cons|].
  simpl app. rewrite last_cons.
  destruct l1 as [|y' l1]; [apply last_cons|].
  rewrite <- IH. simpl app. rewrite !last_cons. reflexivity.
Qed.

(** The last turn of a loop that returns.  Given one turn less than it
    takes, the loop stops with one event left in the queue; processing that
    event, from the state the loop has reached, submits nothing and gives
    the loop its result. *)
Lemma drain_last_turn :
  forall fuel n h0 c drv h c' t,
    d c = Some drv -> busy c = true -> waitEvents c <> [] ->
    drain (Event n) fuel h0 c = (Done h, c', t) ->
    exists k c_mid t1 e_last tp,
      (k < fuel)%nat /\
      drain (Event n) k h0 c = (Timeout, c_mid, t1) /\
      waitEvents c_mid = [e_last] /\
      run (Event n) (ProcessEvent (d c) e_last) (set_waitEvents [] c_mid)
      = (Done h, c', tp) /\
      processed tp = [] /\
      t = t1 ++ ObsProcess e_last :: tp.
Proof.
  induction fuel as [|fuel IH]; intros n h0 c drv h c' t Hd Hb Hq;
    rewrite drain_eq; destruct (waitEvents c) as [|e rest] eqn:Eq;
    try congruence; try discriminate.
  cbv zeta. set (c1 := set_waitEvents rest c).
  destruct (run_inside_loop (ProcessEvent (d c1) e) n c1 drv Hd Hb)
    as (h1 & c2 & calls & Hrun & Hd2 & Hb2 & Hq2 & _).
  rewrite Hrun.
  assert (Hd2' : d c2 = Some drv) by (rewrite Hd2; exact Hd).
  destruct (waitEvents c2) as [|e2 rest2] eqn:Eq2.
  - rewrite drain_eq, Eq2. intros E. injection E as <- <- <-.
    simpl in Hq2. symmetry in Hq2. apply app_eq_nil in Hq2 as [Hr Hc].
    exists O, c, [], e, (map (ObsSubmit true) calls).
    split; [lia|]. split; [rewrite drain_eq, Eq; reflexivity|].
    split; [rewrite Eq, Hr; reflexivity|].
    split; [unfold c1 in Hrun; rewrite Hr in Hrun; exact Hrun|].
    split; [apply processed_map_submit|].
    simpl. rewrite app_nil_r. reflexivity.
  - destruct (drain (Event n) fuel h1 c2) as [[o3 c3] t3] eqn:Hdr.
    intros E. injection E as -> <- <-.
    destruct (IH n h1 c2 drv h c3 t3 Hd2' Hb2) as
      (k & c_mid & t1 & e_last & tp & Hk & Hto & Hqm & Hr & Hp & Ht);
      [rewrite Eq2; discriminate | exact Hdr |].
    exists (S k), c_mid, (ObsProcess e :: map (ObsSubmit true) calls ++ t1),
      e_last, tp.
    split; [lia|]. split.
    { rewrite drain_eq, Eq. cbv zeta. fold c1. rewrite Hrun, Hto. reflexivity. }
    split; [exact Hqm|].
    split; [change (d c1) with (d c) in Hd2; rewrite <- Hd2; exact Hr|].
    split; [exact Hp|].
    rewrite Ht. simpl. rewrite <- app_assoc. reflexivity.
Qed.

(** X9.  The result of [Event].  A top-level call that returns hands back
    what [ProcessEvent] answered in the last turn of its loop.  That turn is
    tied to the run: the loop given one turn less stops, in the state
    [c_mid], with one event [e_last] queued; [ProcessEvent] on [e_last] from
    that state answers the result of the call and submits nothing; and what
    follows the loop starts in the state that this leaves.  [e_last] is the
    last event submitted from inside the loop, and the event of the call
    when none was: then, and with nothing queued before, the caller learns
    how its own event was handled, otherwise how another one was.  The call
    returns, given fuel, when the events that processing submits are
    bounded in number and each of a rank below that of the event being
    processed. *)
Theorem Event_returns_last_handled fuel e c drv :
  d c = Some drv -> busy c = false ->
  exists o c' t,
    Event fuel e c = (o, c', t) /\
    (forall h, o = Done h ->
       exists n k c_mid t1 e_last c_end tp t3,
         fuel = S n /\ (k < n)%nat /\
         drain (Event n) k false
               (set_busy true (set_waitEvents (waitEvents c ++ [e]) c))
         = (Timeout, c_mid, t1) /\
         waitEvents c_mid = [e_last] /\
         run (Event n) (ProcessEvent (d c) e_last) (set_waitEvents [] c_mid)
         = (Done h, c_end, tp) /\
         waitEvents c_end = [] /\
         reconcile e h (set_busy false c_end) = (Done h, c', t3) /\
         t = ObsSubmit false e :: ObsDrainBegin ::
             t1 ++ ObsProcess e_last :: tp ++ ObsDrainEnd :: t3 /\
         processed t = processed t1 ++ [e_last] /\
         e_last = last (emitted true t) e /\
         (emitted true t = [] -> waitEvents c = [] -> processed t = [e])) /\
    (forall rank B,
        window_is_bounded rank B ->
        (backlog rank B (waitEvents c ++ [e]) < fuel)%nat ->
        exists h, o = Done h).
Proof.
  intros Hd Hb.
  destruct (Event_top_spec fuel e c drv Hd Hb)
    as (o & c' & t & Hev & _ & _ & _ & _ & Hfifo & _ & Hdone & _).
  pose proof (Event_top_submitted fuel e c drv Hd Hb) as Hsub.
  rewrite Hev in Hsub. simpl in Hsub.
  exists o, c', t. split; [exact Hev|]. split.
  - intros h Ho. subst o.
    destruct (Hdone h eq_refl) as [_ Hq0].
    rewrite Hq0, app_nil_r, Hsub in Hfifo.
    revert Hev. rewrite Event_eq, Hd, Hb. cbv zeta.
    set (c1 := set_waitEvents (waitEvents c ++ [e]) c).
    destruct fuel as [|n]; [discriminate|].
    destruct (drain (Event n) n false (set_busy true c1))
      as [[[h1|msg|] c2] t2] eqn:Hdr; try discriminate.
    destruct (drain_spec n n false (set_busy true c1) drv Hd eq_refl)
      as (o & c2' & t2' & Hdr' & Hd2 & _ & _ & _ & _ & Hq2 & _).
    rewrite Hdr in Hdr'. injection Hdr' as <- <- <-. simpl in Hd2.
    destruct (reconcile_spec e h1 (set_busy false c2) drv)
      as (c3 & t3 & Hrc & Hout & _); [simpl; congruence|].
    rewrite Hrc. intros E. injection E as <- <- <-.
    destruct (drain_last_turn n n false (set_busy true c1) drv h1 c2 t2 Hd eq_refl)
      as (k & c_mid & t1 & e_last & tp & Hk & Hto & Hqm & Hr & Hp & Ht);
      [simpl; destruct (waitEvents c); discriminate | exact Hdr |].
    assert (Hproc : processed (ObsSubmit false e :: ObsDrainBegin :: t2
                               ++ ObsDrainEnd :: t3)
                    = processed t1 ++ [e_last]).
    { simpl. rewrite processed_app. simpl.
      rewrite (processed_outer t3 Hout), app_nil_r, Ht, processed_app. simpl.
      rewrite Hp. reflexivity. }
    exists n, k, c_mid, t1, e_last, c2, tp, t3.
    split; [reflexivity|]. split; [exact Hk|]. split; [exact Hto|].
    split; [exact Hqm|]. split; [rewrite <- Hd; exact Hr|].
    split; [exact (Hq2 h1 eq_refl)|]. split; [exact Hrc|].
    split; [rewrite Ht, <- app_assoc; reflexivity|].
    split; [exact Hproc|].
    rewrite Hproc in Hfifo. split.
    + assert (L : last (processed t1 ++ [e_last]) e = e_last)
        by apply last_last.
      rewrite Hfifo, last_app_cons in L. symmetry. exact L.
    + intros Hn Hq. rewrite Hproc, Hfifo, Hn, Hq. reflexivity.
  - intros rank B HB Hlen.
    destruct (Event_top_bounded rank B fuel e c drv HB Hd Hb Hlen)
      as (h & c2 & t2 & Hev2).
    rewrite Hev in Hev2. injection Hev2 as -> _ _. exists h. reflexivity.
Qed.

(** *** Further properties of the IME operations *)

(** X10.  Without a driver.  [SetComposingRegion] needs none: it stores the
    range and returns.  [SetEditorSnippet] returns when the range is the
    current snippet range and panics otherwise, the state untouched.  The
    operations that store before they emit panic with their store made and
    nothing emitted: [SetEditorSelection] has stored the range,
    [EditorReplace] has applied the replacement, and [EditorInsert] has
    applied the replacement and has not moved the selection. *)
Theorem IME_operations_without_driver fuel r text c :
  d c = None ->
  SetComposingRegion r c =
  (Done tt, with_ImeState (set_Compose r (ImeState (w c))) c, []) /\
  (Snippet_Range (EditorState c) = r ->
   SetEditorSnippet fuel r c = (Done tt, c, [])) /\
  (Snippet_Range (EditorState c) <> r ->
   SetEditorSnippet fuel r c = (Panic no_driver_msg, c, [])) /\
  SetEditorSelection fuel r c =
  (Panic no_driver_msg,
   with_ImeState (set_Selection_Range r (ImeState (w c))) c, []) /\
  EditorReplace fuel r text c =
  (Panic no_driver_msg, with_ImeState (Replace (ImeState (w c)) r text) c, []) /\
  EditorInsert fuel text c =
  (Panic no_driver_msg,
   with_ImeState
     (Replace (ImeState (w c)) (Selection_Range (ImeState (w c))) text) c, []).
Proof.
  intros Hd.
  assert (P : forall e s, Event fuel e (with_ImeState s c)
                          = (Panic no_driver_msg, with_ImeState s c, [])).
  { intros e s. rewrite Event_eq. simpl. rewrite Hd. reflexivity. }
  assert (R : forall r0, EditorReplace fuel r0 text c =
                         (Panic no_driver_msg,
                          with_ImeState (Replace (ImeState (w c)) r0 text) c, [])).
  { intros r0. unfold EditorReplace. unfold bind at 1. unfold modify at 1.
    unfold bind at 1.
    change (set_w (set_ImeState (Replace (ImeState (w c)) r0 text) (w c)) c)
      with (with_ImeState (Replace (ImeState (w c)) r0 text) c).
    rewrite P. reflexivity. }
  split; [reflexivity|].
  split; [apply SetEditorSnippet_same|].
  split.
  { intros Hne. unfold SetEditorSnippet.
    rewrite (Range_eqb_neq _ _ Hne), Event_then_ret, Event_eq, Hd. reflexivity. }
  split.
  { unfold SetEditorSelection. unfold bind at 1. unfold modify at 1.
    rewrite Event_then_ret.
    change (set_w (set_ImeState (set_Selection_Range r (ImeState (w c))) (w c)) c)
      with (with_ImeState (set_Selection_Range r (ImeState (w c))) c).
    rewrite P. reflexivity. }
  split; [apply R|].
  unfold EditorInsert. cbv zeta. unfold bind at 1. rewrite R. reflexivity.
Qed.

(** X11.  [SetEditorSelection] has no guard and does not normalise: with a
    driver bound it stores the range as it is given, reversed or not, and
    hands [SelectionEvent] with that same range to [Event], also when the
    range is the selection already; the composition and snippet ranges are
    left alone. *)
Theorem SetEditorSelection_stores_and_emits fuel r c drv :
  d c = Some drv -> ime_owned c ->
  exists o c' t,
    SetEditorSelection fuel r c = (o, c', t) /\
    (forall msg, o <> Panic msg) /\
    (o = Done tt ->
     Selection_Range (EditorState c') = r /\
     Compose (EditorState c') = Compose (EditorState c) /\
     Snippet_Range (EditorState c') = Snippet_Range (EditorState c) /\
     emitted (busy c) t = [SelectionEvent r]) /\
    (busy c = true ->
     o = Done tt /\ waitEvents c' = waitEvents c ++ [SelectionEvent r]) /\
    (window_is_quiet -> busy c = false ->
     (List.length (waitEvents c) + 2 <= fuel)%nat ->
     o = Done tt /\ processed t = waitEvents c ++ [SelectionEvent r]).
Proof.
  intros Hd Hk.
  pose proof (SetEditorSelection_spec fuel r c drv Hd Hk) as H.
  destruct (SetEditorSelection fuel r c) as [[o c'] t].
  destruct H as (_ & Hnp & Hdone & Hbusy & Hqu).
  exists o, c', t. split; [reflexivity|]. split; [exact Hnp|].
  split; [|split].
  - intros Ho. apply done_unit in Ho.
    destruct (Hdone Ho) as (Hs & _ & _ & Hem).
    unfold EditorState. rewrite Hs. simpl. auto.
  - intros Hb. destruct (Hbusy Hb) as (Ho & Hq & _). apply done_unit in Ho. auto.
  - intros Hq Hb Hlen. destruct (Hqu Hq Hb Hlen) as (Ho & _ & Hp).
    apply done_unit in Ho. auto.
Qed.

(** X12.  Where [EditorInsert] puts the caret, with no assumption on the
    size of the offsets.  The call does not panic; it returns when it is
    made during a drain, and from the top level, given fuel, when processing
    submits nothing; and when it returns the selection is collapsed at the
    [int] that the sum of the lower end of the old selection and the rune
    count of the text wraps to.  When the lower end and the lower end plus
    the length of the text in bytes are [int]s, nothing wraps: the caret is
    not before the lower end and not further from it than that length, it
    is at exactly that distance for a text of ASCII characters, and at the
    lower end for the empty text. *)
Theorem EditorInsert_caret fuel text c drv :
  d c = Some drv -> ime_owned c ->
  let sel := Selection_Range (EditorState c) in
  let m := Z.min (Start sel) (End sel) in
  let len := Z.of_nat (String.length text) in
  exists o c' t p,
    EditorInsert fuel text c = (o, c', t) /\
    (forall msg, o <> Panic msg) /\
    (busy c = true -> o = Done tt) /\
    (window_is_quiet -> busy c = false ->
     (List.length (waitEvents c) + 2 <= fuel)%nat -> o = Done tt) /\
    p = Int.wrap (m + Utf8.RuneCountInString text) /\
    Int.in_range p /\
    (o = Done tt ->
     Selection_Range (EditorState c') = {| Start := p; End := p |} /\
     (Int.in_range m -> Int.in_range (m + len) ->
      m <= Start (Selection_Range (EditorState c')) <= m + len /\
      (Utf8Facts.is_ascii text = true ->
       Selection_Range (EditorState c')
       = {| Start := m + len; End := m + len |}) /\
      (text = EmptyString ->
       Selection_Range (EditorState c') = {| Start := m; End := m |}))).
Proof.
  intros Hd Hk sel m len.
  pose proof (EditorInsert_spec fuel text c drv Hd Hk) as H. cbv zeta in H.
  fold (EditorState c) in H. fold sel in H.
  assert (E : insert_pos sel text = Int.wrap (m + Utf8.RuneCountInString text)).
  { unfold insert_pos, Int.add, m.
    destruct (Z.ltb_spec (End sel) (Start sel)); f_equal; lia. }
  rewrite E in H.
  destruct (EditorInsert fuel text c) as [[o c'] t].
  destruct H as (_ & Hnp & Hdone & Hbusy & Hqu).
  exists o, c', t, (Int.wrap (m + Utf8.RuneCountInString text)).
  split; [reflexivity|]. split; [exact Hnp|].
  split; [intros Hb'; apply done_unit, (Hbusy Hb')|].
  split; [intros Hq Hb' Hlen; apply done_unit, (Hqu Hq Hb' Hlen)|].
  split; [reflexivity|].
  split; [apply Int.wrap_in_range|].
  intros Ho. apply done_unit in Ho. destruct (Hdone Ho) as (Hs & _).
  assert (Hsel : Selection_Range (EditorState c')
                 = {| Start := Int.wrap (m + Utf8.RuneCountInString text);
                      End := Int.wrap (m + Utf8.RuneCountInString text) |}).
  { unfold EditorState. rewrite Hs. reflexivity. }
  split; [exact Hsel|].
  intros Hm Hml. rewrite Hsel. cbn [Start].
  pose proof (Utf8.RuneCountInString_bounds text) as B. fold len in B.
  assert (R : Int.in_range (m + Utf8.RuneCountInString text)).
  { unfold Int.in_range in *. lia. }
  rewrite (Int.wrap_small _ R). split; [lia|]. split.
  - intros Ha. rewrite (Utf8Facts.RuneCountInString_ascii text Ha). reflexivity.
  - intros ->. unfold Utf8.RuneCountInString. simpl. rewrite Z.add_0_r.
    reflexivity.
Qed.

(** X13.  Two inserts in a row.  The second starts from the caret the first
    left, so after [EditorInsert a] and [EditorInsert b] the selection is
    collapsed at the lower end of the first selection plus the rune counts
    of both texts (the offsets being [int]s): the caret has moved as for one
    insert of both texts.  Both calls return when they are made during a
    drain, and from the top level when processing submits nothing. *)
Theorem EditorInsert_twice fuel a b c drv :
  d c = Some drv -> ime_owned c ->
  let sel := Selection_Range (EditorState c) in
  let m := Z.min (Start sel) (End sel) in
  let p1 := m + Utf8.RuneCountInString a in
  let p2 := p1 + Utf8.RuneCountInString b in
  Int.in_range p1 -> Int.in_range p2 ->
  exists o1 c1 t1 o2 c2 t2,
    EditorInsert fuel a c = (o1, c1, t1) /\
    EditorInsert fuel b c1 = (o2, c2, t2) /\
    (o1 = Done tt -> o2 = Done tt ->
     Selection_Range (EditorState c2) = {| Start := p2; End := p2 |}) /\
    (busy c = true -> o1 = Done tt /\ o2 = Done tt) /\
    (window_is_quiet -> busy c = false ->
     (List.length (waitEvents c) + 2 <= fuel)%nat ->
     o1 = Done tt /\ o2 = Done tt).
Proof.
  intros Hd Hk sel m p1 p2 Hp1 Hp2.
  pose proof (EditorInsert_spec fuel a c drv Hd Hk) as H1. cbv zeta in H1.
  fold (EditorState c) in H1. fold sel in H1.
  rewrite (insert_pos_min sel a Hp1) in H1. fold m p1 in H1.
  destruct (EditorInsert fuel a c) as [[o1 c1] t1].
  destruct H1 as (Hd1 & _ & Hdone1 & Hbusy1 & Hqu1).
  assert (Hd1' : d c1 = Some drv) by congruence.
  destruct (EditorInsert fuel b c1) as [[o2 c2] t2] eqn:E2.
  exists o1, c1, t1, o2, c2, t2.
  split; [reflexivity|]. split; [exact E2|].
  assert (Second : done o1 ->
            (done o2 -> Selection_Range (EditorState c2) = {| Start := p2; End := p2 |})
            /\ (busy c = true -> done o2)
            /\ (window_is_quiet -> busy c = false -> (2 <= fuel)%nat -> done o2)).
  { intros Ho1. destruct (Hdone1 Ho1) as (Hs1 & Hb1 & Hq1 & _).
    pose proof (EditorInsert_spec fuel b c1 drv Hd1'
                  (ime_owned_same c c1 Hb1 Hk)) as H2.
    cbv zeta in H2. rewrite E2 in H2.
    assert (Hsel : Selection_Range (ImeState (w c1)) = {| Start := p1; End := p1 |}).
    { rewrite Hs1. reflexivity. }
    rewrite Hsel in H2.
    assert (Hpos : insert_pos {| Start := p1; End := p1 |} b = p2).
    { rewrite insert_pos_min; simpl; rewrite Z.min_id; [reflexivity | exact Hp2]. }
    rewrite Hpos in H2.
    destruct H2 as (_ & _ & Hdone2 & Hbusy2 & Hqu2).
    split; [|split].
    - intros Ho2. destruct (Hdone2 Ho2) as (Hs2 & _).
      unfold EditorState. rewrite Hs2. reflexivity.
    - intros Hb. apply Hbusy2. congruence.
    - intros Hq Hb Hf. apply (Hqu2 Hq); [congruence|].
      rewrite (Hq1 Hb). simpl. lia. }
  split; [|split].
  - intros Ho1 Ho2. apply done_unit in Ho1, Ho2.
    destruct (Second Ho1) as (S1 & _). exact (S1 Ho2).
  - intros Hb. destruct (Hbusy1 Hb) as (Ho1 & _).
    destruct (Second Ho1) as (_ & S2 & _).
    split; apply done_unit; [exact Ho1 | exact (S2 Hb)].
  - intros Hq Hb Hlen. destruct (Hqu1 Hq Hb Hlen) as (Ho1 & _).
    destruct (Second Ho1) as (_ & _ & S3).
    split; apply done_unit; [exact Ho1 | apply (S3 Hq Hb); lia].
Qed.

End Callbacks.

Arguments Done {A} a.
Arguments Panic {A} msg.
Arguments Timeout {A}.
Arguments Ret {Driver Payload Metric Action SemanticID SemanticNode Dp
               ImeRest ConfigRest WindowRest A} a.
Arguments Call {Driver Payload Metric Action SemanticID SemanticNode Dp
                ImeRest ConfigRest WindowRest A} e k.
Arguments Get {Driver Payload Metric Action SemanticID SemanticNode Dp
               ImeRest ConfigRest WindowRest A} k.
Arguments Modify {Driver Payload Metric Action SemanticID SemanticNode Dp
                  ImeRest ConfigRest WindowRest A} f k.
Arguments buf {A} _.
Arguments closed {A} _.
Arguments Build_chan {A} buf closed.

End App.

(* ================================================================= *)
(** ** Test windows

    Two windows to run the dispatcher on.  Drivers, semantic nodes and other
    events are numbers, a height is an integer, and the rest of a [Config] is
    the height that [DecoHeightOpt] stores in it. *)

Module Stub.

Import App.

Definition StubWindow : Type :=
  @Window nat unit nat nat nat Z unit Z unit.
Definition StubCallbacks : Type :=
  @callbacks nat nat unit nat nat nat Z unit Z unit.
Definition StubProc : Type :=
  @Proc nat nat unit nat nat nat Z unit Z unit bool.

(** [Replace] of the test windows: the snippet range becomes the extent of
    the replaced text; nothing else is tracked. *)
Definition replace_stub (s : @EditorStateT unit) (r : Range) (text : string)
  : @EditorStateT unit :=
  {| Selection_Range := Selection_Range s;
     Compose := Compose s;
     Snippet_Range :=
       {| Start := Z.min (Start r) (End r);
          End := Z.min (Start r) (End r) + Utf8.RuneCountInString text |};
     ime_rest := tt |}.

Definition height_opt (h : Z) : @OptionT unit Z :=
  fun _ cnf => {| Decorated := Decorated cnf; config_rest := h |}.

(** A window whose processing does nothing and submits nothing. *)
Definition quiet_process (dv : option nat) (e : @EventT nat) : StubProc :=
  Ret true.

(** A window whose processing submits further events: event 0 submits 1 and
    then 2, and event 1 submits 3. *)
Definition ev (n : nat) : @EventT nat := OtherEvent n.

Definition chatty_process (dv : option nat) (e : @EventT nat) : StubProc :=
  match e with
  | OtherEvent O =>
      Call (ev 1) (fun _ => Call (ev 2) (fun _ => Ret true))
  | OtherEvent (S O) => Call (ev 3) (fun _ => Ret true)
  | _ => Ret false
  end.

Definition env_of (process : option nat -> @EventT nat -> StubProc)
  : @Collaborators nat nat unit nat nat nat Z unit Z unit :=
  {| ProcessEvent := process;
     UpdateState := fun _ v => v;
     Replace := replace_stub;
     DecoHeightOpt := height_opt;
     UpdateSemantics := fun v => v;
     CollectSemanticDiffs := fun v diffs n => (v, diffs ++ [n]);
     Dp_zero := 0;
     Action_zero := O;
     ConfigRest_zero := 0 |}.

Definition quiet_env := env_of quiet_process.
Definition chatty_env := env_of chatty_process.

Definition open_chan {A : Type} (l : list A) : chan A :=
  {| buf := l; closed := false |}.

Definition range (s e : Z) : Range := {| Start := s; End := e |}.

(** A window with the selection [sel], decorations 30 high and enabled, and
    [opts] waiting on its [Options] channel. *)
Definition window_with (sel : Range) (opts : list (list (@OptionT unit Z)))
  : StubWindow :=
  {| ImeState := {| Selection_Range := sel; Compose := range (-1) (-1);
                    Snippet_Range := range 0 0; ime_rest := tt |};
     Decorations := {| Enabled := true; Height := 30 |};
     Metric_ := tt;
     Options := open_chan opts;
     Actions := open_chan [];
     Destroy := open_chan [];
     WakeupFuncs := NilFunc;
     Semantic := {| Root := O; PrevTree := [] |};
     win_rest := tt |}.

(** An idle dispatcher bound to driver 1, and one in the middle of a drain. *)
Definition idle (v : StubWindow) : StubCallbacks :=
  {| w := v; d := Some 1%nat; busy := false; waitEvents := [] |}.
Definition draining (v : StubWindow) (q : list (@EventT nat)) : StubCallbacks :=
  {| w := v; d := Some 1%nat; busy := true; waitEvents := q |}.
Definition unbound (v : StubWindow) : StubCallbacks :=
  {| w := v; d := None; busy := false; waitEvents := [] |}.

Lemma quiet_env_is_quiet : window_is_quiet (env := quiet_env).
Proof. intros dv e. constructor. Qed.

Lemma quiet_env_keeps_ImeState : window_keeps_ImeState (env := quiet_env).
Proof. split; [intros dv e; constructor | intros dv v; reflexivity]. Qed.

Lemma quiet_env_owns_ImeState c : ime_owned (env := quiet_env) c.
Proof. right. exact quiet_env_keeps_ImeState. Qed.

Lemma chatty_env_keeps_ImeState : window_keeps_ImeState (env := chatty_env).
Proof.
  split; [|intros dv v; reflexivity].
  intros dv e. simpl. unfold chatty_process.
  destruct e as [| | | |[|[|n]]]; repeat constructor.
Qed.

(** The chatty window, event 0 delivered from the top level: four events are
    processed, in the order in which they were submitted, inside one drain
    loop; the result is that of the last event processed. *)
Example chatty_run :
  let '(o, c', t) :=
    Event (env := chatty_env) 5 (ev 0) (idle (window_with (range 0 0) [])) in
  o = Done false /\
  c' = idle (window_with (range 0 0) []) /\
  processed t = [ev 0; ev 1; ev 2; ev 3] /\
  submitted t = [ev 0; ev 1; ev 2; ev 3] /\
  max_active 0 t = 1%nat /\ drains_begun t = 1%nat.
Proof. vm_compute. repeat split. Qed.

(** With too little fuel the same run stops in the middle of the loop; what
    was processed is still a prefix of what was submitted. *)
Example chatty_run_short :
  let '(o, c', t) :=
    Event (env := chatty_env) 3 (ev 0) (idle (window_with (range 0 0) [])) in
  o = Timeout /\
  processed t = [ev 0; ev 1] /\
  waitEvents c' = [ev 2; ev 3] /\
  submitted t = [ev 0; ev 1; ev 2; ev 3].
Proof. vm_compute. repeat split. Qed.

Definition v0 : StubWindow := window_with (range 0 0) [].

(** Runs of the IME operations on the quiet window. *)
Example insert_abc :
  let '(o, c', t) :=
    EditorInsert (env := quiet_env) 2 "abc" (idle (window_with (range 3 3) [])) in
  o = Done tt /\
  Selection_Range (EditorState c') = range 6 6 /\
  processed t =
  [EditEvent (range 3 3) "abc"; SnippetEvent (range 3 6); SelectionEvent (range 6 6)].
Proof. vm_compute. repeat split. Qed.

Example insert_umlauts :
  let '(o, c', t) :=
    EditorInsert (env := quiet_env) 2 Utf8.a_o_u_umlaut (idle v0) in
  o = Done tt /\
  String.length Utf8.a_o_u_umlaut = 6%nat /\
  Selection_Range (EditorState c') = range 3 3.
Proof. vm_compute. repeat split. Qed.

Example insert_reversed :
  let '(o, c', t) :=
    EditorInsert (env := quiet_env) 2 "abc" (idle (window_with (range 5 2) [])) in
  o = Done tt /\ Selection_Range (EditorState c') = range 5 5.
Proof. vm_compute. repeat split. Qed.

Example insert_hi :
  let '(o, c', t) := EditorInsert (env := quiet_env) 2 "hi" (idle v0) in
  o = Done tt /\
  submitted t =
  [EditEvent (range 0 0) "hi"; SnippetEvent (range 0 2); SelectionEvent (range 2 2)] /\
  processed t = submitted t /\
  Selection_Range (EditorState c') = range 2 2.
Proof. vm_compute. repeat split. Qed.

(** Called from inside a drain, the three events of an insert join the queue
    behind what is waiting there. *)
Example insert_hi_nested :
  let '(o, c', t) :=
    EditorInsert (env := chatty_env) 0 "hi" (draining v0 [ev 7]) in
  o = Done tt /\
  waitEvents c' =
  [ev 7; EditEvent (range 0 0) "hi"; SnippetEvent (range 0 2);
   SelectionEvent (range 2 2)] /\
  processed t = [].
Proof. vm_compute. repeat split. Qed.

(** Options that show the order of a fold: the first disables decorations,
    the second toggles them. *)
Definition opt_off : @OptionT unit Z :=
  fun _ cnf => {| Decorated := false; config_rest := config_rest cnf |}.
Definition opt_toggle : @OptionT unit Z :=
  fun _ cnf => {| Decorated := negb (Decorated cnf); config_rest := config_rest cnf |}.

Example wakeup_off_then_toggle :
  let '(o, c', t) :=
    Event (env := quiet_env) 2 WakeupEvent
          (idle (window_with (range 0 0) [[opt_off; opt_toggle]])) in
  o = Done true /\
  Decorations (w c') = {| Enabled := true; Height := 30 |} /\
  t = [ObsSubmit false WakeupEvent; ObsDrainBegin; ObsProcess WakeupEvent;
       ObsDrainEnd; ObsUpdateState;
       ObsConfigure 1%nat [opt_off; opt_toggle; height_opt 30]].
Proof. vm_compute. repeat split. Qed.

Example wakeup_toggle_then_off :
  let '(o, c', t) :=
    Event (env := quiet_env) 2 WakeupEvent
          (idle (window_with (range 0 0) [[opt_toggle; opt_off]])) in
  o = Done true /\
  Decorations (w c') = {| Enabled := false; Height := 30 |} /\
  t = [ObsSubmit false WakeupEvent; ObsDrainBegin; ObsProcess WakeupEvent;
       ObsDrainEnd; ObsUpdateState;
       ObsConfigure 1%nat [opt_toggle; opt_off; height_opt 0]].
Proof. vm_compute. repeat split. Qed.

(** An event other than [WakeupEvent] leaves the waiting batch alone. *)
Example other_event_skips_options :
  let '(o, c', t) :=
    Event (env := quiet_env) 2 (ev 4)
          (idle (window_with (range 0 0) [[opt_off]])) in
  o = Done true /\ c' = idle (window_with (range 0 0) [[opt_off]]) /\
  t = [ObsSubmit false (ev 4); ObsDrainBegin; ObsProcess (ev 4);
       ObsDrainEnd; ObsUpdateState].
Proof. vm_compute. repeat split. Qed.

(** With a previous tree, the diffs of its root are collected. *)
Definition with_PrevTree (tree : list nat) (v : StubWindow) : StubWindow :=
  {| ImeState := ImeState v; Decorations := Decorations v; Metric_ := Metric_ v;
     Options := Options v; Actions := Actions v; Destroy := Destroy v;
     WakeupFuncs := WakeupFuncs v;
     Semantic := {| Root := Root (Semantic v); PrevTree := tree |};
     win_rest := win_rest v |}.

Example diffs_with_previous_tree :
  fst (AppendSemanticDiffs (env := quiet_env) [4; 5]%nat
         (idle (with_PrevTree [9; 8]%nat v0))) = [4; 5; 9]%nat.
Proof. reflexivity. Qed.

(** *** Instances of the properties, and where the code departs from the
    specification *)

(** The ranks of the chatty window's events: event 0 submits 1 and 2, and
    event 1 submits 3. *)
Definition chatty_rank (e : @EventT nat) : nat :=
  match e with
  | OtherEvent O => 2%nat
  | OtherEvent (S O) => 1%nat
  | _ => 0%nat
  end.

Lemma chatty_env_is_bounded : window_is_bounded (env := chatty_env) chatty_rank 2.
Proof.
  intros dv e. simpl. unfold chatty_process.
  destruct e as [| | | |[|[|n]]]; simpl; repeat constructor.
Qed.

(** C1 at the chatty window: a nested call, and a top-level delivery of
    event 0, which returns after the four events have been processed in the
    order of their submission. *)
Lemma Event_serialises_delivery_witness :
  d (draining v0 [ev 7]) = Some 1%nat /\
  busy (draining v0 [ev 7]) = true /\
  Event (env := chatty_env) 0 (ev 8) (draining v0 [ev 7]) =
  (Done true, draining v0 [ev 7; ev 8], [ObsSubmit true (ev 8)]) /\
  d (idle v0) = Some 1%nat /\
  busy (idle v0) = false /\
  window_is_bounded (env := chatty_env) chatty_rank 2 /\
  (backlog chatty_rank 2 (waitEvents (idle v0) ++ [ev 0]) < 8)%nat /\
  exists h c' t,
    Event (env := chatty_env) 8 (ev 0) (idle v0) = (Done h, c', t) /\
    busy c' = false /\ waitEvents c' = [] /\
    (max_active 0 t <= 1)%nat /\
    (drains_begun t <= 1)%nat /\
    emitted false t = [ev 0] /\
    emitted true t = [ev 1; ev 2; ev 3] /\
    submitted t = [ev 0; ev 1; ev 2; ev 3] /\
    processed t = [ev 0; ev 1; ev 2; ev 3].
Proof.
  split; [reflexivity|]. split; [reflexivity|]. split.
  { exact (proj1 (proj1 (Event_serialises_delivery (env := chatty_env)
                           0 (ev 8) (draining v0 [ev 7]) 1%nat eq_refl) eq_refl)). }
  split; [reflexivity|]. split; [reflexivity|].
  split; [exact chatty_env_is_bounded|].
  assert (Hfuel : (backlog chatty_rank 2 (waitEvents (idle v0) ++ [ev 0]) < 8)%nat)
    by (vm_compute; lia).
  split; [exact Hfuel|].
  destruct (proj2 (Event_serialises_delivery (env := chatty_env)
                     8 (ev 0) (idle v0) 1%nat eq_refl) eq_refl)
    as (o & c' & t & Hev & _ & Hmax & Hbeg & Hem & Hsub & _ & Hdone & _ & Hbounded).
  destruct (Hbounded chatty_rank 2%nat chatty_env_is_bounded Hfuel) as (h & ->).
  destruct (Hdone h eq_refl) as (Hb & Hq & Hp).
  assert (Hnested : emitted true t = [ev 1; ev 2; ev 3]).
  { vm_compute in Hev. injection Hev as _ _ <-. reflexivity. }
  exists h, c', t. rewrite Hsub, Hp, Hnested.
  split; [exact Hev|]. split; [exact Hb|]. split; [exact Hq|].
  split; [exact Hmax|]. split; [exact Hbeg|]. split; [exact Hem|].
  repeat split.
Defined.

(** C5 at a dispatcher with no driver. *)
Lemma Event_without_driver_panics_witness :
  d (unbound v0) = None /\
  Event (env := quiet_env) 3 (ev 0) (unbound v0) =
  (Panic "event while no driver active", unbound v0, []).
Proof.
  split; [reflexivity|].
  exact (proj1 (Event_without_driver_panics (env := quiet_env)
                  3 (ev 0) (unbound v0) eq_refl)).
Defined.

(** C2, where the code departs from the specification: on the quiet window,
    whose snippet range is [(0,0)], [SetEditorSnippet (1,2)] returns with the
    snippet range still [(0,0)], and a second call emits a second
    [SnippetEvent]: two events, not one. *)
Lemma SetEditorSnippet_twice_emits_twice :
  let '(o1, c1, t1) := SetEditorSnippet (env := quiet_env) 2 (range 1 2) (idle v0) in
  let '(o2, c2, t2) := SetEditorSnippet (env := quiet_env) 2 (range 1 2) c1 in
  o1 = Done tt /\ o2 = Done tt /\
  Snippet_Range (EditorState c1) = range 0 0 /\
  Range_eqb (Snippet_Range (EditorState c1)) (range 1 2) = false /\
  submitted (t1 ++ t2) = [SnippetEvent (range 1 2); SnippetEvent (range 1 2)] /\
  processed (t1 ++ t2) = [SnippetEvent (range 1 2); SnippetEvent (range 1 2)] /\
  List.length (submitted (t1 ++ t2)) = 2%nat.
Proof. vm_compute. repeat split. Qed.

(** C2, as amended, at the quiet window. *)
Lemma SetEditorSnippet_emits_without_storing_witness :
  d (idle v0) = Some 1%nat /\
  ime_owned (env := quiet_env) (idle v0) /\
  Snippet_Range (EditorState (idle v0)) <> range 1 2 /\
  exists o c' t,
    SetEditorSnippet (env := quiet_env) 2 (range 1 2) (idle v0) = (o, c', t) /\
    (forall msg, o <> Panic msg) /\
    emitted (busy (idle v0)) t = [SnippetEvent (range 1 2)] /\
    Snippet_Range (EditorState c') = Snippet_Range (EditorState (idle v0)) /\
    (busy (idle v0) = true -> o = Done tt) /\
    (window_is_quiet (env := quiet_env) -> busy (idle v0) = false ->
     (List.length (waitEvents (idle v0)) + 2 <= 2)%nat -> o = Done tt) /\
    (o = Done tt ->
     exists o2 c2 t2,
       SetEditorSnippet (env := quiet_env) 2 (range 1 2) c' = (o2, c2, t2) /\
       emitted (busy (idle v0)) (t ++ t2) =
       [SnippetEvent (range 1 2); SnippetEvent (range 1 2)]).
Proof.
  assert (Hne : Snippet_Range (EditorState (idle v0)) <> range 1 2)
    by (intros H; discriminate H).
  split; [reflexivity|]. split; [exact (quiet_env_owns_ImeState (idle v0))|].
  split; [exact Hne|].
  exact (proj2 (SetEditorSnippet_emits_without_storing (env := quiet_env)
                  2 (range 1 2) (idle v0) 1%nat eq_refl (quiet_env_owns_ImeState (idle v0)))
               Hne).
Defined.

(** C9 at the quiet window. *)
Lemma SetEditorSnippet_keeps_EditorState_witness :
  ime_owned (env := quiet_env) (idle v0) /\
  exists o c' t,
    SetEditorSnippet (env := quiet_env) 2 (range 1 2) (idle v0) = (o, c', t) /\
    EditorState c' = EditorState (idle v0) /\
    Selection_Range (EditorState c') = Selection_Range (EditorState (idle v0)) /\
    Compose (EditorState c') = Compose (EditorState (idle v0)) /\
    Snippet_Range (EditorState c') = Snippet_Range (EditorState (idle v0)) /\
    (busy (idle v0) = true -> w c' = w (idle v0)).
Proof.
  split; [exact (quiet_env_owns_ImeState (idle v0))|].
  exact (SetEditorSnippet_keeps_EditorState (env := quiet_env)
           2 (range 1 2) (idle v0) (quiet_env_owns_ImeState (idle v0))).
Defined.

(** C3 at the quiet window, for the three two-byte runes. *)
Lemma EditorInsert_collapses_selection_witness :
  d (idle v0) = Some 1%nat /\
  ime_owned (env := quiet_env) (idle v0) /\
  Int.in_range (Z.min 0 0 + Utf8.RuneCountInString Utf8.a_o_u_umlaut) /\
  Utf8.RuneCountInString Utf8.a_o_u_umlaut = 3 /\
  exists o c' t,
    EditorInsert (env := quiet_env) 2 Utf8.a_o_u_umlaut (idle v0) = (o, c', t) /\
    (forall msg, o <> Panic msg) /\
    (o = Done tt ->
     Selection_Range (EditorState c') =
     {| Start := Z.min 0 0 + Utf8.RuneCountInString Utf8.a_o_u_umlaut;
        End := Z.min 0 0 + Utf8.RuneCountInString Utf8.a_o_u_umlaut |}) /\
    (busy (idle v0) = true -> o = Done tt) /\
    (window_is_quiet (env := quiet_env) -> busy (idle v0) = false ->
     (List.length (waitEvents (idle v0)) + 2 <= 2)%nat -> o = Done tt).
Proof.
  assert (Hr : Int.in_range (Z.min 0 0 + Utf8.RuneCountInString Utf8.a_o_u_umlaut))
    by (vm_compute; split; discriminate).
  split; [reflexivity|]. split; [exact (quiet_env_owns_ImeState (idle v0))|].
  split; [exact Hr|]. split; [reflexivity|].
  exact (EditorInsert_collapses_selection (env := quiet_env)
           2 Utf8.a_o_u_umlaut (idle v0) 1%nat eq_refl (quiet_env_owns_ImeState (idle v0)) Hr).
Defined.

(** C4 at the quiet window. *)
Lemma EditorInsert_emission_order_witness :
  d (idle v0) = Some 1%nat /\
  ime_owned (env := quiet_env) (idle v0) /\
  Selection_Range (EditorState (idle v0)) = {| Start := 0; End := 0 |} /\
  exists o c' t,
    EditorInsert (env := quiet_env) 2 "hi" (idle v0) = (o, c', t) /\
    (o = Done tt ->
     emitted (busy (idle v0)) t =
     [EditEvent (range 0 0) "hi";
      SnippetEvent (Snippet_Range (Replace (Collaborators := quiet_env) (EditorState (idle v0)) (range 0 0) "hi"));
      SelectionEvent (range 2 2)] /\
     Selection_Range (EditorState c') = range 2 2) /\
    (busy (idle v0) = true ->
     o = Done tt /\
     waitEvents c' =
     waitEvents (idle v0) ++
     [EditEvent (range 0 0) "hi";
      SnippetEvent (Snippet_Range (Replace (Collaborators := quiet_env) (EditorState (idle v0)) (range 0 0) "hi"));
      SelectionEvent (range 2 2)]) /\
    (window_is_quiet (env := quiet_env) -> busy (idle v0) = false ->
     (List.length (waitEvents (idle v0)) + 2 <= 2)%nat ->
     o = Done tt /\
     processed t =
     waitEvents (idle v0) ++
     [EditEvent (range 0 0) "hi";
      SnippetEvent (Snippet_Range (Replace (Collaborators := quiet_env) (EditorState (idle v0)) (range 0 0) "hi"));
      SelectionEvent (range 2 2)]).
Proof.
  split; [reflexivity|]. split; [exact (quiet_env_owns_ImeState (idle v0))|].
  split; [reflexivity|].
  exact (proj2 (EditorInsert_emission_order (env := quiet_env)
                  2 (idle v0) 1%nat eq_refl (quiet_env_owns_ImeState (idle v0))) eq_refl).
Defined.

(** C6 at the quiet window, with the batch [[opt_toggle; opt_off]] waiting:
    the flag ends false and the height handed over is zero. *)
Lemma Event_wakeup_folds_options_witness :
  let c := idle (window_with (range 0 0) [[opt_toggle; opt_off]]) in
  let c1 := draining (window_with (range 0 0) [[opt_toggle; opt_off]]) [] in
  let w2 := UpdateState (Collaborators := quiet_env) (d c1) (w c1) in
  let seed := {| Decorated := Enabled (Decorations w2); config_rest := 0 |} in
  let cnf := opt_off tt (opt_toggle tt seed) in
  d c = Some 1%nat /\
  busy c = false /\
  drain (env := quiet_env) (Event (env := quiet_env) 1) 1 false
        (set_busy true (set_waitEvents (waitEvents c ++ [WakeupEvent]) c))
  = (Done true, c1, [ObsProcess WakeupEvent]) /\
  try_recv tt (Destroy (w c1)) = None /\
  try_recv [] (Options w2) = Some ([opt_toggle; opt_off], open_chan []) /\
  Decorated cnf = false /\
  exists c' t2,
    Event (env := quiet_env) 2 WakeupEvent c =
    (Done true, c',
     ObsSubmit false WakeupEvent :: ObsDrainBegin :: [ObsProcess WakeupEvent] ++
     ObsDrainEnd :: ObsUpdateState ::
     ObsConfigure 1%nat
       ([opt_toggle; opt_off] ++
        [DecoHeightOpt (Collaborators := quiet_env)
           (if Decorated (fold_left (fun cnf opt => opt (Metric_ w2) cnf)
                                    [opt_toggle; opt_off] seed)
            then Height (Decorations w2) else 0)]) :: t2) /\
    outer t2 = true /\
    Enabled (Decorations (w c')) =
    Decorated (fold_left (fun cnf opt => opt (Metric_ w2) cnf)
                         [opt_toggle; opt_off] seed) /\
    (Decorated (fold_left (fun cnf opt => opt (Metric_ w2) cnf)
                          [opt_toggle; opt_off] seed) = false ->
     (if Decorated (fold_left (fun cnf opt => opt (Metric_ w2) cnf)
                              [opt_toggle; opt_off] seed)
      then Height (Decorations w2) else 0) = 0) /\
    (forall A B, [opt_toggle; opt_off] = [A; B] ->
                 fold_left (fun cnf opt => opt (Metric_ w2) cnf)
                           [opt_toggle; opt_off] seed
                 = B (Metric_ w2) (A (Metric_ w2) seed)).
Proof.
  intros c c1 w2 seed cnf.
  split; [reflexivity|]. split; [reflexivity|]. split; [reflexivity|].
  split; [reflexivity|]. split; [reflexivity|]. split; [reflexivity|].
  exact (Event_wakeup_folds_options (env := quiet_env) 1 c 1%nat true c1
           [ObsProcess WakeupEvent] [opt_toggle; opt_off] (open_chan [])
           eq_refl eq_refl eq_refl eq_refl eq_refl).
Defined.

(** C7 at a window with no previous tree. *)
Lemma AppendSemanticDiffs_first_frame_witness :
  PrevTree (Semantic (UpdateSemantics (Collaborators := quiet_env) (w (idle v0)))) = [] /\
  AppendSemanticDiffs (env := quiet_env) [4; 5]%nat (idle v0) =
  ([4; 5]%nat, set_w (UpdateSemantics (Collaborators := quiet_env) (w (idle v0))) (idle v0)).
Proof.
  split; [reflexivity|].
  exact (AppendSemanticDiffs_first_frame (env := quiet_env) [4; 5]%nat (idle v0) eq_refl).
Defined.

(** Two bindings in a row, and a clearing: the window holds the function of
    the last call. *)
Example SetDriver_twice :
  let '(o1, c1, _) := SetDriver (Some 1%nat) (unbound v0) in
  let '(o2, c2, _) := SetDriver (Some 2%nat) c1 in
  let '(o3, c3, _) := SetDriver None c2 in
  o1 = Done tt /\ o2 = Done tt /\ o3 = Done tt /\
  d c1 = Some 1%nat /\ d c2 = Some 2%nat /\ d c3 = None /\
  WakeupFuncs (w c1) = WakeupOf 1%nat /\
  WakeupFuncs (w c2) = WakeupOf 2%nat /\
  WakeupFuncs (w c3) = NilFunc /\
  invoke_wakeup (Payload := nat) (WakeupFuncs (w c2)) = [(2%nat, WakeupEvent)] /\
  invoke_wakeup (Payload := nat) (WakeupFuncs (w c3)) = [].
Proof. vm_compute. repeat split. Qed.

(** *** Further runs and instances *)

(** The quiet window with two batches of options and a batch of actions
    waiting: one wake-up takes one batch of each. *)
Definition busy_window : StubWindow :=
  set_Actions (open_chan [7%nat; 8%nat])
              (window_with (range 0 0) [[opt_off]; [opt_toggle]]).

Example wakeup_takes_one_batch_of_each :
  let '(o, c', t) := Event (env := quiet_env) 2 WakeupEvent (idle busy_window) in
  o = Done true /\
  driver_calls t =
  [ObsConfigure 1%nat [opt_off; height_opt 0]; ObsPerform 1%nat 7%nat] /\
  buf (Options (w c')) = [[opt_toggle]] /\
  buf (Actions (w c')) = [8%nat].
Proof. vm_compute. repeat split. Qed.

(** X6 at that window. *)
Lemma Event_driver_calls_witness :
  d (idle busy_window) = Some 1%nat /\
  exists o c' t,
    Event (env := quiet_env) 2 WakeupEvent (idle busy_window) = (o, c', t) /\
    (is_WakeupEvent (Payload := nat) WakeupEvent = false -> driver_calls t = []) /\
    (busy (idle busy_window) = true -> driver_calls t = []) /\
    exists cfg prf,
      driver_calls t = cfg ++ prf /\
      (List.length cfg <= 1)%nat /\ (List.length prf <= 1)%nat /\
      forallb is_Configure cfg = true /\ forallb is_Perform prf = true.
Proof.
  split; [reflexivity|].
  exact (Event_driver_calls (env := quiet_env) 2 WakeupEvent (idle busy_window)
           1%nat eq_refl).
Defined.

(** A window that is being torn down: its [Destroy] channel is closed. *)
Definition closed_chan {A : Type} : chan A := {| buf := []; closed := true |}.

Definition dying_window : StubWindow := set_Destroy closed_chan busy_window.

(** X7 at the dying window, for a [WakeupEvent]. *)
Lemma Event_skips_reconcile_on_destroy_witness :
  let c := idle dying_window in
  let c1 := draining dying_window [] in
  d c = Some 1%nat /\ busy c = false /\
  drain (env := quiet_env) (Event (env := quiet_env) 1) 1 false
        (set_busy true (set_waitEvents (waitEvents c ++ [WakeupEvent]) c))
  = (Done true, c1, [ObsProcess WakeupEvent]) /\
  try_recv tt (Destroy (w c1)) = Some (tt, closed_chan) /\
  exists c',
    Event (env := quiet_env) 2 WakeupEvent c =
    (Done true, c',
     ObsSubmit false WakeupEvent :: ObsDrainBegin :: [ObsProcess WakeupEvent]
     ++ [ObsDrainEnd]) /\
    c' = set_w (set_Destroy closed_chan (w c1)) (set_busy false c1) /\
    Options (w c') = Options (w c1) /\
    Actions (w c') = Actions (w c1) /\
    Decorations (w c') = Decorations (w c1) /\
    ImeState (w c') = ImeState (w c1) /\
    busy c' = false.
Proof.
  intros c c1.
  split; [reflexivity|]. split; [reflexivity|]. split; [reflexivity|].
  split; [reflexivity|].
  exact (Event_skips_reconcile_on_destroy (env := quiet_env) 1 WakeupEvent c 1%nat
           true c1 [ObsProcess WakeupEvent] tt closed_chan
           eq_refl eq_refl eq_refl eq_refl).
Defined.

(** The quiet window with actions waiting and no options. *)
Definition acting_window : StubWindow :=
  set_Actions (open_chan [7%nat; 8%nat]) v0.

(** X8 at that window. *)
Lemma Event_wakeup_performs_actions_witness :
  let c := idle acting_window in
  let c1 := draining acting_window [] in
  let w2 := UpdateState (Collaborators := quiet_env) (d c1) (w c1) in
  d c = Some 1%nat /\ busy c = false /\
  drain (env := quiet_env) (Event (env := quiet_env) 1) 1 false
        (set_busy true (set_waitEvents (waitEvents c ++ [WakeupEvent]) c))
  = (Done true, c1, [ObsProcess WakeupEvent]) /\
  try_recv tt (Destroy (w c1)) = None /\
  try_recv [] (Options w2) = None /\
  try_recv (Action_zero (Collaborators := quiet_env)) (Actions w2)
  = Some (7%nat, open_chan [8%nat]) /\
  Event (env := quiet_env) 2 WakeupEvent c =
  (Done true, set_w (set_Actions (open_chan [8%nat]) w2) (set_busy false c1),
   ObsSubmit false WakeupEvent :: ObsDrainBegin :: [ObsProcess WakeupEvent] ++
   [ObsDrainEnd; ObsUpdateState; ObsPerform 1%nat 7%nat]).
Proof.
  intros c c1 w2.
  split; [reflexivity|]. split; [reflexivity|]. split; [reflexivity|].
  split; [reflexivity|]. split; [reflexivity|]. split; [reflexivity|].
  exact (Event_wakeup_performs_actions (env := quiet_env) 1 c 1%nat true c1
           [ObsProcess WakeupEvent] 7%nat (open_chan [8%nat])
           eq_refl eq_refl eq_refl eq_refl eq_refl eq_refl).
Defined.

(** The trace of the chatty window's run on event 0. *)
Definition chatty_trace : @Trace nat nat unit nat Z :=
  [ObsSubmit false (ev 0); ObsDrainBegin;
   ObsProcess (ev 0); ObsSubmit true (ev 1); ObsSubmit true (ev 2);
   ObsProcess (ev 1); ObsSubmit true (ev 3);
   ObsProcess (ev 2); ObsProcess (ev 3);
   ObsDrainEnd; ObsUpdateState].

(** X9 at the chatty window: the call returns, and its result [false] is
    the answer for event 3, the last one submitted and processed, though
    processing event 0 itself answered [true]. *)
Lemma Event_returns_last_handled_witness :
  d (idle v0) = Some 1%nat /\ busy (idle v0) = false /\
  window_is_bounded (env := chatty_env) chatty_rank 2 /\
  (backlog chatty_rank 2 (waitEvents (idle v0) ++ [ev 0]) < 8)%nat /\
  chatty_process (Some 1%nat) (ev 0) =
  Call (ev 1) (fun _ => Call (ev 2) (fun _ => Ret true)) /\
  Event (env := chatty_env) 8 (ev 0) (idle v0) = (Done false, idle v0, chatty_trace) /\
  last (emitted true chatty_trace) (ev 0) = ev 3 /\
  exists k c_mid t1 c_end tp t3,
    drain (env := chatty_env) (Event (env := chatty_env) 7) k false
          (draining v0 [ev 0])
    = (Timeout, c_mid, t1) /\
    waitEvents c_mid = [ev 3] /\
    run (Event (env := chatty_env) 7)
        (ProcessEvent (Collaborators := chatty_env) (Some 1%nat) (ev 3))
        (set_waitEvents [] c_mid)
    = (Done false, c_end, tp) /\
    waitEvents c_end = [] /\
    reconcile (env := chatty_env) (ev 0) false (set_busy false c_end)
    = (Done false, idle v0, t3) /\
    chatty_trace = ObsSubmit false (ev 0) :: ObsDrainBegin ::
                   t1 ++ ObsProcess (ev 3) :: tp ++ ObsDrainEnd :: t3 /\
    processed chatty_trace = processed t1 ++ [ev 3].
Proof.
  split; [reflexivity|]. split; [reflexivity|].
  split; [exact chatty_env_is_bounded|].
  assert (Hfuel : (backlog chatty_rank 2 (waitEvents (idle v0) ++ [ev 0]) < 8)%nat)
    by (vm_compute; lia).
  split; [exact Hfuel|]. split; [reflexivity|]. split; [reflexivity|].
  split; [reflexivity|].
  destruct (Event_returns_last_handled (env := chatty_env) 8 (ev 0) (idle v0)
              1%nat eq_refl eq_refl)
    as (o & c' & t & Hev & Hdone & Hbounded).
  destruct (Hbounded chatty_rank 2%nat chatty_env_is_bounded Hfuel) as (h & ->).
  assert (E : (Done h, c', t) = (Done false, idle v0, chatty_trace))
    by (rewrite <- Hev; reflexivity).
  injection E as -> -> ->.
  destruct (Hdone false eq_refl)
    as (n & k & c_mid & t1 & e_last & c_end & tp & t3
        & Hn & _ & Hto & Hqm & Hr & Hqe & Hrc & Ht & Hp & Hl & _).
  injection Hn as <-.
  assert (El : e_last = ev 3) by (rewrite Hl; reflexivity).
  subst e_last.
  exists k, c_mid, t1, c_end, tp, t3.
  split; [exact Hto|]. split; [exact Hqm|]. split; [exact Hr|].
  split; [exact Hqe|]. split; [exact Hrc|]. split; [exact Ht|]. exact Hp.
Defined.

(** X10 at a dispatcher with no driver. *)
Lemma IME_operations_without_driver_witness :
  d (unbound v0) = None /\
  SetEditorSelection (env := quiet_env) 2 (range 5 2) (unbound v0) =
  (Panic "event while no driver active",
   unbound (window_with (range 5 2) []), []) /\
  EditorInsert (env := quiet_env) 2 "hi" (unbound v0) =
  (Panic "event while no driver active",
   with_ImeState (replace_stub (ImeState v0) (range 0 0) "hi") (unbound v0), []) /\
  SetEditorSnippet (env := quiet_env) 2 (range 0 0) (unbound v0) =
  (Done tt, unbound v0, []).
Proof.
  pose proof (IME_operations_without_driver (env := quiet_env) 2 (range 5 2) "hi"
                (unbound v0) eq_refl) as (_ & _ & _ & Hsel & _ & Hins).
  pose proof (IME_operations_without_driver (env := quiet_env) 2 (range 0 0) "hi"
                (unbound v0) eq_refl) as (_ & Hsn & _).
  split; [reflexivity|]. split; [exact Hsel|]. split; [exact Hins|].
  exact (Hsn eq_refl).
Defined.

(** A reversed range at the quiet window, set twice: stored as given, and
    emitted both times. *)
Example selection_twice :
  let '(o1, c1, t1) :=
    SetEditorSelection (env := quiet_env) 2 (range 5 2) (idle v0) in
  let '(o2, c2, t2) := SetEditorSelection (env := quiet_env) 2 (range 5 2) c1 in
  o1 = Done tt /\ o2 = Done tt /\
  Selection_Range (EditorState c2) = range 5 2 /\
  submitted (t1 ++ t2) = [SelectionEvent (range 5 2); SelectionEvent (range 5 2)].
Proof. vm_compute. repeat split. Qed.

(** X11 at the quiet window, with a reversed range. *)
Lemma SetEditorSelection_stores_and_emits_witness :
  d (idle v0) = Some 1%nat /\
  ime_owned (env := quiet_env) (idle v0) /\
  exists o c' t,
    SetEditorSelection (env := quiet_env) 2 (range 5 2) (idle v0) = (o, c', t) /\
    (forall msg, o <> Panic msg) /\
    (o = Done tt ->
     Selection_Range (EditorState c') = range 5 2 /\
     Compose (EditorState c') = Compose (EditorState (idle v0)) /\
     Snippet_Range (EditorState c') = Snippet_Range (EditorState (idle v0)) /\
     emitted (busy (idle v0)) t = [SelectionEvent (range 5 2)]) /\
    (busy (idle v0) = true ->
     o = Done tt /\
     waitEvents c' = waitEvents (idle v0) ++ [SelectionEvent (range 5 2)]) /\
    (window_is_quiet (env := quiet_env) -> busy (idle v0) = false ->
     (List.length (waitEvents (idle v0)) + 2 <= 2)%nat ->
     o = Done tt /\
     processed t = waitEvents (idle v0) ++ [SelectionEvent (range 5 2)]).
Proof.
  split; [reflexivity|]. split; [exact (quiet_env_owns_ImeState (idle v0))|].
  exact (SetEditorSelection_stores_and_emits (env := quiet_env) 2 (range 5 2)
           (idle v0) 1%nat eq_refl (quiet_env_owns_ImeState (idle v0))).
Defined.

(** Where the sum is no [int], the caret wraps. *)
Example insert_wraps :
  let '(o, c', t) :=
    EditorInsert (env := quiet_env) 2 "a"
      (idle (window_with (range Int.max_int Int.max_int) [])) in
  o = Done tt /\
  Selection_Range (EditorState c') = range Int.min_int Int.min_int.
Proof. vm_compute. repeat split. Qed.

(** X12 at the quiet window, for an ASCII text on a reversed selection: the
    call returns, with the caret three bytes after the lower end. *)
Lemma EditorInsert_caret_witness :
  let c := idle (window_with (range 5 2) []) in
  d c = Some 1%nat /\
  ime_owned (env := quiet_env) c /\
  window_is_quiet (env := quiet_env) /\
  busy c = false /\
  (List.length (waitEvents c) + 2 <= 2)%nat /\
  Int.in_range 2 /\ Int.in_range (2 + 3) /\
  Utf8Facts.is_ascii "abc" = true /\
  exists c' t,
    EditorInsert (env := quiet_env) 2 "abc" c = (Done tt, c', t) /\
    Selection_Range (EditorState c') = range 5 5.
Proof.
  intros c.
  assert (R2 : Int.in_range 2) by (vm_compute; split; discriminate).
  assert (R5 : Int.in_range (2 + 3)) by (vm_compute; split; discriminate).
  split; [reflexivity|]. split; [exact (quiet_env_owns_ImeState c)|].
  split; [exact quiet_env_is_quiet|]. split; [reflexivity|].
  split; [simpl; lia|].
  split; [exact R2|]. split; [exact R5|]. split; [reflexivity|].
  destruct (EditorInsert_caret (env := quiet_env) 2 "abc" c 1%nat eq_refl
              (quiet_env_owns_ImeState c))
    as (o & c' & t & p & He & _ & _ & Hq & _ & _ & Hdone).
  assert (Ho : o = Done tt)
    by (apply (Hq quiet_env_is_quiet eq_refl); simpl; lia).
  subst o. exists c', t. split; [exact He|].
  destruct (Hdone eq_refl) as (_ & Hb).
  destruct (Hb R2 R5) as (_ & Ha & _).
  exact (Ha eq_refl).
Defined.

Example insert_twice :
  let '(o1, c1, t1) := EditorInsert (env := quiet_env) 2 "ab" (idle v0) in
  let '(o2, c2, t2) := EditorInsert (env := quiet_env) 2 Utf8.a_o_u_umlaut c1 in
  o1 = Done tt /\ o2 = Done tt /\
  Selection_Range (EditorState c2) = range 5 5.
Proof. vm_compute. repeat split. Qed.

(** X13 at the quiet window. *)
Lemma EditorInsert_twice_witness :
  d (idle v0) = Some 1%nat /\
  ime_owned (env := quiet_env) (idle v0) /\
  Int.in_range (Z.min 0 0 + Utf8.RuneCountInString "ab") /\
  Int.in_range (Z.min 0 0 + Utf8.RuneCountInString "ab"
                + Utf8.RuneCountInString Utf8.a_o_u_umlaut) /\
  exists o1 c1 t1 o2 c2 t2,
    EditorInsert (env := quiet_env) 2 "ab" (idle v0) = (o1, c1, t1) /\
    EditorInsert (env := quiet_env) 2 Utf8.a_o_u_umlaut c1 = (o2, c2, t2) /\
    (o1 = Done tt -> o2 = Done tt ->
     Selection_Range (EditorState c2) =
     {| Start := Z.min 0 0 + Utf8.RuneCountInString "ab"
                 + Utf8.RuneCountInString Utf8.a_o_u_umlaut;
        End := Z.min 0 0 + Utf8.RuneCountInString "ab"
               + Utf8.RuneCountInString Utf8.a_o_u_umlaut |}) /\
    (busy (idle v0) = true -> o1 = Done tt /\ o2 = Done tt) /\
    (window_is_quiet (env := quiet_env) -> busy (idle v0) = false ->
     (List.length (waitEvents (idle v0)) + 2 <= 2)%nat ->
     o1 = Done tt /\ o2 = Done tt).
Proof.
  assert (H1 : Int.in_range (Z.min 0 0 + Utf8.RuneCountInString "ab"))
    by (vm_compute; split; discriminate).
  assert (H2 : Int.in_range (Z.min 0 0 + Utf8.RuneCountInString "ab"
                             + Utf8.RuneCountInString Utf8.a_o_u_umlaut))
    by (vm_compute; split; discriminate).
  split; [reflexivity|]. split; [exact (quiet_env_owns_ImeState (idle v0))|].
  split; [exact H1|]. split; [exact H2|].
  exact (EditorInsert_twice (env := quiet_env) 2 "ab" Utf8.a_o_u_umlaut (idle v0)
           1%nat eq_refl (quiet_env_owns_ImeState (idle v0)) H1 H2).
Defined.

End Stub.

(** C10 at a channel that holds a platform error, with one accepted code. *)
Lemma acceptError_classifies_witness :
  let err := {| Glfw.Code := Glfw.platformError; Glfw.Desc := "x11" |} in
  Glfw.acceptError [Glfw.apiUnavailable] [Some err] =
  (Glfw.Return None, [], [Glfw.LogPrintln err]) /\
  ~ In (Glfw.Code err) [Glfw.apiUnavailable] /\
  Glfw.Code err = Glfw.platformError.
Proof.
  intros err.
  assert (Hn : ~ In (Glfw.Code err) [Glfw.apiUnavailable]).
  { simpl. intros [H|[]]. discriminate H. }
  destruct (proj2 (proj2 (proj2 (Glfw.acceptError_classifies
                                   [Glfw.apiUnavailable] [Some err]))) err eq_refl)
    as (res & out & Hrun & _ & Hplat & _).
  destruct (Hplat Hn eq_refl) as [-> ->].
  split; [exact Hrun|]. split; [exact Hn | reflexivity].
Defined.

(** The four ways out of [acceptError], one error each. *)
Example acceptError_cases :
  let err c := {| Glfw.Code := c; Glfw.Desc := "d" |} in
  Glfw.acceptError [Glfw.apiUnavailable] [] = (Glfw.Return None, [], []) /\
  Glfw.acceptError [Glfw.apiUnavailable; Glfw.platformError]
                   [Some (err Glfw.platformError)]
  = (Glfw.Return (Some (err Glfw.platformError)), [], []) /\
  Glfw.acceptError [] [Some (err Glfw.outOfMemory)]
  = (Glfw.Panics (err Glfw.outOfMemory), [], []) /\
  Glfw.acceptError [Glfw.apiUnavailable] [Some (err Glfw.formatUnavailable)]
  = (Glfw.Panics (err Glfw.formatUnavailable), [],
     [Glfw.StderrPrintln Glfw.invalid_error_msg (Some (err Glfw.formatUnavailable));
      Glfw.StderrPrintln Glfw.report_msg None]) /\
  Glfw.acceptError [] [Some (err 42)]
  = (Glfw.Panics (err 42), [],
     [Glfw.StderrPrintln Glfw.invalid_error_msg (Some (err 42));
      Glfw.StderrPrintln Glfw.report_msg None]).
Proof. repeat split. Qed.


(* ================================================================= *)
(** ** [app.d3d11Context]: the Direct3D 11 context (second part of the file)

    The objects of Direct3D are handles, of which the code knows whether
    they are nil.  What the platform answers to a call is given to the
    operation that makes the call; what an operation calls, and in which
    order, is its trace. *)

Module D3D11.

Section Context_.

(** COM objects (device, device context, swap chain, views, buffers) and
    the window. *)
Context {Handle Window : Type}.

(** What a [d3d11.ErrorCode] holds besides its code. *)
Context {ErrorCodeRest : Type}.

(** The codes of [package d3d11] that [wrapErr] names; their values are not
    in this file. *)
Context (DXGI_STATUS_OCCLUDED DXGI_ERROR_DEVICE_RESET
         DXGI_ERROR_DEVICE_REMOVED D3DDDIERR_DEVICEREMOVED : Z).

(** [d3d11.ErrorCode] *)
Record ErrorCode := { Code : Z; ErrorCode_rest : ErrorCodeRest }.

(** A non-nil [error]: a [d3d11.ErrorCode], [gpu.ErrDeviceLost], the value
    of [fmt.Errorf(format, err)], or some other error. *)
Inductive error :=
| D3DError (e : ErrorCode)
| ErrDeviceLost
| Errorf (format : string) (err : error)
| OtherError (msg : string).

(** An [error]; [None] is nil. *)
Definition Err := option error.

Definition wrapErr (err : Err) : Err :=
  match err with
  | Some (D3DError e) =>
      if Code e =? DXGI_STATUS_OCCLUDED then None
      else if (Code e =? DXGI_ERROR_DEVICE_RESET)
              || (Code e =? DXGI_ERROR_DEVICE_REMOVED)
              || (Code e =? D3DDDIERR_DEVICEREMOVED)
      then Some ErrDeviceLost
      else err
  | _ => err
  end.

(** [d3d11Context] *)
Record d3d11Context := {
  win : option Window;
  dev : option Handle;
  ctx : option Handle;
  swchain : option Handle;
  renderTarget : option Handle;
  width : Z;
  height : Z
}.

(** [d3d11Context{}] *)
Definition zero : d3d11Context :=
  {| win := None; dev := None; ctx := None; swchain := None;
     renderTarget := None; width := 0; height := 0 |}.

Definition set_renderTarget (x : option Handle) (c : d3d11Context) : d3d11Context :=
  {| win := win c; dev := dev c; ctx := ctx c; swchain := swchain c;
     renderTarget := x; width := width c; height := height c |}.

Definition set_size (x y : Z) (c : d3d11Context) : d3d11Context :=
  {| win := win c; dev := dev c; ctx := ctx c; swchain := swchain c;
     renderTarget := renderTarget c; width := x; height := y |}.

(** The calls into Direct3D. *)
Inductive Call :=
| IUnknownRelease (h : Handle)
| ResizeBuffers (sw : Handle)
| GetBuffer (sw : Handle)
| CreateRenderTargetView (dv : Handle) (texture : option Handle)
| OMSetRenderTargets (cx : Handle) (rt : option Handle)
| PresentCall (sw : Handle)
| CreateDevice
| CreateSwapChain (dv : option Handle) (w : Window).

(** How an operation ends: it returns, or it calls through a nil object.
    The second is the run-time panic of [x.Vtbl] for a nil [x], and that of
    a method of [package d3d11] called on a nil object: those methods call
    through the [Vtbl] of their receiver.  Their code is not in this file,
    so the theorems on [Refresh] below are stated for contexts whose window,
    swap chain and device are there. *)
Inductive Outcome (A : Type) :=
| Ok (a : A)
| NilDereference.
Arguments Ok {A} a.
Arguments NilDereference {A}.

(** The handles that a trace releases, in order. *)
Fixpoint released (t : list Call) : list Handle :=
  match t with
  | [] => []
  | IUnknownRelease h :: r => h :: released r
  | _ :: r => released r
  end.

Definition releaseFBO (c : d3d11Context) : d3d11Context * list Call :=
  match renderTarget c with
  | Some rt => (set_renderTarget None c, [IUnknownRelease rt])
  | None => (c, [])
  end.

(** What the platform answers in the course of one [Refresh]: the size of
    the window, and the results of [ResizeBuffers], [GetBuffer] and
    [CreateRenderTargetView]. *)
Record Answers := {
  hwnd_size : Z * Z;
  resize_buffers : Err;
  get_buffer : option Handle * Err;
  create_view : option Handle * Err
}.

Definition is_some {A : Type} (x : option A) : bool :=
  match x with Some _ => true | None => false end.

Definition Refresh (a : Answers) (c : d3d11Context)
  : Outcome Err * d3d11Context * list Call :=
  match win c with
  | None => (NilDereference, c, [])
  | Some _ =>
      let '(w, h) := hwnd_size a in
      if is_some (renderTarget c) && (w =? width c) && (h =? height c)
      then (Ok None, c, [])
      else
        let '(c1, t1) := releaseFBO c in
        match swchain c1 with
        | None => (NilDereference, c1, t1)
        | Some sw =>
            match resize_buffers a with
            | Some err => (Ok (wrapErr (Some err)), c1, t1 ++ [ResizeBuffers sw])
            | None =>
                let c2 := set_size w h c1 in
                let t2 := t1 ++ [ResizeBuffers sw; GetBuffer sw] in
                match get_buffer a with
                | (_, Some err) => (Ok (Some err), c2, t2)
                | (backBuffer, None) =>
                    match dev c2 with
                    | None => (NilDereference, c2, t2)
                    | Some dv =>
                        let t3 := t2 ++ [CreateRenderTargetView dv backBuffer] in
                        match backBuffer with
                        | None => (NilDereference, c2, t3)
                        | Some b =>
                            let t4 := t3 ++ [IUnknownRelease b] in
                            match create_view a with
                            | (_, Some err) => (Ok (Some err), c2, t4)
                            | (rt, None) => (Ok None, set_renderTarget rt c2, t4)
                            end
                        end
                    end
                end
            end
        end
  end.

(** [Lock] *)
Definition Lock (c : d3d11Context) : Outcome Err * list Call :=
  match ctx c with
  | None => (NilDereference, [])
  | Some cx => (Ok None, [OMSetRenderTargets cx (renderTarget c)])
  end.

(** [Present], given the result of [swchain.Present(1, 0)]. *)
Definition Present (present : Err) (c : d3d11Context) : Outcome Err * list Call :=
  match swchain c with
  | None => (NilDereference, [])
  | Some sw => (Ok (wrapErr present), [PresentCall sw])
  end.

Definition release_if (x : option Handle) : list Call :=
  match x with
  | Some h => [IUnknownRelease h]
  | None => []
  end.

(** [Release]; [debugDirectX] is [false]. *)
Definition Release (c : d3d11Context) : d3d11Context * list Call :=
  let '(c1, t1) := releaseFBO c in
  (zero, t1 ++ release_if (swchain c1) ++ release_if (ctx c1) ++ release_if (dev c1)).

(** The [initializer] that [init] registers, given the results of
    [d3d11.CreateDevice] and [d3d11.CreateSwapChain]. *)
Definition initializer (w : Window)
    (create_device : option Handle * option Handle * Err)
    (create_swapchain : option Handle * Err)
  : Outcome (option d3d11Context * Err) * list Call :=
  let '(dv, cx, err) := create_device in
  match err with
  | Some e => (Ok (None, Some (Errorf "NewContext: %v" e)), [CreateDevice])
  | None =>
      let t := [CreateDevice; CreateSwapChain dv w] in
      match create_swapchain with
      | (_, Some e) =>
          match cx, dv with
          | Some cx', Some dv' =>
              (Ok (None, Some e), t ++ [IUnknownRelease cx'; IUnknownRelease dv'])
          | Some cx', None => (NilDereference, t ++ [IUnknownRelease cx'])
          | None, _ => (NilDereference, t)
          end
      | (sw, None) =>
          (Ok (Some {| win := Some w; dev := dv; ctx := cx; swchain := sw;
                       renderTarget := None; width := 0; height := 0 |}, None), t)
      end
  end.

Definition option_list (x : option Handle) : list Handle :=
  match x with
  | Some h => [h]
  | None => []
  end.

(** The objects a context holds: render target, swap chain, device context,
    device. *)
Definition held (c : d3d11Context) : list Handle :=
  option_list (renderTarget c) ++ option_list (swchain c)
  ++ option_list (ctx c) ++ option_list (dev c).

Definition is_release (x : Call) : bool :=
  match x with IUnknownRelease _ => true | _ => false end.

Lemma released_app t1 t2 : released (t1 ++ t2) = released t1 ++ released t2.
Proof.
  induction t1 as [|x r IH]; simpl; [reflexivity|].
  destruct x; simpl; rewrite IH; reflexivity.
Qed.

Lemma released_release_if x : released (release_if x) = option_list x.
Proof. destruct x; reflexivity. Qed.

(** Only the occluded status is turned into nil. *)
Lemma wrapErr_nil err :
  wrapErr err = None ->
  err = None \/
  exists e, err = Some (D3DError e) /\ Code e = DXGI_STATUS_OCCLUDED.
Proof.
  destruct err as [[e| |f x|m]|]; cbn [wrapErr]; try discriminate; [|auto].
  destruct (Z.eqb_spec (Code e) DXGI_STATUS_OCCLUDED) as [Ho|Ho].
  - intros _. right. exists e. auto.
  - destruct (_ || _); discriminate.
Qed.

(** X14.  [wrapErr] sorts the errors of Direct3D: the occluded status
    becomes nil, and nothing else does; the three device-lost codes become
    [gpu.ErrDeviceLost]; every other error, of Direct3D or not, and nil pass
    unchanged.  So no result of [wrapErr] carries one of the four codes, and
    wrapping twice is wrapping once. *)
Theorem wrapErr_classifies err :
  wrapErr (wrapErr err) = wrapErr err /\
  (wrapErr err = None <->
   err = None \/
   exists e, err = Some (D3DError e) /\ Code e = DXGI_STATUS_OCCLUDED) /\
  (forall e, wrapErr err = Some (D3DError e) ->
             err = Some (D3DError e) /\
             Code e <> DXGI_STATUS_OCCLUDED /\
             Code e <> DXGI_ERROR_DEVICE_RESET /\
             Code e <> DXGI_ERROR_DEVICE_REMOVED /\
             Code e <> D3DDDIERR_DEVICEREMOVED) /\
  (forall x, err = Some x -> (forall e, x <> D3DError e) -> wrapErr err = err).
Proof.
  destruct err as [[e| |f x|m]|].
  - cbn [wrapErr].
    destruct (Z.eqb_spec (Code e) DXGI_STATUS_OCCLUDED) as [Ho|Ho].
    + split; [reflexivity|]. split; [|split].
      * split; [intros _; right; exists e; auto | reflexivity].
      * intros e'. discriminate.
      * intros x Hx Hn. injection Hx as <-. destruct (Hn e eq_refl).
    + destruct ((Code e =? DXGI_ERROR_DEVICE_RESET)
                || (Code e =? DXGI_ERROR_DEVICE_REMOVED)
                || (Code e =? D3DDDIERR_DEVICEREMOVED)) eqn:Hl.
      * split; [reflexivity|]. split; [|split].
        -- split; [discriminate|].
           intros [H|(e' & H & Hc)]; [discriminate|].
           injection H as <-. contradiction.
        -- intros e'. discriminate.
        -- intros x Hx Hn. injection Hx as <-. destruct (Hn e eq_refl).
      * split; [|split; [|split]].
        -- cbn [wrapErr]. rewrite (proj2 (Z.eqb_neq _ _) Ho), Hl. reflexivity.
        -- split; [discriminate|].
           intros [H|(e' & H & Hc)]; [discriminate|].
           injection H as <-. contradiction.
        -- intros e' H. injection H as <-. split; [reflexivity|].
           apply orb_false_elim in Hl as [Hl H3].
           apply orb_false_elim in Hl as [H1 H2].
           rewrite Z.eqb_neq in H1, H2, H3. auto.
        -- reflexivity.
  - cbn [wrapErr]. split; [reflexivity|]. split; [|split].
    + split; [discriminate | intros [H|(e & H & _)]; discriminate].
    + intros e. discriminate.
    + reflexivity.
  - cbn [wrapErr]. split; [reflexivity|]. split; [|split].
    + split; [discriminate | intros [H|(e & H & _)]; discriminate].
    + intros e. discriminate.
    + reflexivity.
  - cbn [wrapErr]. split; [reflexivity|]. split; [|split].
    + split; [discriminate | intros [H|(e & H & _)]; discriminate].
    + intros e. discriminate.
    + reflexivity.
  - cbn [wrapErr]. split; [reflexivity|]. split; [|split].
    + split; [auto | reflexivity].
    + intros e. discriminate.
    + intros x. discriminate.
Qed.

(** [Refresh], by cases on what it meets. *)
Lemma Refresh_eq a c :
  Refresh a c =
  match win c with
  | None => (NilDereference, c, [])
  | Some _ =>
      if is_some (renderTarget c) && (fst (hwnd_size a) =? width c)
         && (snd (hwnd_size a) =? height c)
      then (Ok None, c, [])
      else
        let c1 := set_renderTarget None c in
        let t1 := release_if (renderTarget c) in
        match swchain c with
        | None => (NilDereference, c1, t1)
        | Some sw =>
            match resize_buffers a with
            | Some err => (Ok (wrapErr (Some err)), c1, t1 ++ [ResizeBuffers sw])
            | None =>
                let c2 := set_size (fst (hwnd_size a)) (snd (hwnd_size a)) c1 in
                let t2 := t1 ++ [ResizeBuffers sw; GetBuffer sw] in
                match get_buffer a with
                | (_, Some err) => (Ok (Some err), c2, t2)
                | (backBuffer, None) =>
                    match dev c with
                    | None => (NilDereference, c2, t2)
                    | Some dv =>
                        let t3 := t2 ++ [CreateRenderTargetView dv backBuffer] in
                        match backBuffer with
                        | None => (NilDereference, c2, t3)
                        | Some b =>
                            let t4 := t3 ++ [IUnknownRelease b] in
                            match create_view a with
                            | (_, Some err) => (Ok (Some err), c2, t4)
                            | (rt, None) => (Ok None, set_renderTarget rt c2, t4)
                            end
                        end
                    end
                end
            end
        end
  end.
Proof.
  unfold Refresh, releaseFBO. destruct (win c) as [wn|]; [|reflexivity].
  destruct (hwnd_size a) as [x y]. simpl fst. simpl snd.
  destruct (is_some (renderTarget c) && (x =? width c) && (y =? height c));
    [reflexivity|].
  destruct c as [wn' dv cx sw rt wd ht]. simpl.
  destruct rt; reflexivity.
Qed.

(** X15.  What a nil result of [Refresh] means, for a context with a
    window, a swap chain and a device.  One of three things has happened.
    The context had a render target and the size of the window was the size
    it remembered: nothing was called, nothing changed.  Or [ResizeBuffers]
    reported the occluded status: the old render target is released, there
    is none now, the remembered size is the old one, and [Lock] binds a nil
    target.  Or every call succeeded: the remembered size is that of the
    window, and the render target is the view that [CreateRenderTargetView]
    returned. *)
Theorem Refresh_returns_nil a c c' t wn sw dv :
  win c = Some wn -> swchain c = Some sw -> dev c = Some dv ->
  Refresh a c = (Ok None, c', t) ->
  (c' = c /\ t = [] /\ renderTarget c <> None /\
   hwnd_size a = (width c, height c)) \/
  (exists e,
      resize_buffers a = Some (D3DError e) /\ Code e = DXGI_STATUS_OCCLUDED /\
      c' = set_renderTarget None c /\
      (width c', height c') = (width c, height c) /\
      t = release_if (renderTarget c) ++ [ResizeBuffers sw] /\
      (forall cx, ctx c = Some cx ->
                  Lock c' = (Ok None, [OMSetRenderTargets cx None]))) \/
  (exists b,
      resize_buffers a = None /\ get_buffer a = (Some b, None) /\
      snd (create_view a) = None /\
      c' = set_renderTarget (fst (create_view a))
             (set_size (fst (hwnd_size a)) (snd (hwnd_size a))
                       (set_renderTarget None c)) /\
      (width c', height c') = hwnd_size a /\
      t = release_if (renderTarget c) ++
          [ResizeBuffers sw; GetBuffer sw;
           CreateRenderTargetView dv (Some b); IUnknownRelease b]).
Proof.
  intros Hwin Hsw Hdev. rewrite Refresh_eq, Hwin, Hsw, Hdev.
  destruct (is_some (renderTarget c) && (fst (hwnd_size a) =? width c)
            && (snd (hwnd_size a) =? height c)) eqn:Hsame.
  - intros E. injection E as <- <-. left.
    apply andb_prop in Hsame as [Hsame Hh]. apply andb_prop in Hsame as [Hrt Hw].
    apply Z.eqb_eq in Hw, Hh.
    repeat split.
    + destruct (renderTarget c); [discriminate | discriminate Hrt].
    + destruct (hwnd_size a) as [w h]. simpl in *. congruence.
  - cbv zeta.
    destruct (resize_buffers a) as [err|] eqn:Hres.
    + intros E. injection E as Hw <- <-. right. left.
      destruct (wrapErr_nil (Some err) Hw) as [H|(e & H & Hc)]; [discriminate|].
      injection H as ->. exists e.
      repeat split; auto.
      intros cx Hcx. unfold Lock. simpl. rewrite Hcx. reflexivity.
    + destruct (get_buffer a) as [bb [err|]] eqn:Hgb; [discriminate|].
      destruct bb as [b|]; [|discriminate].
      destruct (create_view a) as [rt [err|]] eqn:Hcv; [discriminate|].
      intros E. injection E as <- <-. right. right.
      exists b. simpl.
      repeat split; auto.
      * destruct (hwnd_size a); reflexivity.
      * rewrite <- !app_assoc. reflexivity.
Qed.

(** X16.  What [Refresh] releases, however it ends, for a context with a
    window, a swap chain and a device.  A call that calls nothing changes
    nothing.  Otherwise it releases the render target it held, if any,
    first; the only other object it releases is the back buffer, which it
    releases whenever it has passed one to [CreateRenderTargetView], also
    when creating the view fails; and the render target it leaves is nil
    or, after a nil result, the view just created: never the one it
    released. *)
Theorem Refresh_accounting a c wn sw dv :
  win c = Some wn -> swchain c = Some sw -> dev c = Some dv ->
  exists o c' t,
    Refresh a c = (o, c', t) /\
    (t = [] -> c' = c) /\
    (t <> [] ->
     In (ResizeBuffers sw) t /\
     (exists bb,
         released t = option_list (renderTarget c) ++ bb /\
         (bb = [] \/ exists b, get_buffer a = (Some b, None) /\ bb = [b])) /\
     (renderTarget c' = None \/
      (o = Ok None /\ renderTarget c' = fst (create_view a)))) /\
    (forall dv' b, In (CreateRenderTargetView dv' (Some b)) t -> In b (released t)).
Proof.
  intros Hwin Hsw Hdev. rewrite Refresh_eq, Hwin, Hsw, Hdev.
  destruct (is_some (renderTarget c) && (fst (hwnd_size a) =? width c)
            && (snd (hwnd_size a) =? height c)).
  { eexists _, _, _. split; [reflexivity|]. split; [auto|].
    split; [intros H; destruct (H eq_refl) | intros dv' b []]. }
  cbv zeta.
  assert (Hne : forall (l : list Call) x, l ++ [x] <> [])
    by (intros l x H; destruct l; discriminate).
  assert (Hrs : forall l r, In (ResizeBuffers sw) (l ++ ResizeBuffers sw :: r))
    by (intros l r; apply in_or_app; right; left; reflexivity).
  destruct (resize_buffers a) as [err|].
  { eexists _, _, _. split; [reflexivity|].
    split; [intros H; destruct (Hne _ _ H)|]. split.
    - intros _. split; [apply Hrs|]. split; [|left; reflexivity].
      exists []. rewrite released_app, released_release_if. simpl. rewrite ?app_nil_r. auto.
    - intros dv' b H. apply in_app_or in H as [H|H];
        [destruct (renderTarget c) | ]; simpl in H; intuition discriminate. }
  destruct (get_buffer a) as [bb [err|]] eqn:Hgb.
  { eexists _, _, _. split; [reflexivity|].
    split; [intros H; destruct (renderTarget c); discriminate|]. split.
    - intros _. split; [apply Hrs|]. split; [|left; reflexivity].
      exists []. rewrite released_app, released_release_if. simpl. rewrite ?app_nil_r. auto.
    - intros dv' b H. apply in_app_or in H as [H|H];
        [destruct (renderTarget c) | ]; simpl in H; intuition discriminate. }
  destruct bb as [b|].
  2:{ eexists _, _, _. split; [reflexivity|].
      split; [intros H; destruct (Hne _ _ H)|]. split.
      - intros _. split; [apply in_or_app; left; apply Hrs|].
        split; [|left; reflexivity].
        exists []. rewrite !released_app, released_release_if. simpl. rewrite ?app_nil_r. auto.
      - intros dv' b H. apply in_app_or in H as [H|H].
        + apply in_app_or in H as [H|H];
            [destruct (renderTarget c) | ]; simpl in H; intuition discriminate.
        + simpl in H. intuition discriminate. }
  assert (Hrel : released (((release_if (renderTarget c)
                             ++ [ResizeBuffers sw; GetBuffer sw])
                            ++ [CreateRenderTargetView dv (Some b)])
                           ++ [IUnknownRelease b])
                 = option_list (renderTarget c) ++ [b]).
  { rewrite !released_app, released_release_if. simpl. rewrite !app_nil_r. reflexivity. }
  assert (Hin : forall dv' b',
             In (CreateRenderTargetView dv' (Some b'))
                (((release_if (renderTarget c) ++ [ResizeBuffers sw; GetBuffer sw])
                  ++ [CreateRenderTargetView dv (Some b)]) ++ [IUnknownRelease b]) ->
             In b' (option_list (renderTarget c) ++ [b])).
  { intros dv' b' H. apply in_or_app. right.
    apply in_app_or in H as [H|H]; [|simpl in H; intuition discriminate].
    apply in_app_or in H as [H|H].
    - apply in_app_or in H as [H|H];
        [destruct (renderTarget c) | ]; simpl in H; intuition discriminate.
    - simpl in H. destruct H as [H|[]]. injection H as _ <-. left. reflexivity. }
  assert (Hrs4 : In (ResizeBuffers sw)
                   (((release_if (renderTarget c) ++ [ResizeBuffers sw; GetBuffer sw])
                     ++ [CreateRenderTargetView dv (Some b)]) ++ [IUnknownRelease b]))
    by (apply in_or_app; left; apply in_or_app; left; apply Hrs).
  destruct (create_view a) as [rt [err|]].
  - eexists _, _, _. split; [reflexivity|].
    split; [intros H; destruct (Hne _ _ H)|]. split.
    + intros _. split; [exact Hrs4|]. split; [|left; reflexivity].
      exists [b]. rewrite Hrel. split; [reflexivity|]. right. exists b. auto.
    + rewrite Hrel. exact Hin.
  - eexists _, _, _. split; [reflexivity|].
    split; [intros H; destruct (Hne _ _ H)|]. split.
    + intros _. split; [exact Hrs4|]. split; [|right; split; reflexivity].
      exists [b]. rewrite Hrel. split; [reflexivity|]. right. exists b. auto.
    + rewrite Hrel. exact Hin.
Qed.

(** X17.  [Release] lets go of every object the context holds, once each,
    render target first, then swap chain, device context and device; it
    calls nothing else and leaves the zero context, so that a second
    [Release] releases nothing. *)
Theorem Release_releases_once c :
  fst (Release c) = zero /\
  released (snd (Release c)) = held c /\
  forallb is_release (snd (Release c)) = true /\
  held (fst (Release c)) = [] /\
  Release (fst (Release c)) = (zero, []).
Proof.
  unfold Release, releaseFBO, held.
  destruct c as [wn dv cx sw rt wd ht]. simpl.
  destruct rt, sw, cx, dv; simpl; repeat split.
Qed.

(** X18.  The initializer keeps nothing it does not return.  When
    [CreateDevice] fails it returns the error inside the "NewContext" text
    and releases nothing; when [CreateSwapChain] fails it releases the
    device context and then the device, and returns that error as it is;
    in both cases it returns no context.  When both succeed it releases
    nothing, and the context it returns has no render target, so that the
    first [Refresh] cannot take the size for unchanged: it resizes the
    buffers. *)
Theorem initializer_keeps_nothing w cd cs :
  match initializer w cd cs with
  | (Ok (Some c, err), t) =>
      err = None /\ snd cd = None /\ snd cs = None /\ released t = [] /\
      win c = Some w /\ renderTarget c = None /\
      held c = option_list (fst cs) ++ option_list (snd (fst cd))
               ++ option_list (fst (fst cd)) /\
      (forall a sw, swchain c = Some sw -> In (ResizeBuffers sw) (snd (Refresh a c)))
  | (Ok (None, err), t) =>
      (exists e, snd cd = Some e /\ err = Some (Errorf "NewContext: %v" e) /\
                 released t = []) \/
      (exists e dv cx, cd = (Some dv, Some cx, None) /\ snd cs = Some e /\
                       err = Some e /\ released t = [cx; dv])
  | (NilDereference, t) =>
      snd cd = None /\ snd cs <> None /\
      (fst (fst cd) = None \/ snd (fst cd) = None)
  end.
Proof.
  unfold initializer. destruct cd as [[dv cx] [e|]].
  - left. exists e. auto.
  - destruct cs as [sw [e|]].
    + destruct cx as [cx|], dv as [dv|]; simpl.
      * right. exists e, dv, cx. auto.
      * split; [reflexivity|]. split; [discriminate | auto].
      * split; [reflexivity|]. split; [discriminate | auto].
      * split; [reflexivity|]. split; [discriminate | auto].
    + simpl. repeat split.
      intros a sw' Hsw. rewrite Refresh_eq. simpl. subst sw. cbv zeta.
      destruct (resize_buffers a); simpl; [auto|].
      destruct (get_buffer a) as [bb [err|]]; simpl; [auto|].
      destruct dv as [dv|]; simpl; [|auto].
      destruct bb as [b|]; simpl; [|auto].
      destruct (create_view a) as [rt [err|]]; simpl; auto.
Qed.

End Context_.

Arguments Ok {A} a.
Arguments NilDereference {A}.

End D3D11.

(* ================================================================= *)
(** ** Instances for the error texts and the Direct3D context *)

Module Runs.

Import Glfw.

Example error_texts :
  format_d 0 = "0"%string /\ format_d (-42) = "-42"%string /\
  ErrorCode_String platformError = "PlatformError"%string /\
  ErrorCode_String 0x0001000F = "ErrorCode(65551)"%string /\
  Error_Error {| Code := formatUnavailable; Desc := "x11: no such format" |}
  = "FormatUnavailable: x11: no such format"%string.
Proof. repeat split. Qed.

(** X3 for two lists with the same members. *)
Lemma acceptError_codes_as_set_witness :
  let err := {| Code := apiUnavailable; Desc := "no GL" |} in
  (forall c, In c [apiUnavailable; versionUnavailable]
             <-> In c [versionUnavailable; apiUnavailable; versionUnavailable]) /\
  acceptError [apiUnavailable; versionUnavailable] [Some err]
  = acceptError [versionUnavailable; apiUnavailable; versionUnavailable] [Some err].
Proof.
  intros err.
  assert (H : forall c, In c [apiUnavailable; versionUnavailable]
                        <-> In c [versionUnavailable; apiUnavailable;
                                  versionUnavailable]).
  { intros c. simpl. tauto. }
  split; [exact H|].
  exact (acceptError_codes_as_set _ _ [Some err] H).
Defined.

(** X5 for a channel that holds one error. *)
Lemma lastError_is_emptied_witness :
  let ch := [Some {| Code := outOfMemory; Desc := "oom" |}] in
  (List.length ch <= 1)%nat /\
  snd (fetchError ch) = [] /\
  snd (fst (acceptError [apiUnavailable] ch)) = [] /\
  snd (fst (panicError ch)) = [] /\
  fst (flushErrors ch) = [] /\
  acceptError [platformError] (snd (fst (acceptError [apiUnavailable] ch)))
  = (Return None, [], []) /\
  acceptError [platformError] (fst (flushErrors ch)) = (Return None, [], []).
Proof.
  intros ch.
  assert (H : (List.length ch <= 1)%nat) by (simpl; lia).
  split; [exact H|].
  exact (lastError_is_emptied ch [apiUnavailable] [platformError] H).
Defined.

Import D3D11.

(** Values for the four codes, those of the Windows headers; the theorems
    hold for any. *)
Definition occluded : Z := 0x087A0001.
Definition device_reset : Z := 0x887A0007.
Definition device_removed : Z := 0x887A0005.
Definition ddi_device_removed : Z := 0x88760870.

Definition refresh := @Refresh nat unit string occluded device_reset
                               device_removed ddi_device_removed.

(** A context with device 1, device context 2, swap chain 3 and render
    target 4, for a window of 800 by 600. *)
Definition context0 : @d3d11Context nat unit :=
  {| win := Some tt; dev := Some 1%nat; ctx := Some 2%nat; swchain := Some 3%nat;
     renderTarget := Some 4%nat; width := 800; height := 600 |}.

Definition answers (size : Z * Z) (resize : @Err string) : @Answers nat string :=
  {| hwnd_size := size; resize_buffers := resize;
     get_buffer := (Some 5%nat, None); create_view := (Some 6%nat, None) |}.

Definition occluded_error : @Err string :=
  Some (D3DError {| Code := occluded; ErrorCode_rest := "DXGI_STATUS_OCCLUDED"%string |}).

Example refresh_same_size :
  refresh (answers (800, 600) None) context0 = (Ok None, context0, []).
Proof. reflexivity. Qed.

Example refresh_resized :
  refresh (answers (1024, 768) None) context0 =
  (Ok None,
   {| win := Some tt; dev := Some 1%nat; ctx := Some 2%nat; swchain := Some 3%nat;
      renderTarget := Some 6%nat; width := 1024; height := 768 |},
   [IUnknownRelease 4%nat; ResizeBuffers 3%nat; GetBuffer 3%nat;
    CreateRenderTargetView 1%nat (Some 5%nat); IUnknownRelease 5%nat]).
Proof. reflexivity. Qed.

Example refresh_device_removed :
  fst (fst (refresh
              (answers (1024, 768)
                 (Some (D3DError {| Code := device_removed; ErrorCode_rest := "removed"%string |})))
              context0))
  = Ok (Some ErrDeviceLost).
Proof. reflexivity. Qed.

(** X15 where [ResizeBuffers] reports the occluded status. *)
Lemma Refresh_returns_nil_witness :
  let a := answers (1024, 768) occluded_error in
  let c' := set_renderTarget None context0 in
  let t := [IUnknownRelease 4%nat; ResizeBuffers 3%nat] in
  (win context0 = Some tt /\ swchain context0 = Some 3%nat /\
   dev context0 = Some 1%nat /\ refresh a context0 = (Ok None, c', t)) /\
  ((c' = context0 /\ t = [] /\ renderTarget context0 <> None /\
    hwnd_size a = (width context0, height context0)) \/
   (exists e,
       resize_buffers a = Some (D3DError e) /\ Code e = occluded /\
       c' = set_renderTarget None context0 /\
       (width c', height c') = (width context0, height context0) /\
       t = release_if (renderTarget context0) ++ [ResizeBuffers 3%nat] /\
       (forall cx, ctx context0 = Some cx ->
                   Lock (ErrorCodeRest := string) c'
                   = (Ok None, [OMSetRenderTargets cx None]))) \/
   (exists b,
       resize_buffers a = None /\ get_buffer a = (Some b, None) /\
       snd (create_view a) = None /\
       c' = set_renderTarget (fst (create_view a))
              (set_size (fst (hwnd_size a)) (snd (hwnd_size a))
                        (set_renderTarget None context0)) /\
       (width c', height c') = hwnd_size a /\
       t = release_if (renderTarget context0) ++
           [ResizeBuffers 3%nat; GetBuffer 3%nat;
            CreateRenderTargetView 1%nat (Some b); IUnknownRelease b])).
Proof.
  intros a c' t. split; [repeat split|].
  exact (Refresh_returns_nil occluded device_reset device_removed
           ddi_device_removed a context0 c' t tt 3%nat 1%nat
           eq_refl eq_refl eq_refl eq_refl).
Defined.

(** X16 where creating the view fails: the back buffer is released all the
    same, and no render target is left. *)
Lemma Refresh_accounting_witness :
  let a := {| hwnd_size := (1024, 768); resize_buffers := None;
              get_buffer := (Some 5%nat, None);
              create_view := (None, Some (OtherError "no view")) |} in
  (win context0 = Some tt /\ swchain context0 = Some 3%nat /\
   dev context0 = Some 1%nat) /\
  exists o c' t,
    refresh a context0 = (o, c', t) /\
    (t = [] -> c' = context0) /\
    (t <> [] ->
     In (ResizeBuffers 3%nat) t /\
     (exists bb,
         released t = option_list (renderTarget context0) ++ bb /\
         (bb = [] \/ exists b, get_buffer a = (Some b, None) /\ bb = [b])) /\
     (renderTarget c' = None \/
      (o = Ok None /\ renderTarget c' = fst (create_view a)))) /\
    (forall dv' b, In (CreateRenderTargetView dv' (Some b)) t -> In b (released t)).
Proof.
  intros a. split; [repeat split|].
  exact (Refresh_accounting occluded device_reset device_removed
           ddi_device_removed a context0 tt 3%nat 1%nat eq_refl eq_refl eq_refl).
Defined.

Example refresh_view_fails :
  refresh {| hwnd_size := (1024, 768); resize_buffers := None;
             get_buffer := (Some 5%nat, None);
             create_view := (None, Some (OtherError "no view")) |} context0
  = (Ok (Some (OtherError "no view")),
     {| win := Some tt; dev := Some 1%nat; ctx := Some 2%nat; swchain := Some 3%nat;
        renderTarget := None; width := 1024; height := 768 |},
     [IUnknownRelease 4%nat; ResizeBuffers 3%nat; GetBuffer 3%nat;
      CreateRenderTargetView 1%nat (Some 5%nat); IUnknownRelease 5%nat]).
Proof. reflexivity. Qed.

Example release_twice :
  Release context0 =
  (zero, [IUnknownRelease 4%nat; IUnknownRelease 3%nat; IUnknownRelease 2%nat;
          IUnknownRelease 1%nat]) /\
  Release (fst (Release context0)) = (zero, []).
Proof. split; reflexivity. Qed.

Example initializer_swapchain_fails :
  initializer (ErrorCodeRest := string) tt (Some 1%nat, Some 2%nat, None)
              (None, Some (OtherError "no swap chain"))
  = (Ok (None, Some (OtherError "no swap chain")),
     [CreateDevice; CreateSwapChain (Some 1%nat) tt;
      IUnknownRelease 2%nat; IUnknownRelease 1%nat]).
Proof. reflexivity. Qed.

End Runs.
